(** * RizeOS backend: a shallow embedding of the route and model logic

    The development follows the source files:
    - [Js]: the ECMAScript built-ins the handlers call (string methods,
      [Array.prototype.sort], [Math.round], truthiness);
    - [Message], [Notification], [Payment], [Post], [Job], [User]: the
      Mongoose schemas, as records;
    - [NotificationRoutes], [AiRoutes], [PaymentRoutes], [JobRoutes],
      [PostRoutes], [MessageRoutes]: the Express handlers, as functions
      from the database state and the request to the new state and the
      response.

    JavaScript numbers are IEEE 754 doubles and are modelled by Rocq's
    primitive floats.  JavaScript strings are modelled by [string]; a
    character stands for one UTF-16 code unit below 256. *)

From Stdlib Require Import ZArith List String Ascii Bool Floats Lia.
From Stdlib Require Import Permutation DecimalString.
Import ListNotations.
Local Open Scope string_scope.
Set Warnings "-register-all,-inexact-float".

(* ================================================================== *)
(** * Part I: definitions *)
(* ================================================================== *)

(** ** ECMAScript built-ins *)

Module Js.

(** The result of a call that may throw. *)
Inductive outcome (A : Type) : Type :=
| Returned (value : A)
| Thrown (message : string).
Arguments Returned {A} value.
Arguments Thrown {A} message.

(** Truthiness of an optional string: [undefined] and the empty string
    are falsy. *)
Definition truthy (v : option string) : bool :=
  match v with
  | Some (String _ _) => true
  | _ => false
  end.

(** [s || d] on strings. *)
Definition or_default (s d : string) : string :=
  match s with
  | EmptyString => d
  | _ => s
  end.

(** *** Characters *)

(** [String.prototype.toLowerCase] on one code unit of the Latin-1 range:
    A-Z and the accented capitals U+00C0..U+00DE (U+00D7, the
    multiplication sign, has no lower case). *)
Definition lower_char (c : ascii) : ascii :=
  let n := N_of_ascii c in
  if ((65 <=? n) && (n <=? 90)
      || (192 <=? n) && (n <=? 222) && negb (n =? 215))%N
  then ascii_of_N (n + 32)
  else c.

(** WhiteSpace and LineTerminator code units below 256: TAB, LF, VT, FF,
    CR, SP and NBSP. *)
Definition is_whitespace (c : ascii) : bool :=
  let n := N_of_ascii c in
  ((9 <=? n) && (n <=? 13) || (n =? 32) || (n =? 160))%N.

Definition not_whitespace (c : ascii) : bool := negb (is_whitespace c).

(** *** String methods *)

(** The code unit [c] occurs in [s]. *)
Fixpoint contains (c : ascii) (s : string) : Prop :=
  match s with
  | EmptyString => False
  | String d s' => d = c \/ contains c s'
  end.

Fixpoint toLowerCase (s : string) : string :=
  match s with
  | EmptyString => EmptyString
  | String c s' => String (lower_char c) (toLowerCase s')
  end.

(** Some code unit of [s] satisfies [p]. *)
Fixpoint some_char (p : ascii -> bool) (s : string) : bool :=
  match s with
  | EmptyString => false
  | String c s' => p c || some_char p s'
  end.

(** [sub] occurs in [s]: some text before it and some text after it make
    up [s]. *)
Definition occurs_in (sub s : string) : Prop :=
  exists before after, s = before ++ sub ++ after.

(** [s.includes(sub)]: [sub] occurs in [s] at some position. *)
Fixpoint includes (s sub : string) : bool :=
  String.prefix sub s
  || match s with
     | EmptyString => false
     | String _ s' => includes s' sub
     end.

Fixpoint trimStart (s : string) : string :=
  match s with
  | EmptyString => EmptyString
  | String c s' => if is_whitespace c then trimStart s' else s
  end.

Fixpoint trimEnd (s : string) : string :=
  match s with
  | EmptyString => EmptyString
  | String c s' =>
      match trimEnd s' with
      | EmptyString => if is_whitespace c then EmptyString else String c EmptyString
      | r => String c r
      end
  end.

Definition trim (s : string) : string := trimEnd (trimStart s).

(** [s.replace(/[...]/g, '')]: every code unit of the class is dropped. *)
Fixpoint remove_class (cls : ascii -> bool) (s : string) : string :=
  match s with
  | EmptyString => EmptyString
  | String c s' =>
      if cls c then remove_class cls s' else String c (remove_class cls s')
  end.

(** [s.split(/[...]/)]: the pieces between the code units of the class;
    the empty string splits into one empty piece. *)
Fixpoint split_class (cls : ascii -> bool) (s : string) : list string :=
  match s with
  | EmptyString => [EmptyString]
  | String c s' =>
      if cls c then EmptyString :: split_class cls s'
      else match split_class cls s' with
           | piece :: rest => String c piece :: rest
           | [] => [String c EmptyString]
           end
  end.

(** The suffix of [s] that starts at the first occurrence of [c]. *)
Fixpoint from_first (c : ascii) (s : string) : option string :=
  match s with
  | EmptyString => None
  | String d s' => if Ascii.eqb d c then Some s else from_first c s'
  end.

(** The prefix of [s] that ends at the last occurrence of [c]. *)
Fixpoint upto_last (c : ascii) (s : string) : option string :=
  match s with
  | EmptyString => None
  | String d s' =>
      match upto_last c s' with
      | Some r => Some (String d r)
      | None => if Ascii.eqb d c then Some (String d EmptyString) else None
      end
  end.

(** [s.match(/\o[\s\S]*\c/)] for two distinct literal delimiters [o] and
    [c] (also [/\o.*\c/s]): the leftmost match starts at the first [o],
    and the greedy star runs to the last [c] after it. *)
Definition match_span (o c : ascii) (s : string) : option string :=
  match from_first o s with
  | Some rest => upto_last c rest
  | None => None
  end.

(** [l.join(sep)]. *)
Definition join (sep : string) (l : list string) : string :=
  String.concat sep l.

(** A length interpolated into a template literal. *)
Definition string_of_length (n : nat) : string :=
  NilZero.string_of_uint (Nat.to_uint n).

(** *** Arrays *)

(** [Array.prototype.sort] without a comparator on an array of strings:
    ascending by code units, stable. *)
Fixpoint sort_insert (x : string) (sorted : list string) : list string :=
  match sorted with
  | [] => [x]
  | y :: rest => if (x <? y) then x :: sorted else y :: sort_insert x rest
  end.

Definition sort (l : list string) : list string :=
  fold_left (fun acc x => sort_insert x acc) l [].

(** [l.indexOf(x)], with [None] for -1. *)
Fixpoint indexOf (l : list string) (x : string) : option nat :=
  match l with
  | [] => None
  | y :: rest =>
      if (y =? x) then Some O
      else match indexOf rest x with
           | Some i => Some (S i)
           | None => None
           end
  end.

(** [l.splice(i, 1)]: the array without its element at index [i]. *)
Fixpoint splice1 (l : list string) (i : nat) : list string :=
  match l, i with
  | [], _ => []
  | _ :: rest, O => rest
  | y :: rest, S j => y :: splice1 rest j
  end.

(** *** Numbers *)

Definition of_Z (z : Z) : float :=
  if (z <? 0)%Z then (- PrimFloat.of_uint63 (Uint63.of_Z (- z)))%float
  else PrimFloat.of_uint63 (Uint63.of_Z z).

Definition of_nat (n : nat) : float := of_Z (Z.of_nat n).

(** [Math.round]: the nearest integer, ties towards positive infinity.
    A finite double is [m * 2^e] with its sign; for [e >= 0] it is an
    integer already, otherwise the result is [floor (x + 1/2)], computed
    exactly on integers.  A result of zero keeps the sign of [x]. *)
Definition Math_round (x : float) : float :=
  match Prim2SF x with
  | S754_finite s m e =>
      if (0 <=? e)%Z then x
      else
        let k := (- e)%Z in
        let sm := if s then (- Z.pos m)%Z else Z.pos m in
        let n := ((2 * sm + 2 ^ k) / 2 ^ (k + 1))%Z in
        if (n =? 0)%Z then (if s then (-0)%float else 0%float) else of_Z n
  | _ => x
  end.

(** [x || d] on numbers: zero and NaN are falsy. *)
Definition number_or (x d : float) : float :=
  if (PrimFloat.eqb x 0 || negb (PrimFloat.eqb x x))%bool then d else x.

End Js.

(** A number that is an integer or one of the special values a division
    by zero yields. *)
Inductive number : Type :=
| Finite (z : Z)
| Infinity
| NaN.

(** [Math.ceil(total / limit)] for a count [total] and an integer
    [limit].  The quotient of two integers below 2^53 never rounds across
    an integer, so the ceiling is the exact one. *)
Definition Math_ceil_div (total : nat) (limit : Z) : number :=
  if (limit =? 0)%Z then
    match total with
    | O => NaN
    | S _ => Infinity
    end
  else Finite (- ((- Z.of_nat total) / limit))%Z.

(** An HTTP response: [res.status(s).json(payload)], or the error
    envelope [res.status(s).json({ error })]. *)
Inductive response (A : Type) : Type :=
| Json (status : Z) (payload : A)
| Error (status : Z) (error : string).
Arguments Json {A} status payload.
Arguments Error {A} status error.

(** A value produced by [JSON.parse]. *)
Inductive json : Type :=
| JNull
| JBool (b : bool)
| JNumber (x : float)
| JString (s : string)
| JArray (items : list json)
| JObject (fields : list (string * json)).

(** ** Mongoose schemas *)

(** The string form of a document identifier. *)
Definition ObjectId : Type := string.

Definition is_hex_digit (c : ascii) : bool :=
  let n := N_of_ascii c in
  ((48 <=? n) && (n <=? 57) || (65 <=? n) && (n <=? 70)
   || (97 <=? n) && (n <=? 102))%N.

(** The string form of an ObjectId, as [ObjectId.prototype.toString]
    returns it and as a request carries it: 24 hexadecimal digits. *)
Definition is_ObjectId (s : string) : bool :=
  (String.length s =? 24)%nat && forallb is_hex_digit (list_ascii_of_string s).

(** What Mongoose does with a string of a request where a schema path
    or a query on [_id] wants an ObjectId: 24 hexadecimal digits, in
    either case, are cast to the identifier, whose string form has them
    in lower case; any other string is refused with a CastError, as the
    ObjectId constructor refuses it since bson 5.  A string [s] with
    [ObjectId_cast s = Some s] is an identifier in its string form. *)
Definition ObjectId_cast (s : string) : option ObjectId :=
  if is_ObjectId s then Some (Js.toLowerCase s) else None.

(** [Date.parse] and the clock, which the handlers reach through
    [new Date(...)]. *)
Record Clock : Type := {
  Date_parse : string -> float;
  Date_now : float
}.

Module Experience.
(** An entry of [user.experience]; an absent string field reads as the
    empty string. *)
Record t : Type := {
  title : string;
  company : string;
  startDate : string;
  endDate : string;
  current : bool
}.
End Experience.

Module Education.
Record t : Type := {
  degree : string;
  institution : string
}.
End Education.

Module User.
Record t : Type := {
  _id : ObjectId;
  bio : string;
  skills : list string;
  location : string;
  experience : list Experience.t;
  education : list Education.t;
  connections : list ObjectId
}.
End User.

Module Job.
Record t : Type := {
  _id : ObjectId;
  location : string;
  workMode : string;
  skills : list string;
  experienceLevel : string;
  postedBy : ObjectId;
  status : string;
  paymentVerified : bool;
  transactionHash : string;
  blockchain : string
}.

(** The fields [findByIdAndUpdate] sets after a payment. *)
Definition mark_paid (hash chain : string) (j : t) : t :=
  {| _id := _id j; location := location j; workMode := workMode j;
     skills := skills j; experienceLevel := experienceLevel j;
     postedBy := postedBy j; status := status j;
     paymentVerified := true; transactionHash := hash;
     blockchain := chain |}.
End Job.

Module Post.
Record t : Type := {
  _id : ObjectId;
  content : string;
  author : ObjectId;
  likes : list ObjectId;
  visibility : string
}.

Definition with_likes (p : t) (l : list ObjectId) : t :=
  {| _id := _id p; content := content p; author := author p;
     likes := l; visibility := visibility p |}.
End Post.

Module Message.
Record t : Type := {
  conversationId : string;
  sender : ObjectId;
  receiver : ObjectId;
  content : string;
  read : bool
}.

(** [messageSchema.statics.generateConversationId]: the two identifiers
    in their string form, sorted, joined by an underscore. *)
Definition generateConversationId (userId1 userId2 : ObjectId) : string :=
  let ids := Js.sort [userId1; userId2] in
  nth 0 ids EmptyString ++ "_" ++ nth 1 ids EmptyString.
End Message.

Module Notification.
(** The [enum] of the [type] field. *)
Inductive kind : Type :=
| post_like
| post_comment
| connection_request
| connection_accepted
| profile_view
| job_posted
| job_application
| message_received.

Record t : Type := {
  recipient : ObjectId;
  sender : ObjectId;
  type : kind;
  post : option ObjectId;
  job : option ObjectId;
  message : option string;
  read : bool
}.

(** [new Notification({...})]: [read] takes its schema default. *)
Definition new (recipient sender : ObjectId) (type : kind)
    (post job : option ObjectId) (message : option string) : t :=
  {| recipient := recipient; sender := sender; type := type;
     post := post; job := job; message := message; read := false |}.
End Notification.

Module Payment.
Record t : Type := {
  user : ObjectId;
  transactionHash : string;
  blockchain : string;
  amount : float;
  currency : string;
  fromAddress : option string;
  toAddress : option string;
  purpose : string;
  relatedJobId : option ObjectId;
  status : string
}.

Definition blockchains : list string := ["ethereum"; "polygon"; "solana"].

Definition purposes : list string :=
  ["job_posting"; "premium_subscription"; "job_boost"; "featured_listing"].

Definition statuses : list string := ["pending"; "confirmed"; "failed"].

Definition one_of (allowed : list string) (s : string) : bool :=
  existsb (String.eqb s) allowed.

(** Schema validation on save: the [required] strings are present and
    the [enum] fields take a listed value. *)
Definition validate (p : t) : bool :=
  negb (transactionHash p =? EmptyString)
  && one_of blockchains (blockchain p)
  && negb (currency p =? EmptyString)
  && Js.truthy (fromAddress p)
  && Js.truthy (toAddress p)
  && one_of purposes (purpose p)
  && one_of statuses (status p).
End Payment.

(** ** The database *)

Record Db : Type := {
  users : list User.t;
  jobs : list Job.t;
  posts : list Post.t;
  messages : list Message.t;
  notifications : list Notification.t;
  payments : list Payment.t
}.

Definition with_jobs (db : Db) (l : list Job.t) : Db :=
  {| users := users db; jobs := l; posts := posts db;
     messages := messages db; notifications := notifications db;
     payments := payments db |}.

Definition with_posts (db : Db) (l : list Post.t) : Db :=
  {| users := users db; jobs := jobs db; posts := l;
     messages := messages db; notifications := notifications db;
     payments := payments db |}.

Definition with_messages (db : Db) (l : list Message.t) : Db :=
  {| users := users db; jobs := jobs db; posts := posts db;
     messages := l; notifications := notifications db;
     payments := payments db |}.

Definition with_notifications (db : Db) (l : list Notification.t) : Db :=
  {| users := users db; jobs := jobs db; posts := posts db;
     messages := messages db; notifications := l;
     payments := payments db |}.

Definition with_payments (db : Db) (l : list Payment.t) : Db :=
  {| users := users db; jobs := jobs db; posts := posts db;
     messages := messages db; notifications := notifications db;
     payments := l |}.

Definition empty_db : Db :=
  {| users := []; jobs := []; posts := []; messages := [];
     notifications := []; payments := [] |}.

(** The first document of a collection that satisfies [p]. *)
Definition findOne {A : Type} (p : A -> bool) (coll : list A) : option A :=
  find p coll.

(** The collection with its first document satisfying [p] replaced by
    [f] of it. *)
Fixpoint update_first {A : Type} (p : A -> bool) (f : A -> A)
    (coll : list A) : list A :=
  match coll with
  | [] => []
  | d :: rest => if p d then f d :: rest else d :: update_first p f rest
  end.

Module Store.
Definition User_findById (db : Db) (id : ObjectId) : option User.t :=
  findOne (fun u => User._id u =? id) (users db).

Definition Job_findById (db : Db) (id : ObjectId) : option Job.t :=
  findOne (fun j => Job._id j =? id) (jobs db).

Definition Post_findById (db : Db) (id : ObjectId) : option Post.t :=
  findOne (fun p => Post._id p =? id) (posts db).

Definition Payment_findOne (db : Db) (hash : string) : option Payment.t :=
  findOne (fun p => Payment.transactionHash p =? hash) (payments db).

(** [Job.findByIdAndUpdate(id, { paymentVerified: true, ... })]. *)
Definition Job_findByIdAndUpdate (db : Db) (id : ObjectId)
    (hash chain : string) : Db :=
  with_jobs db
    (update_first (fun j => Job._id j =? id) (Job.mark_paid hash chain)
       (jobs db)).

(** [post.save()] of a loaded post. *)
Definition Post_save (db : Db) (p : Post.t) : Db :=
  with_posts db
    (update_first (fun q => Post._id q =? Post._id p) (fun _ => p)
       (posts db)).

Definition Message_save (db : Db) (m : Message.t) : Db :=
  with_messages db (messages db ++ [m]).

Definition Notification_save (db : Db) (n : Notification.t) : Db :=
  with_notifications db (notifications db ++ [n]).

(** [payment.save()]: the schema is validated, and the unique index on
    [transactionHash] rejects a second document with the same hash. *)
Definition Payment_save (db : Db) (p : Payment.t) : Js.outcome Db :=
  if negb (Payment.validate p) then Js.Thrown "ValidationError"
  else
    match Payment_findOne db (Payment.transactionHash p) with
    | Some _ => Js.Thrown "E11000 duplicate key error"
    | None => Js.Returned (with_payments db (payments db ++ [p]))
    end.

(** The number of ledger entries with a given hash. *)
Definition Payment_count (db : Db) (hash : string) : nat :=
  List.length
    (filter (fun p => Payment.transactionHash p =? hash) (payments db)).

(** What the store does with [find(...).sort(...).skip(k).limit(n)]:
    an ordering of the matching documents, and the window a cursor
    returns. *)
Record Query (A : Type) : Type := {
  order : list A -> list A;
  window : list A -> Z -> Z -> Js.outcome (list A)
}.
Arguments order {A} _ _.
Arguments window {A} _ _ _ _.

(** The store's contract: sorting permutes; for a skip [k >= 0] and a
    limit [n > 0] the cursor drops [k] documents and returns at most
    [n] of the rest. *)
Definition Query_ok {A : Type} (q : Query A) : Prop :=
  (forall l, Permutation l (order q l)) /\
  (forall l k n, (0 <= k)%Z -> (0 < n)%Z ->
     window q l k n
     = Js.Returned (firstn (Z.to_nat n) (skipn (Z.to_nat k) l))).

(** A store that keeps insertion order and rejects a negative skip or
    a limit that is not positive. *)
Definition reference (A : Type) : Query A :=
  {| order := fun l => l;
     window := fun l k n =>
       if ((0 <=? k) && (0 <? n))%Z
       then Js.Returned (firstn (Z.to_nat n) (skipn (Z.to_nat k) l))
       else Js.Thrown "MongoServerError" |}.

(** A store with the cursor of MongoDB: a negative limit stands for its
    absolute value, a limit of zero for no limit, and a negative skip
    is refused. *)
Definition driver (A : Type) : Query A :=
  {| order := fun l => l;
     window := fun l k n =>
       if (k <? 0)%Z then Js.Thrown "MongoServerError"
       else
         let rest := skipn (Z.to_nat k) l in
         Js.Returned
           (if (n =? 0)%Z then rest else firstn (Z.to_nat (Z.abs n)) rest) |}.
End Store.

(** ** routes/notifications: the notification helper *)

Module NotificationRoutes.

(** [createNotification({ recipient, sender, type, post, job, message })]:
    nothing is created when the recipient is the sender; otherwise the
    notification is saved and returned.  The result [None] is the
    source's [null].  The arguments are identifiers of stored documents
    and of the authenticated user: saving such a document succeeds, so
    the [catch] block, which answers a failed save by [null], has no
    counterpart here.  It has one in [createNotification_cast] below,
    the helper on the strings of a request. *)
Definition createNotification (db : Db) (recipient sender : ObjectId)
    (type : Notification.kind) (post job : option ObjectId)
    (message : option string) : Db * option Notification.t :=
  if (recipient =? sender) then (db, None)
  else
    let notification :=
      Notification.new recipient sender type post job message in
    (Store.Notification_save db notification, Some notification).

(** The cast of an optional reference. *)
Definition cast_reference (v : option string) : option (option ObjectId) :=
  match v with
  | None => Some None
  | Some s =>
      match ObjectId_cast s with
      | Some id => Some (Some id)
      | None => None
      end
  end.

(** [createNotification] on strings that come from a request.  The two
    string forms are compared as they are; [new Notification] casts
    the references, and a failed cast fails the validation of [save],
    which the [catch] block answers by [null], with nothing stored.  On
    identifiers in their string form this is [createNotification]. *)
Definition createNotification_cast (db : Db) (recipient sender : string)
    (type : Notification.kind) (post job : option string)
    (message : option string) : Db * option Notification.t :=
  if (recipient =? sender) then (db, None)
  else
    match ObjectId_cast recipient, ObjectId_cast sender,
          cast_reference post, cast_reference job with
    | Some recipient, Some sender, Some post, Some job =>
        let notification :=
          Notification.new recipient sender type post job message in
        (Store.Notification_save db notification, Some notification)
    | _, _, _, _ => (db, None)
    end.

End NotificationRoutes.

(** ** routes/ai: skill extraction and job matching *)

Module AiRoutes.

(** [callOpenRouterAPI(prompt)]: [http] is what the POST to the provider
    did, returning the completion text or throwing; every failure is
    rethrown as the same error. *)
Definition callOpenRouterAPI (http : Js.outcome string) : Js.outcome string :=
  match http with
  | Js.Returned content => Js.Returned content
  | Js.Thrown _ => Js.Thrown "AI service error"
  end.

(** *** POST /extract-skills *)

Definition quote_or_bracket (c : ascii) : bool :=
  (Ascii.eqb c "034" || Ascii.eqb c "[" || Ascii.eqb c "]")%char.

Definition comma_or_newline (c : ascii) : bool :=
  (Ascii.eqb c "," || Ascii.eqb c "010")%char.

(** The fallback of both the [else] branch and the [catch] block:
    double quotes and square brackets are removed, the text is split
    at commas and newlines, the pieces are trimmed and the empty ones
    dropped. *)
Definition split_skills (aiResponse : string) : list string :=
  filter (fun s => negb (s =? EmptyString))
    (map Js.trim
       (Js.split_class comma_or_newline
          (Js.remove_class quote_or_bracket aiResponse))).

(** The code units that survive the fallback: neither removed, nor a
    separator, nor trimmed away. *)
Definition is_skill_char (c : ascii) : bool :=
  negb (quote_or_bracket c)
  && (negb (comma_or_newline c) && negb (Js.is_whitespace c)).

(** Some part of [text] is the text of a JSON array. *)
Definition contains_json_array (JSON_parse : string -> option json)
    (text : string) : Prop :=
  exists before span after items,
    text = before ++ span ++ after
    /\ JSON_parse span = Some (JArray items).

(** The JSON grammar: a text that starts with a bracket denotes an
    array. *)
Definition bracket_means_array (JSON_parse : string -> option json) : Prop :=
  forall s value,
    JSON_parse (String "[" s) = Some value ->
    exists items, value = JArray items.

(** The handler.  [JSON_parse] is [JSON.parse], with [None] for a
    thrown SyntaxError.  A span that starts with a bracket parses to an
    array or not at all; the last branch stands for the TypeError of
    [skills.slice] on any other value. *)
Definition extract_skills (JSON_parse : string -> option json)
    (text : option string) (http : Js.outcome string)
    : response (list json) :=
  if negb (Js.truthy text) then Error 400 "Text is required"
  else
    match callOpenRouterAPI http with
    | Js.Thrown _ => Error 500 "Failed to extract skills"
    | Js.Returned aiResponse =>
        let skills :=
          match Js.match_span "[" "]" aiResponse with
          | Some jsonMatch =>
              match JSON_parse jsonMatch with
              | Some parsed => parsed
              | None => JArray (map JString (split_skills aiResponse))
              end
          | None => JArray (map JString (split_skills aiResponse))
          end in
        match skills with
        | JArray items => Json 200 (firstn 20 items)
        | _ => Error 500 "Failed to extract skills"
        end
    end.

(** *** POST /job-match *)

Record MatchResult : Type := {
  matchScore : float;
  matchCategory : string;
  strengths : list string;
  gaps : list string;
  recommendation : string
}.

(** The [matchData] of the response: what the provider's JSON parsed
    to, the initial empty object, or the fallback's result. *)
Inductive MatchData : Type :=
| Parsed (value : json)
| EmptyObject
| Heuristic (result : MatchResult).

(** The years one experience entry contributes.  The schema has no
    [startYear] or [endYear], which therefore read as undefined. *)
Definition years_of (clock : Clock) (exp : Experience.t) : float :=
  let start :=
    Date_parse clock (Js.or_default (Experience.startDate exp) "2020-01-01") in
  let end_ :=
    if Experience.current exp then Date_now clock
    else match Experience.endDate exp with
         | EmptyString => start
         | d => Date_parse clock d
         end in
  ((end_ - start) / 31536000000)%float.

Definition totalYearsExperience (clock : Clock)
    (experience : list Experience.t) : float :=
  fold_left (fun total exp => (total + years_of clock exp)%float)
    experience 0%float.

(** [skill] matches [jobSkill] when one contains the other, ignoring
    case. *)
Definition skill_matches (skill jobSkill : string) : bool :=
  Js.includes (Js.toLowerCase jobSkill) (Js.toLowerCase skill)
  || Js.includes (Js.toLowerCase skill) (Js.toLowerCase jobSkill).

Definition skillMatches (userSkills jobSkills : list string) : list string :=
  filter (fun skill => existsb (skill_matches skill) jobSkills) userSkills.

Definition skillScore (userSkills jobSkills : list string) : float :=
  (Js.of_nat (List.length (skillMatches userSkills jobSkills))
   / Js.of_nat (Nat.max (List.length jobSkills) 1) * 40)%float.

(** The object literal [expLevelMap], read at [job.experienceLevel].  The
    schema's enum keeps the level among the four keys, so a property
    inherited from [Object.prototype] is never read. *)
Definition expLevelMap (level : string) : option (float * float) :=
  if level =? "entry" then Some (0, 2)%float
  else if level =? "mid" then Some (2, 5)%float
  else if level =? "senior" then Some (5, 10)%float
  else if level =? "lead" then Some (8, 20)%float
  else None.

Definition expScore (level : string) (years : float) : float :=
  let '(minExp, maxExp) :=
    match expLevelMap level with
    | Some range => range
    | None => (0, 2)%float
    end in
  if PrimFloat.leb minExp years && PrimFloat.leb years (maxExp + 2)%float
  then 30%float
  else if PrimFloat.leb minExp years then 20%float
  else 0%float.

(** [location] is the profile's location after its default. *)
Definition locationScore (location : string) (job : Job.t) : float :=
  if (Job.workMode job =? "remote")
     || negb (location =? EmptyString)
        && Js.includes (Js.toLowerCase (Job.location job))
             (Js.toLowerCase location)
  then 15%float else 5%float.

Definition educationScore (education : list Education.t) : float :=
  match education with
  | [] => 5%float
  | _ :: _ => 15%float
  end.

Definition category (totalScore : float) : string :=
  if PrimFloat.leb 90 totalScore then "Gold Match"
  else if PrimFloat.leb 70 totalScore then "Strong Match"
  else if PrimFloat.leb 50 totalScore then "Good Match"
  else "Partial Match".

(** The body of the [catch (parseError)] block. *)
Definition fallback (user : User.t) (job : Job.t) (years : float)
    : MatchResult :=
  let location := Js.or_default (User.location user) "Not specified" in
  let matches := skillMatches (User.skills user) (Job.skills job) in
  let totalScore :=
    Js.Math_round
      (skillScore (User.skills user) (Job.skills job)
       + expScore (Job.experienceLevel job) years
       + locationScore location job
       + educationScore (User.education user))%float in
  {| matchScore := totalScore;
     matchCategory := category totalScore;
     strengths :=
       match matches with
       | [] => ["Review job requirements carefully"]
       | _ :: _ =>
           [Js.string_of_length (List.length matches)
            ++ " matching skills: " ++ Js.join ", " (firstn 3 matches)]
       end;
     gaps :=
       if (List.length matches <? List.length (Job.skills job))%nat
       then ["Consider upskilling in required technologies"]
       else [];
     recommendation :=
       if PrimFloat.leb 70 totalScore then "Strong candidate - Apply now!"
       else "Review requirements and highlight relevant experience" |}.

(** The handler: [http] is the outcome of the provider call. *)
Definition job_match (JSON_parse : string -> option json) (clock : Clock)
    (db : Db) (userId : ObjectId) (jobId : option string)
    (http : Js.outcome string) : response MatchData :=
  match jobId with
  | Some (String c id) =>
      let jobId := String c id in
      match Store.Job_findById db jobId, Store.User_findById db userId with
      | None, _ => Error 404 "Job not found"
      | Some _, None => Error 404 "User not found"
      | Some job, Some user =>
          let years := totalYearsExperience clock (User.experience user) in
          match callOpenRouterAPI http with
          | Js.Thrown _ => Error 500 "Failed to analyze job match"
          | Js.Returned aiResponse =>
              match Js.match_span "{" "}" aiResponse with
              | Some jsonMatch =>
                  match JSON_parse jsonMatch with
                  | Some parsed => Json 200 (Parsed parsed)
                  | None => Json 200 (Heuristic (fallback user job years))
                  end
              | None => Json 200 EmptyObject
              end
          end
      end
  | _ => Error 400 "Job ID is required"
  end.

End AiRoutes.

(** ** routes/payments: recording a payment *)

Module PaymentRoutes.

(** The environment variables the handler reads: the fee after
    [parseFloat] (NaN when unset) and the admin wallet. *)
Record Env : Type := {
  PLATFORM_FEE_ETH : float;
  ADMIN_WALLET_ETH : option string
}.

Record Body : Type := {
  transactionHash : option string;
  blockchain : option string;
  jobId : option string;
  fromAddress : option string
}.

Definition text (v : option string) : string :=
  match v with
  | Some s => s
  | None => EmptyString
  end.

(** POST /verify-eth. *)
Definition verify_eth (env : Env) (db : Db) (userId : ObjectId)
    (body : Body) : Db * response Payment.t :=
  if negb (Js.truthy (transactionHash body))
     || negb (Js.truthy (blockchain body))
  then (db, Error 400 "Transaction hash and blockchain are required")
  else
    let hash := text (transactionHash body) in
    let chain := text (blockchain body) in
    match Store.Payment_findOne db hash with
    | Some _ => (db, Error 400 "Payment already recorded")
    | None =>
        let payment :=
          {| Payment.user := userId;
             Payment.transactionHash := hash;
             Payment.blockchain := chain;
             Payment.amount := Js.number_or (PLATFORM_FEE_ETH env) 0.00001;
             Payment.currency :=
               if chain =? "ethereum" then "ETH" else "MATIC";
             Payment.fromAddress := fromAddress body;
             Payment.toAddress := ADMIN_WALLET_ETH env;
             Payment.purpose := "job_posting";
             Payment.relatedJobId := jobId body;
             Payment.status := "confirmed" |} in
        match Store.Payment_save db payment with
        | Js.Thrown _ => (db, Error 500 "Failed to verify payment")
        | Js.Returned db' =>
            let db'' :=
              if Js.truthy (jobId body)
              then Store.Job_findByIdAndUpdate db' (text (jobId body))
                     hash chain
              else db' in
            (db'', Json 200 payment)
        end
    end.

End PaymentRoutes.

(** ** Paginated lists: GET /api/jobs and GET /api/posts/feed *)

Module Pagination.
Record t : Type := {
  page : Z;
  limit : Z;
  total : nat;
  pages : number
}.
End Pagination.

Module JobRoutes.

(** GET /: [query] is the predicate of the query document the handler
    builds from its filters; [page] and [limit] are the parameters
    after [parseInt]. *)
Definition list_jobs (store : Store.Query Job.t) (db : Db)
    (query : Job.t -> bool) (page limit : Z)
    : response (list Job.t * Pagination.t) :=
  let skip := ((page - 1) * limit)%Z in
  let matching := filter query (jobs db) in
  match Store.window store (Store.order store matching) skip limit with
  | Js.Thrown _ => Error 500 "Server error"
  | Js.Returned jobs =>
      let total := List.length matching in
      Json 200
        (jobs,
         {| Pagination.page := page; Pagination.limit := limit;
            Pagination.total := total;
            Pagination.pages := Math_ceil_div total limit |})
  end.

End JobRoutes.

Module PostRoutes.

Definition is_public (p : Post.t) : bool := Post.visibility p =? "public".

(** GET /feed. *)
Definition feed (store : Store.Query Post.t) (db : Db) (page limit : Z)
    : response (list Post.t * Pagination.t) :=
  let skip := ((page - 1) * limit)%Z in
  let matching := filter is_public (posts db) in
  match Store.window store (Store.order store matching) skip limit with
  | Js.Thrown _ => Error 500 "Server error"
  | Js.Returned posts =>
      let total := List.length matching in
      Json 200
        (posts,
         {| Pagination.page := page; Pagination.limit := limit;
            Pagination.total := total;
            Pagination.pages := Math_ceil_div total limit |})
  end.

(** The payload of the like response: the message and [likesCount]. *)
Definition LikePayload : Type := (string * nat)%type.

(** POST /:postId/like. *)
Definition like (db : Db) (userId postId : ObjectId)
    : Db * response LikePayload :=
  match Store.Post_findById db postId with
  | None => (db, Error 404 "Post not found")
  | Some post =>
      match Js.indexOf (Post.likes post) userId with
      | Some likeIndex =>
          let likes := Js.splice1 (Post.likes post) likeIndex in
          (Store.Post_save db (Post.with_likes post likes),
           Json 200 ("Post unliked", List.length likes))
      | None =>
          let likes := (Post.likes post ++ [userId])%list in
          let '(db1, _) :=
            NotificationRoutes.createNotification db (Post.author post)
              userId Notification.post_like (Some (Post._id post))
              None None in
          (Store.Post_save db1 (Post.with_likes post likes),
           Json 200 ("Post liked", List.length likes))
      end
  end.

(** The likes the handler stores, from the likes it loaded. *)
Definition toggle (likes : list ObjectId) (userId : ObjectId)
    : list ObjectId :=
  match Js.indexOf likes userId with
  | Some likeIndex => Js.splice1 likes likeIndex
  | None => (likes ++ [userId])%list
  end.

(** The likes of a stored post; the empty list when it is missing. *)
Definition likes_of (db : Db) (postId : ObjectId) : list ObjectId :=
  match Store.Post_findById db postId with
  | Some post => Post.likes post
  | None => []
  end.

End PostRoutes.

(** ** routes/messages: sending a message *)

Module MessageRoutes.

Record Body : Type := {
  receiverId : option string;
  content : option string
}.

Definition text (v : option string) : string :=
  match v with
  | Some s => s
  | None => EmptyString
  end.

(** POST /send.  [userId] is the identifier the authentication put in
    [req.userId]; [receiverId] is a string of the body.
    [User.findById(receiverId)] casts it, and a failed cast is thrown to
    the [catch] block; the self check and the conversation key take the
    string as it came; [new Message] stores the cast receiver. *)
Definition send (db : Db) (userId : ObjectId) (body : Body)
    : Db * response Message.t :=
  if negb (Js.truthy (receiverId body))
     || negb (Js.truthy (content body))
     || negb (Js.truthy (Some (Js.trim (text (content body)))))
  then (db, Error 400 "Receiver and message content are required")
  else
    let receiverId := text (receiverId body) in
    match ObjectId_cast receiverId with
    | None => (db, Error 500 "Server error")
    | Some receiver =>
        match Store.User_findById db receiver with
        | None => (db, Error 404 "Receiver not found")
        | Some _ =>
            if (receiverId =? userId)
            then (db, Error 400 "Cannot send message to yourself")
            else
              let message :=
                {| Message.conversationId :=
                     Message.generateConversationId userId receiverId;
                   Message.sender := userId;
                   Message.receiver := receiver;
                   Message.content := Js.trim (text (content body));
                   Message.read := false |} in
              (Store.Message_save db message, Json 201 message)
        end
    end.

End MessageRoutes.

(** ** The specification's reading of the category thresholds *)

Module Spec.

(** Thresholds on an integer total: at least 90 "Gold Match", at least
    70 "Strong Match", at least 50 "Good Match", else "Partial Match". *)
Definition category (total : nat) : string :=
  if (90 <=? total)%nat then "Gold Match"
  else if (70 <=? total)%nat then "Strong Match"
  else if (50 <=? total)%nat then "Good Match"
  else "Partial Match".

(** [p] is the ceiling of the quotient [total / limit], for a [limit]
    other than zero: [p - 1 < total / limit <= p], with the division
    cleared. *)
Definition is_ceiling (p : Z) (total : nat) (limit : Z) : Prop :=
  ((0 < limit)%Z /\ ((p - 1) * limit < Z.of_nat total <= p * limit)%Z)
  \/ ((limit < 0)%Z /\ (p * limit <= Z.of_nat total < (p - 1) * limit)%Z).

(** The pagination object of a response, whenever there is one, echoes
    the parameters, counts the [count] matching documents, and has for
    [pages] the ceiling of [count / limit]; a [limit] of zero has no
    quotient, and [pages] is then Infinity, or NaN for a count of zero. *)
Definition pages_ok {A : Type} (r : response (list A * Pagination.t))
    (count : nat) (page limit : Z) : Prop :=
  forall status items pagination,
    r = Json status (items, pagination) ->
    Pagination.page pagination = page
    /\ Pagination.limit pagination = limit
    /\ Pagination.total pagination = count
    /\ (limit <> 0%Z ->
        exists p, Pagination.pages pagination = Finite p
                  /\ is_ceiling p count limit)
    /\ (limit = 0%Z ->
        Pagination.pages pagination
        = match count with
          | O => NaN
          | S _ => Infinity
          end).

(** The response is a success, and its item list is empty when the page
    is beyond [pages]. *)
Definition served {A : Type} (r : response (list A * Pagination.t))
    (page : Z) : Prop :=
  exists items pagination,
    r = Json 200 (items, pagination)
    /\ forall p, Pagination.pages pagination = Finite p ->
                 (p < page)%Z -> items = [].

End Spec.

(** ** Sample documents *)

Module Sample.

Definition clock : Clock :=
  {| Date_parse := fun _ => 0%float; Date_now := 0%float |}.

Definition alice : ObjectId := "507f1f77bcf86cd799439011".
Definition bob : ObjectId := "507f191e810c19729de860ea".
Definition carol : ObjectId := "65a1b2c3d4e5f60718293a4b".

Definition candidate : User.t :=
  {| User._id := alice; User.bio := EmptyString;
     User.skills := ["Python"; "React"]; User.location := EmptyString;
     User.experience := []; User.education := [];
     User.connections := [] |}.

Definition posting : Job.t :=
  {| Job._id := "65a1b2c3d4e5f60718293a4c"; Job.location := "Berlin";
     Job.workMode := "remote"; Job.skills := ["python"; "Vue"];
     Job.experienceLevel := "mid"; Job.postedBy := bob;
     Job.status := "active"; Job.paymentVerified := false;
     Job.transactionHash := EmptyString; Job.blockchain := EmptyString |}.

Definition post (likes : list ObjectId) : Post.t :=
  {| Post._id := "65a1b2c3d4e5f60718293a4d"; Post.content := "hello";
     Post.author := carol; Post.likes := likes;
     Post.visibility := "public" |}.

Definition db : Db :=
  {| users := [candidate]; jobs := [posting]; posts := [post []];
     messages := []; notifications := []; payments := [] |}.

Definition db_with_likes (likes : list ObjectId) : Db :=
  with_posts db [post likes].

Definition env : PaymentRoutes.Env :=
  {| PaymentRoutes.PLATFORM_FEE_ETH := PrimFloat.nan;
     PaymentRoutes.ADMIN_WALLET_ETH :=
       Some "0x52908400098527886E0F7030069857D2E4169EE7" |}.

Definition payment_body : PaymentRoutes.Body :=
  {| PaymentRoutes.transactionHash :=
       Some "0x88df016429689c079f3b2f6ad39fa052532c56795b733da78a91ebe6a713944b";
     PaymentRoutes.blockchain := Some "ethereum";
     PaymentRoutes.jobId := Some "65a1b2c3d4e5f60718293a4c";
     PaymentRoutes.fromAddress :=
       Some "0x8617E340B3D01FA5F11F306F4090FD50E238070D" |}.

(** Candidates and postings for the boundaries of the match score:
    skills named so that none contains another, a level of mid, and a
    posting in Berlin. *)
Definition skill_names : list string :=
  ["s01"; "s02"; "s03"; "s04"; "s05"; "s06"; "s07"; "s08"; "s09"; "s10";
   "s11"].

Definition skilled (n : nat) (educated : bool) : User.t :=
  {| User._id := alice; User.bio := EmptyString;
     User.skills := firstn n skill_names; User.location := EmptyString;
     User.experience := [];
     User.education :=
       if educated
       then [{| Education.degree := "BSc";
                Education.institution := "TU Berlin" |}]
       else [];
     User.connections := [] |}.

Definition offer (n : nat) (workMode : string) : Job.t :=
  {| Job._id := "65a1b2c3d4e5f60718293a4c"; Job.location := "Berlin";
     Job.workMode := workMode; Job.skills := firstn n skill_names;
     Job.experienceLevel := "mid"; Job.postedBy := bob;
     Job.status := "active"; Job.paymentVerified := false;
     Job.transactionHash := EmptyString; Job.blockchain := EmptyString |}.

End Sample.

(** ** routes/messages: conversations and read state *)

Module Inbox.

(** The collection keeps the messages in the order they were saved, which
    is the order of their [createdAt] timestamps: sorting by
    [{ createdAt: 1 }] is that order, by [{ createdAt: -1 }] its
    reverse. *)
Definition oldest_first (l : list Message.t) : list Message.t := l.


(** An entry of the conversations map. *)
Record Conversation : Type := {
  conversationId : string;
  otherUser : ObjectId;
  lastMessage : Message.t;
  unreadCount : nat
}.

Definition bump (c : Conversation) : Conversation :=
  {| conversationId := conversationId c; otherUser := otherUser c;
     lastMessage := lastMessage c; unreadCount := S (unreadCount c) |}.


(** The keys of the map, and the sum of its unread counts. *)
Definition keys (map : list Conversation) : list string :=
  List.map conversationId map.









Definition unread (userId : ObjectId) (m : Message.t) : bool :=
  (Message.receiver m =? userId) && negb (Message.read m).

(** GET /unread/count. *)
Definition unread_count (db : Db) (userId : ObjectId) : nat :=
  List.length (filter (unread userId) (messages db)).

Definition mark_read (m : Message.t) : Message.t :=
  {| Message.conversationId := Message.conversationId m;
     Message.sender := Message.sender m;
     Message.receiver := Message.receiver m;
     Message.content := Message.content m;
     Message.read := true |}.

(** [Message.updateMany({ conversationId, receiver, read: false },
    { read: true })]. *)
Definition read_conversation (cid : string) (userId : ObjectId)
    (l : list Message.t) : list Message.t :=
  map (fun m =>
         if (Message.conversationId m =? cid) && unread userId m
         then mark_read m else m) l.

(** The payload of GET /conversation/:userId. *)
Record Thread : Type := {
  thread_id : string;
  thread_user : User.t;
  thread_messages : list Message.t
}.

(** GET /conversation/:userId: the messages are read before they are
    marked, so the response shows them as they were. *)
Definition open_conversation (db : Db) (userId otherUserId : ObjectId)
    : Db * response Thread :=
  match Store.User_findById db otherUserId with
  | None => (db, Error 404 "User not found")
  | Some otherUser =>
      let cid := Message.generateConversationId userId otherUserId in
      let found :=
        oldest_first
          (filter (fun m => Message.conversationId m =? cid) (messages db)) in
      (with_messages db (read_conversation cid userId (messages db)),
       Json 200
         {| thread_id := cid; thread_user := otherUser;
            thread_messages := found |})
  end.

(** The message POST /send stores. *)
Definition new_message (sender receiver : ObjectId) (content : string)
    : Message.t :=
  {| Message.conversationId :=
       Message.generateConversationId sender receiver;
     Message.sender := sender; Message.receiver := receiver;
     Message.content := content; Message.read := false |}.

(** The message POST /send stores for the receiver string [receiverId]
    of the body, cast to [receiver]: the key is made of the string. *)
Definition stored_message (sender : ObjectId) (receiverId : string)
    (receiver : ObjectId) (content : string) : Message.t :=
  {| Message.conversationId :=
       Message.generateConversationId sender receiverId;
     Message.sender := sender; Message.receiver := receiver;
     Message.content := content; Message.read := false |}.

(** Every stored message is between two different users and carries the
    key of its pair. *)
Definition well_formed (db : Db) : Prop :=
  Forall (fun m =>
            Message.sender m <> Message.receiver m
            /\ Message.conversationId m
               = Message.generateConversationId (Message.sender m)
                   (Message.receiver m))
    (messages db).

(** Every participant of a stored message is a user. *)
Definition participants_exist (db : Db) : Prop :=
  Forall (fun m =>
            Store.User_findById db (Message.sender m) <> None
            /\ Store.User_findById db (Message.receiver m) <> None)
    (messages db).

End Inbox.

(** ** routes/notifications: the read state *)

Module NotificationInbox.

Definition unread (userId : ObjectId) (n : Notification.t) : bool :=
  (Notification.recipient n =? userId) && negb (Notification.read n).

(** GET /unread/count: [countDocuments({ recipient, read: false })]. *)
Definition unread_count (db : Db) (userId : ObjectId) : nat :=
  List.length (filter (unread userId) (notifications db)).

Definition mark_read (n : Notification.t) : Notification.t :=
  {| Notification.recipient := Notification.recipient n;
     Notification.sender := Notification.sender n;
     Notification.type := Notification.type n;
     Notification.post := Notification.post n;
     Notification.job := Notification.job n;
     Notification.message := Notification.message n;
     Notification.read := true |}.

(** PUT /mark-all-read:
    [updateMany({ recipient, read: false }, { read: true })]. *)
Definition mark_all_read (db : Db) (userId : ObjectId) : Db * response string :=
  (with_notifications db
     (map (fun n => if unread userId n then mark_read n else n)
        (notifications db)),
   Json 200 "All notifications marked as read").

(** GET /: the page of the user's notifications, and the count of all
    the unread ones.  Mongoose applies [skip] before [limit], whatever
    the order of the two calls. *)
Definition list_notifications (store : Store.Query Notification.t) (db : Db)
    (userId : ObjectId) (limit skip : Z)
    : response (list Notification.t * nat) :=
  match Store.window store
          (Store.order store
             (filter (fun n => Notification.recipient n =? userId)
                (notifications db)))
          skip limit with
  | Js.Thrown _ => Error 500 "Server error"
  | Js.Returned page => Json 200 (page, unread_count db userId)
  end.

End NotificationInbox.

(** ** routes/payments: the Solana route *)

Module SolanaRoutes.

Record Env : Type := {
  PLATFORM_FEE_SOL : float;
  ADMIN_WALLET_SOL : option string
}.

Record Body : Type := {
  transactionSignature : option string;
  jobId : option string;
  fromAddress : option string
}.

(** POST /verify-sol. *)
Definition verify_sol (env : Env) (db : Db) (userId : ObjectId)
    (body : Body) : Db * response Payment.t :=
  if negb (Js.truthy (transactionSignature body))
  then (db, Error 400 "Transaction signature is required")
  else
    let hash := PaymentRoutes.text (transactionSignature body) in
    match Store.Payment_findOne db hash with
    | Some _ => (db, Error 400 "Payment already recorded")
    | None =>
        let payment :=
          {| Payment.user := userId;
             Payment.transactionHash := hash;
             Payment.blockchain := "solana";
             Payment.amount := Js.number_or (PLATFORM_FEE_SOL env) 0.0001;
             Payment.currency := "SOL";
             Payment.fromAddress := fromAddress body;
             Payment.toAddress := ADMIN_WALLET_SOL env;
             Payment.purpose := "job_posting";
             Payment.relatedJobId := jobId body;
             Payment.status := "confirmed" |} in
        match Store.Payment_save db payment with
        | Js.Thrown _ => (db, Error 500 "Failed to verify payment")
        | Js.Returned db' =>
            let db'' :=
              if Js.truthy (jobId body)
              then Store.Job_findByIdAndUpdate db'
                     (PaymentRoutes.text (jobId body)) hash "solana"
              else db' in
            (db'', Json 200 payment)
        end
    end.

End SolanaRoutes.

(** ** routes/posts: deleting a post, and walking the pages *)

Module PostAdmin.

(** The collection without its first document satisfying [p]. *)
Fixpoint remove_first {A : Type} (p : A -> bool) (coll : list A) : list A :=
  match coll with
  | [] => []
  | d :: rest => if p d then rest else d :: remove_first p rest
  end.

Definition owned_by (userId postId : ObjectId) (p : Post.t) : bool :=
  (Post._id p =? postId) && (Post.author p =? userId).

(** DELETE /:postId: [Post.findOneAndDelete({ _id, author })].  The
    query casts the [postId] of the path, and a failed cast is thrown
    to the [catch] block; [userId] is the identifier of the
    authenticated user. *)
Definition delete_post (db : Db) (userId : ObjectId) (postId : string)
    : Db * response string :=
  match ObjectId_cast postId with
  | None => (db, Error 500 "Server error")
  | Some id =>
      match findOne (owned_by userId id) (posts db) with
      | None => (db, Error 404 "Post not found or unauthorized")
      | Some _ =>
          (with_posts db (remove_first (owned_by userId id) (posts db)),
           Json 200 "Post deleted successfully")
      end
  end.

(** The items of a paginated response; none for an error. *)
Definition items_of {A : Type} (r : response (list A * Pagination.t))
    : list A :=
  match r with
  | Json _ (items, _) => items
  | Error _ _ => []
  end.

(** The items of the pages 1 to [n], one after the other. *)
Definition walk {A : Type} (get : Z -> response (list A * Pagination.t))
    (n : nat) : list A :=
  flat_map (fun k => items_of (get (Z.of_nat k))) (seq 1 n).

End PostAdmin.

(** ** routes/ai: suggestions *)

Module AiSuggestions.

(** The tips of the [catch] block. *)
Definition default_tips : list string :=
  ["Complete your profile with more details";
   "Connect with professionals in your industry";
   "Apply to recommended jobs matching your skills"].

(** The query [{ _id: { $ne: userId, $nin: user.connections },
    skills: { $in: user.skills } }]. *)
Definition similar (userId : ObjectId) (user candidate : User.t) : bool :=
  negb (User._id candidate =? userId)
  && negb (existsb (String.eqb (User._id candidate)) (User.connections user))
  && existsb (fun skill => existsb (String.eqb skill) (User.skills user))
       (User.skills candidate).

(** [select('name email profilePicture skills bio')]: the fields that are
    not selected are absent from the document. *)
Definition selected (u : User.t) : User.t :=
  {| User._id := User._id u; User.bio := User.bio u;
     User.skills := User.skills u; User.location := EmptyString;
     User.experience := []; User.education := [];
     User.connections := [] |}.

(** GET /suggestions.  A missing user makes [user.skills] throw.  A
    span that starts with a bracket parses to an array or not at all;
    the last branch stands for the TypeError of [suggestions.slice] on
    any other value. *)
Definition suggestions (JSON_parse : string -> option json)
    (store : Store.Query User.t) (db : Db) (userId : ObjectId)
    (http : Js.outcome string) : response (list json * list User.t) :=
  match Store.User_findById db userId with
  | None => Error 500 "Failed to get suggestions"
  | Some user =>
      match AiRoutes.callOpenRouterAPI http with
      | Js.Thrown _ => Error 500 "Failed to get suggestions"
      | Js.Returned aiResponse =>
          let tips :=
            match Js.match_span "[" "]" aiResponse with
            | Some jsonMatch =>
                match JSON_parse jsonMatch with
                | Some parsed => parsed
                | None => JArray (map JString default_tips)
                end
            | None => JArray []
            end in
          match Store.window store
                  (filter (similar userId user) (users db)) 0 5 with
          | Js.Thrown _ => Error 500 "Failed to get suggestions"
          | Js.Returned similarUsers =>
              match tips with
              | JArray items =>
                  Json 200 (firstn 3 items, map selected similarUsers)
              | _ => Error 500 "Failed to get suggestions"
              end
          end
      end
  end.

(** A skill name that survives the comma and newline split unchanged:
    not empty, trimmed, without quote, bracket, comma or newline. *)
Definition special (c : ascii) : bool :=
  AiRoutes.quote_or_bracket c || AiRoutes.comma_or_newline c.

Definition clean (skill : string) : Prop :=
  skill <> EmptyString /\ Js.trim skill = skill
  /\ Js.some_char special skill = false.

End AiSuggestions.

(** ** routes/users: connections and profile completeness *)

Module UserRoutes.

Definition with_users (db : Db) (l : list User.t) : Db :=
  {| users := l; jobs := jobs db; posts := posts db;
     messages := messages db; notifications := notifications db;
     payments := payments db |}.

Definition with_connections (u : User.t) (l : list ObjectId) : User.t :=
  {| User._id := User._id u; User.bio := User.bio u;
     User.skills := User.skills u; User.location := User.location u;
     User.experience := User.experience u;
     User.education := User.education u; User.connections := l |}.

(** [user.connections.includes(id)]. *)
Definition connected_to (u : User.t) (id : ObjectId) : bool :=
  existsb (String.eqb id) (User.connections u).

(** [$addToSet: { connections: id }]. *)
Definition addToSet (id : ObjectId) (u : User.t) : User.t :=
  if connected_to u id then u
  else with_connections u (User.connections u ++ [id]).

(** [$pull: { connections: id }]: every occurrence is removed. *)
Definition pull (id : ObjectId) (u : User.t) : User.t :=
  with_connections u
    (filter (fun c => negb (c =? id)) (User.connections u)).

(** [User.findByIdAndUpdate(id, update)]; without a user of this
    identifier nothing is written. *)
Definition User_findByIdAndUpdate (db : Db) (id : ObjectId)
    (update : User.t -> User.t) : Db :=
  with_users db (update_first (fun u => User._id u =? id) update (users db)).

(** [user.save()] of a loaded user. *)
Definition User_save (db : Db) (u : User.t) : Db :=
  with_users db
    (update_first (fun v => User._id v =? User._id u) (fun _ => u)
       (users db)).

(** POST /connections/:userId.  [userId] is the identifier of the
    authenticated user, [targetUserId] the string of the path.  The
    self check and [connections.includes] compare this string as it
    came with string forms; [connections.push] casts it, and a failed
    cast is thrown to the [catch] block, as is the [user.connections]
    of a missing requester.  The update of the target is by the cast
    identifier, and the two notifications are created from the
    strings. *)
Definition add_connection (db : Db) (userId : ObjectId)
    (targetUserId : string) : Db * response string :=
  if targetUserId =? userId
  then (db, Error 400 "Cannot connect with yourself")
  else
    match Store.User_findById db userId with
    | None => (db, Error 500 "Server error")
    | Some user =>
        if connected_to user targetUserId
        then (db, Error 400 "Already connected")
        else
          match ObjectId_cast targetUserId with
          | None => (db, Error 500 "Server error")
          | Some target =>
              let db1 :=
                User_save db
                  (with_connections user
                     (User.connections user ++ [target])) in
              let db2 :=
                User_findByIdAndUpdate db1 target (addToSet userId) in
              let db3 :=
                fst (NotificationRoutes.createNotification_cast db2
                       targetUserId userId
                       Notification.connection_accepted None None None) in
              let db4 :=
                fst (NotificationRoutes.createNotification_cast db3
                       userId targetUserId
                       Notification.connection_accepted None None None) in
              (db4, Json 200 "Connection added successfully")
          end
    end.

(** DELETE /connections/:userId.  The first update casts the string of
    the path for its [$pull], and a failed cast is thrown to the
    [catch] block before anything is written. *)
Definition remove_connection (db : Db) (userId : ObjectId)
    (targetUserId : string) : Db * response string :=
  match ObjectId_cast targetUserId with
  | None => (db, Error 500 "Server error")
  | Some target =>
      let db1 := User_findByIdAndUpdate db userId (pull target) in
      let db2 := User_findByIdAndUpdate db1 target (pull userId) in
      (db2, Json 200 "Connection removed successfully")
  end.

(** The state after an accepted request for the cast identifier
    [target]. *)
Definition accepted (db : Db) (userId target : ObjectId)
    (user : User.t) : Db :=
  with_notifications
    (User_findByIdAndUpdate
       (User_save db
          (with_connections user (User.connections user ++ [target])))
       target (addToSet userId))
    (notifications db
     ++ [Notification.new target userId
           Notification.connection_accepted None None None;
         Notification.new userId target
           Notification.connection_accepted None None None]).

(** The connection graph over the stored users: every connection
    between two stored users is held by both, and nobody is connected
    to themselves. *)
Definition mutual (db : Db) : Prop :=
  forall a b ua ub,
    Store.User_findById db a = Some ua ->
    Store.User_findById db b = Some ub ->
    In b (User.connections ua) -> In a (User.connections ub).

Definition no_self_connection (db : Db) : Prop :=
  forall a ua,
    Store.User_findById db a = Some ua -> ~ In a (User.connections ua).

(** [user[field]] is truthy, for a string field. *)
Definition filled (s : string) : bool := negb (s =? EmptyString).

(** [user[field].length > 0], for an array field. *)
Definition nonempty {A : Type} (l : list A) : bool :=
  negb (List.length l =? 0)%nat.

(** The eight fields [calculateProfileCompleteness] looks at, in its
    order: name, email, bio, linkedinUrl, location, skills, experience,
    education.  The three strings that [User.t] does not carry are
    passed beside it. *)
Definition profile_fields (name email linkedinUrl : string) (user : User.t)
    : list bool :=
  [filled name; filled email; filled (User.bio user); filled linkedinUrl;
   filled (User.location user); nonempty (User.skills user);
   nonempty (User.experience user); nonempty (User.education user)].

Definition calculateProfileCompleteness (name email linkedinUrl : string)
    (user : User.t) : float :=
  Js.Math_round
    (fold_left
       (fun (score : float) (present : bool) =>
          if present then (score + 12.5)%float else score)
       (profile_fields name email linkedinUrl user) 0%float).

(** The rounded percentages for zero to eight fields. *)
Definition percentages : list nat := [0; 13; 25; 38; 50; 63; 75; 88; 100]%nat.

End UserRoutes.

(** ** routes/jobs: the owner's operations and the fan-out *)

Module JobAdmin.

Definition owned_by (userId jobId : ObjectId) (j : Job.t) : bool :=
  (Job._id j =? jobId) && (Job.postedBy j =? userId).

Definition with_status (j : Job.t) (s : string) : Job.t :=
  {| Job._id := Job._id j; Job.location := Job.location j;
     Job.workMode := Job.workMode j; Job.skills := Job.skills j;
     Job.experienceLevel := Job.experienceLevel j;
     Job.postedBy := Job.postedBy j; Job.status := s;
     Job.paymentVerified := Job.paymentVerified j;
     Job.transactionHash := Job.transactionHash j;
     Job.blockchain := Job.blockchain j |}.

(** [job.save()] of a loaded job. *)
Definition Job_save (db : Db) (j : Job.t) : Db :=
  with_jobs db
    (update_first (fun q => Job._id q =? Job._id j) (fun _ => j) (jobs db)).

(** PUT /:jobId/close. *)
Definition close (db : Db) (userId jobId : ObjectId)
    : Db * response Job.t :=
  match findOne (owned_by userId jobId) (jobs db) with
  | None => (db, Error 404 "Job not found or unauthorized")
  | Some job =>
      let job := with_status job "closed" in
      (Job_save db job, Json 200 job)
  end.

(** DELETE /:jobId: [Job.findOneAndDelete({ _id, postedBy })]. *)
Definition delete_job (db : Db) (userId jobId : ObjectId)
    : Db * response string :=
  match findOne (owned_by userId jobId) (jobs db) with
  | None => (db, Error 404 "Job not found or unauthorized")
  | Some _ =>
      (with_jobs db
         (PostAdmin.remove_first (owned_by userId jobId) (jobs db)),
       Json 200 "Job deleted successfully")
  end.

(** The query document of GET /: [{ status: 'active' }], to which the
    filters add conditions on other fields. *)
Definition listed (filters : Job.t -> bool) (j : Job.t) : bool :=
  (Job.status j =? "active") && filters j.

(** POST /, after the job is saved: one [createNotification] for each
    connection of the poster, started in the order of the array.
    Nothing is sent when the poster is not found or has no
    connection. *)
Definition notify_connections (db : Db) (userId jobId : ObjectId) : Db :=
  match Store.User_findById db userId with
  | None => db
  | Some poster =>
      fold_left
        (fun db connectionId =>
           fst (NotificationRoutes.createNotification db connectionId
                  userId Notification.job_posted None (Some jobId) None))
        (User.connections poster) db
  end.

(** The notification a connection receives. *)
Definition job_posted (userId jobId connectionId : ObjectId)
    : Notification.t :=
  Notification.new connectionId userId Notification.job_posted
    None (Some jobId) None.

End JobAdmin.

(** ** routes/posts: creation *)

Module PostCreate.

(** The fields of the request body that decide the outcome.  [images]
    and [tags] are arrays of strings, stored as they come. *)
Record Body : Type := {
  content : option string;
  postType : option string;
  visibility : option string
}.

Definition text (v : option string) : string :=
  match v with
  | Some s => s
  | None => EmptyString
  end.

Definition postTypes : list string := ["update"; "article"; "tip"; "question"].
Definition visibilities : list string := ["public"; "connections"; "private"].

(** Schema validation on save: [content] is required and at most 3000
    code units long, and the [enum] fields take a listed value. *)
Definition validate (post : Post.t) (postType : string) : bool :=
  negb (Post.content post =? EmptyString)
  && (String.length (Post.content post) <=? 3000)%nat
  && Payment.one_of postTypes postType
  && Payment.one_of visibilities (Post.visibility post).

(** POST /: [fresh] is the identifier the new document receives.  The
    response carries the post as it is read back by this identifier. *)
Definition create_post (db : Db) (fresh userId : ObjectId) (body : Body)
    : Db * response Post.t :=
  if negb (Js.truthy (content body))
  then (db, Error 400 "Content is required")
  else
    let post :=
      {| Post._id := fresh; Post.content := text (content body);
         Post.author := userId; Post.likes := [];
         Post.visibility :=
           Js.or_default (text (visibility body)) "public" |} in
    if validate post (Js.or_default (text (postType body)) "update")
    then (with_posts db (posts db ++ [post]), Json 201 post)
    else (db, Error 500 "Server error").

End PostCreate.

(** ** More sample documents *)

Module Fixture.

Definition user (id : ObjectId) (connections : list ObjectId) : User.t :=
  {| User._id := id; User.bio := EmptyString; User.skills := ["Rocq"];
     User.location := EmptyString; User.experience := [];
     User.education := []; User.connections := connections |}.

Definition message (sender receiver : ObjectId) (content : string)
    (read : bool) : Message.t :=
  {| Message.conversationId :=
       Message.generateConversationId sender receiver;
     Message.sender := sender; Message.receiver := receiver;
     Message.content := content; Message.read := read |}.

(** Alice, Bob and Carol, and three messages between them. *)
Definition db : Db :=
  {| users := [user Sample.alice []; user Sample.bob []; user Sample.carol []];
     jobs := [Sample.posting];
     posts := [Sample.post [Sample.bob]];
     messages :=
       [message Sample.alice Sample.bob "hello Bob" true;
        message Sample.carol Sample.alice "hello Alice" false;
        message Sample.bob Sample.alice "hello back" false];
     notifications := [];
     payments := [] |}.

Definition sol_env : SolanaRoutes.Env :=
  {| SolanaRoutes.PLATFORM_FEE_SOL := PrimFloat.nan;
     SolanaRoutes.ADMIN_WALLET_SOL :=
       Some "7EcDhSYGxXyscszYEp35KHN8vvw3svAuLKTzXwCFLtV" |}.

(** A Solana request that reuses the hash of [Sample.payment_body]. *)
Definition sol_body : SolanaRoutes.Body :=
  {| SolanaRoutes.transactionSignature :=
       PaymentRoutes.transactionHash Sample.payment_body;
     SolanaRoutes.jobId := None;
     SolanaRoutes.fromAddress :=
       Some "4Nd1mYw1r8oDk3pqcf1kFxG6hVzvMZcW6K8C6yLrR2Zs" |}.


(** A post without a type and without a visibility. *)
Definition post_body : PostCreate.Body :=
  {| PostCreate.content := Some "Hello, network";
     PostCreate.postType := None;
     PostCreate.visibility := None |}.

Definition fresh_post : ObjectId := "65a1b2c3d4e5f60718293a4e".

End Fixture.

(* ================================================================== *)
(** * Part II: properties *)
(* ================================================================== *)

(** ** Strings *)

Section StringFacts.

Lemma append_empty_r (s : string) : s ++ EmptyString = s.
Proof. induction s as [|c s IH]; simpl; [reflexivity | now rewrite IH]. Qed.

Lemma append_assoc (s t u : string) : (s ++ t) ++ u = s ++ (t ++ u).
Proof. induction s as [|c s IH]; simpl; [reflexivity | now rewrite IH]. Qed.

Lemma append_length (s t : string) :
  String.length (s ++ t) = (String.length s + String.length t)%nat.
Proof. induction s as [|c s IH]; simpl; [reflexivity | now rewrite IH]. Qed.

(** Two concatenations with left parts of the same length agree part by
    part. *)
Lemma append_same_length_inj (a c x y : string) :
  String.length a = String.length c ->
  a ++ x = c ++ y -> a = c /\ x = y.
Proof.
  revert c; induction a as [|h a IH]; intros [|k c] Hlen Heq;
    simpl in *; try discriminate.
  - now split.
  - injection Heq as -> Heq. injection Hlen as Hlen.
    destruct (IH c Hlen Heq) as [-> ->]. now split.
Qed.

Lemma append_inj_l (a x y : string) : a ++ x = a ++ y -> x = y.
Proof. intros H. now apply (append_same_length_inj a a x y). Qed.

Lemma append_inj_r (a c x : string) :
  String.length a = String.length c -> a ++ x = c ++ x -> a = c.
Proof. intros Hlen H. now apply (append_same_length_inj a c x x). Qed.

Lemma ltb_irrefl (s : string) : (s <? s) = false.
Proof.
  unfold String.ltb. destruct (String.compare s s) eqn:E; try reflexivity.
  pose proof (String.compare_antisym s s) as H.
  rewrite E in H. discriminate.
Qed.

Lemma ltb_asym (s t : string) : (s <? t) = true -> (t <? s) = false.
Proof.
  unfold String.ltb. rewrite (String.compare_antisym t s).
  destruct (String.compare s t); simpl; congruence.
Qed.

Lemma ltb_connex (s t : string) :
  (s <? t) = false -> (t <? s) = false -> s = t.
Proof.
  unfold String.ltb. rewrite (String.compare_antisym t s).
  destruct (String.compare s t) eqn:E; simpl; try congruence.
  intros _ _. now apply String.compare_eq_iff.
Qed.

(** A string without the separator ends where the separator first
    occurs: the two sides of a key can be read back. *)
Lemma append_separator_inj (sep : ascii) (a c x y : string) :
  ~ Js.contains sep a -> ~ Js.contains sep c ->
  a ++ String sep x = c ++ String sep y -> a = c /\ x = y.
Proof.
  revert c; induction a as [|h a IH]; intros [|k c] Ha Hc Heq; simpl in *.
  - injection Heq as ->. now split.
  - injection Heq as <- _. exfalso. apply Hc. now left.
  - injection Heq as -> _. exfalso. apply Ha. now left.
  - injection Heq as -> Heq.
    destruct (IH c) as [-> ->]; auto.
Qed.

End StringFacts.

(** ** Conversation keys *)

Module MessageFacts.

Import Message.

(** The key, with the sort of the two-element array unfolded. *)
Lemma generateConversationId_unfold (a b : ObjectId) :
  generateConversationId a b
  = if (b <? a) then b ++ "_" ++ a else a ++ "_" ++ b.
Proof.
  unfold generateConversationId, Js.sort; simpl.
  destruct (b <? a); reflexivity.
Qed.

(** The key does not depend on the order of the two identifiers. *)
Lemma generateConversationId_sym (a b : ObjectId) :
  generateConversationId a b = generateConversationId b a.
Proof.
  rewrite !generateConversationId_unfold.
  destruct (b <? a) eqn:Hba, (a <? b) eqn:Hab; try reflexivity.
  - rewrite (ltb_asym _ _ Hba) in Hab. discriminate.
  - now rewrite (ltb_connex _ _ Hab Hba).
Qed.

(** Identifiers of one length: the partner can be read back from the
    key. *)
Lemma generateConversationId_inj_same_length (a b c : ObjectId) :
  String.length a = String.length b ->
  String.length a = String.length c ->
  generateConversationId a b = generateConversationId a c -> b = c.
Proof.
  intros Hab Hac. rewrite !generateConversationId_unfold.
  destruct (b <? a) eqn:Hb, (c <? a) eqn:Hc; intros Heq.
  - apply append_same_length_inj in Heq; [tauto | congruence].
  - apply append_same_length_inj in Heq; [| congruence].
    destruct Heq as [-> _]. rewrite ltb_irrefl in Hb. discriminate.
  - apply append_same_length_inj in Heq; [| congruence].
    destruct Heq as [<- _]. rewrite ltb_irrefl in Hc. discriminate.
  - apply append_inj_l in Heq. now injection Heq.
Qed.

(** Identifiers that do not contain the separator: the key determines
    the unordered pair, whatever the lengths. *)
Lemma generateConversationId_injective (a b c d : ObjectId) :
  ~ Js.contains "_" a -> ~ Js.contains "_" b ->
  ~ Js.contains "_" c -> ~ Js.contains "_" d ->
  generateConversationId a b = generateConversationId c d ->
  (a = c /\ b = d) \/ (a = d /\ b = c).
Proof.
  intros Ha Hb Hc Hd. rewrite !generateConversationId_unfold.
  destruct (b <? a), (d <? c); intros Heq;
    apply append_separator_inj in Heq; tauto.
Qed.

(** Without that condition two different partners can share a key. *)
Lemma generateConversationId_collision :
  generateConversationId "A__A" "_A" = generateConversationId "A__A" "A_"
  /\ "_A" <> "A_".
Proof. split; [reflexivity | discriminate]. Qed.

Lemma is_ObjectId_length (s : string) :
  is_ObjectId s = true -> String.length s = 24%nat.
Proof.
  unfold is_ObjectId. intros H. apply andb_true_iff in H.
  now apply Nat.eqb_eq.
Qed.

(** C1: the conversation key of two user identifiers is the same in
    both argument orders, and one user's conversations with two
    different partners have different keys. *)
Theorem generateConversationId_canonical (a b c : ObjectId) :
  is_ObjectId a = true -> is_ObjectId b = true -> is_ObjectId c = true ->
  generateConversationId a b = generateConversationId b a
  /\ (b <> c -> generateConversationId a b <> generateConversationId a c).
Proof.
  intros Ha Hb Hc. split.
  - apply generateConversationId_sym.
  - intros Hne Heq. apply Hne.
    apply (generateConversationId_inj_same_length a b c);
      rewrite ?(is_ObjectId_length _ Ha), ?(is_ObjectId_length _ Hb),
        ?(is_ObjectId_length _ Hc); auto.
Qed.

Lemma generateConversationId_canonical_witness :
  generateConversationId "507f1f77bcf86cd799439011" "507f191e810c19729de860ea"
  = generateConversationId "507f191e810c19729de860ea" "507f1f77bcf86cd799439011"
  /\ generateConversationId "507f1f77bcf86cd799439011" "507f191e810c19729de860ea"
     <> generateConversationId "507f1f77bcf86cd799439011" "65a1b2c3d4e5f60718293a4b".
Proof.
  destruct (generateConversationId_canonical
              "507f1f77bcf86cd799439011" "507f191e810c19729de860ea"
              "65a1b2c3d4e5f60718293a4b" eq_refl eq_refl eq_refl)
    as [Hsym Hinj].
  split; [exact Hsym | apply Hinj; discriminate].
Defined.

End MessageFacts.

(** ** Notifications *)

Module NotificationFacts.

Import NotificationRoutes.

Lemma createNotification_self db x type post job message :
  createNotification db x x type post job message = (db, None).
Proof. unfold createNotification. now rewrite String.eqb_refl. Qed.

Lemma createNotification_other db recipient sender type post job message :
  recipient <> sender ->
  createNotification db recipient sender type post job message
  = (Store.Notification_save db
       (Notification.new recipient sender type post job message),
     Some (Notification.new recipient sender type post job message)).
Proof.
  intros Hne. unfold createNotification.
  apply String.eqb_neq in Hne. now rewrite Hne.
Qed.

(** The helper touches no collection but the notifications. *)
Lemma createNotification_frame db recipient sender type post job message :
  let db' :=
    fst (createNotification db recipient sender type post job message) in
  users db' = users db /\ jobs db' = jobs db /\ posts db' = posts db
  /\ messages db' = messages db /\ payments db' = payments db.
Proof.
  unfold createNotification.
  destruct (recipient =? sender); simpl; repeat split.
Qed.

(** On identifiers in their string form the casts change nothing, and
    the helper on strings is the helper on identifiers. *)
Lemma createNotification_cast_stored db recipient sender type post job
    message :
  ObjectId_cast recipient = Some recipient ->
  ObjectId_cast sender = Some sender ->
  cast_reference post = Some post ->
  cast_reference job = Some job ->
  createNotification_cast db recipient sender type post job message
  = createNotification db recipient sender type post job message.
Proof.
  intros Hr Hs Hp Hj. unfold createNotification_cast, createNotification.
  now rewrite Hr, Hs, Hp, Hj.
Qed.

Lemma createNotification_cast_frame db recipient sender type post job
    message :
  let db' :=
    fst (createNotification_cast db recipient sender type post job message) in
  users db' = users db /\ jobs db' = jobs db /\ posts db' = posts db
  /\ messages db' = messages db /\ payments db' = payments db.
Proof.
  unfold createNotification_cast.
  destruct (recipient =? sender); [simpl; repeat split |].
  destruct (ObjectId_cast recipient), (ObjectId_cast sender),
    (cast_reference post), (cast_reference job); simpl; repeat split.
Qed.




(** The comparison is on the string forms as they come: the same
    identifier in two spellings is not suppressed, and the record
    stored has its sender for recipient. *)
Lemma createNotification_respelled :
  exists n,
    createNotification_cast empty_db "507F1F77BCF86CD799439011"
      Sample.alice Notification.connection_accepted None None None
    = (with_notifications empty_db [n], Some n)
    /\ Notification.recipient n = Sample.alice
    /\ Notification.sender n = Sample.alice.
Proof. eexists. split; [vm_compute; reflexivity | split; reflexivity]. Qed.

End NotificationFacts.

(** ** String methods *)

Section JsStringFacts.

Lemma prefix_spec (p s : string) :
  String.prefix p s = true <-> exists rest, s = p ++ rest.
Proof.
  revert s; induction p as [|c p IH]; intros s; simpl.
  - destruct s; split; eauto.
  - destruct s as [|d s]; simpl.
    + split; [discriminate | intros [rest H]; discriminate].
    + destruct (ascii_dec c d) as [<-|Hne].
      * rewrite IH. split; intros [rest H]; exists rest.
        -- now rewrite H.
        -- now injection H.
      * split; [discriminate |].
        intros [rest H]. injection H as H _. congruence.
Qed.

(** [includes] decides occurrence. *)
Lemma includes_spec (s sub : string) :
  Js.includes s sub = true <-> Js.occurs_in sub s.
Proof.
  unfold Js.occurs_in. induction s as [|c s IH].
  - cbn [Js.includes]. rewrite orb_false_r, prefix_spec. split.
    + intros [rest H]. exists EmptyString, rest. exact H.
    + intros (before & after & H). destruct before; simpl in H.
      * now exists after.
      * discriminate.
  - cbn [Js.includes]. rewrite orb_true_iff, prefix_spec, IH. split.
    + intros [[rest H] | (before & after & H)].
      * exists EmptyString, rest. exact H.
      * exists (String c before), after. simpl. now rewrite H.
    + intros (before & after & H). destruct before as [|d before].
      * left. now exists after.
      * right. simpl in H. injection H as _ H. now exists before, after.
Qed.

Lemma trimStart_empty (s : string) :
  Js.trimStart s = EmptyString <-> Js.some_char Js.not_whitespace s = false.
Proof.
  induction s as [|c s IH]; simpl; [tauto |].
  unfold Js.not_whitespace at 1.
  destruct (Js.is_whitespace c); simpl; [exact IH |].
  split; discriminate.
Qed.

Lemma trimEnd_empty (s : string) :
  Js.trimEnd s = EmptyString <-> Js.some_char Js.not_whitespace s = false.
Proof.
  induction s as [|c s IH]; simpl; [tauto |].
  unfold Js.not_whitespace at 1.
  destruct (Js.trimEnd s) eqn:E.
  - destruct (Js.is_whitespace c); simpl.
    + tauto.
    + split; discriminate.
  - rewrite orb_false_iff. split; [discriminate |].
    intros [_ H]. apply IH in H. discriminate.
Qed.

Lemma some_char_trimStart (p : ascii -> bool) (s : string) :
  (forall c, p c = true -> Js.is_whitespace c = false) ->
  Js.some_char p (Js.trimStart s) = Js.some_char p s.
Proof.
  intros Hp. induction s as [|c s IH]; simpl; [reflexivity |].
  destruct (Js.is_whitespace c) eqn:E; [| reflexivity].
  rewrite IH. destruct (p c) eqn:Ec; [| reflexivity].
  apply Hp in Ec. congruence.
Qed.

(** A string trims to nothing exactly when it is all whitespace. *)
Lemma trim_empty (s : string) :
  Js.trim s = EmptyString <-> Js.some_char Js.not_whitespace s = false.
Proof.
  unfold Js.trim. rewrite trimEnd_empty, some_char_trimStart; [tauto |].
  intros c H. unfold Js.not_whitespace in H. now destruct (Js.is_whitespace c).
Qed.

Lemma trimEnd_cons (c : ascii) (s : string) :
  Js.trimEnd (String c s)
  = match Js.trimEnd s with
    | EmptyString =>
        if Js.is_whitespace c then EmptyString else String c EmptyString
    | r => String c r
    end.
Proof. reflexivity. Qed.

Lemma trimEnd_idempotent (s : string) :
  Js.trimEnd (Js.trimEnd s) = Js.trimEnd s.
Proof.
  induction s as [|c s IH]; [reflexivity |].
  rewrite (trimEnd_cons c s).
  destruct (Js.trimEnd s) as [|d r] eqn:E.
  - destruct (Js.is_whitespace c) eqn:Ec; simpl; [reflexivity |].
    now rewrite Ec.
  - rewrite trimEnd_cons, IH. reflexivity.
Qed.

(** [trimEnd] keeps a first code unit that is not whitespace. *)
Lemma trimEnd_head (c : ascii) (s : string) :
  Js.is_whitespace c = false ->
  exists r, Js.trimEnd (String c s) = String c r.
Proof.
  intros Hc. simpl. destruct (Js.trimEnd s); rewrite ?Hc; eauto.
Qed.

Lemma trimStart_fixed (s : string) :
  Js.trimStart (Js.trimEnd (Js.trimStart s)) = Js.trimEnd (Js.trimStart s).
Proof.
  induction s as [|c s IH]; [reflexivity |].
  cbn [Js.trimStart]. destruct (Js.is_whitespace c) eqn:Ec; [exact IH |].
  destruct (trimEnd_head c s Ec) as [r ->]. simpl. now rewrite Ec.
Qed.

(** Trimming a trimmed string changes nothing. *)
Lemma trim_idempotent (s : string) : Js.trim (Js.trim s) = Js.trim s.
Proof.
  unfold Js.trim. rewrite trimStart_fixed. apply trimEnd_idempotent.
Qed.

Lemma some_char_remove_class (p cls : ascii -> bool) (s : string) :
  Js.some_char p (Js.remove_class cls s)
  = Js.some_char (fun c => negb (cls c) && p c) s.
Proof.
  induction s as [|c s IH]; simpl; [reflexivity |].
  destruct (cls c); simpl; now rewrite IH.
Qed.

Lemma some_char_split_class (p cls : ascii -> bool) (s : string) :
  existsb (Js.some_char p) (Js.split_class cls s)
  = Js.some_char (fun c => negb (cls c) && p c) s.
Proof.
  induction s as [|c s IH]; simpl; [reflexivity |].
  destruct (cls c); simpl; [exact IH |].
  rewrite <- IH. destruct (Js.split_class cls s); simpl.
  - now rewrite orb_false_r.
  - now rewrite orb_assoc.
Qed.

Lemma from_first_spec (c : ascii) (s rest : string) :
  Js.from_first c s = Some rest ->
  exists before tail, s = before ++ rest /\ rest = String c tail.
Proof.
  revert rest; induction s as [|d s IH]; intros rest; simpl; [discriminate |].
  destruct (Ascii.eqb_spec d c) as [->|Hne].
  - intros [= <-]. now exists EmptyString, s.
  - intros H. destruct (IH _ H) as (before & tail & -> & ->).
    now exists (String d before), tail.
Qed.

Lemma upto_last_spec (c : ascii) (s span : string) :
  Js.upto_last c s = Some span ->
  exists after, s = span ++ after.
Proof.
  revert span; induction s as [|d s IH]; intros span; simpl; [discriminate |].
  destruct (Js.upto_last c s) as [r|].
  - intros [= <-]. destruct (IH r eq_refl) as [after ->].
    now exists after.
  - destruct (Ascii.eqb d c); [| discriminate].
    intros [= <-]. now exists s.
Qed.

Lemma upto_last_head (c d : ascii) (s span : string) :
  Js.upto_last c (String d s) = Some span ->
  exists tail, span = String d tail.
Proof.
  simpl. destruct (Js.upto_last c s) as [r|].
  - intros [= <-]. eauto.
  - destruct (Ascii.eqb d c); [| discriminate]. intros [= <-]. eauto.
Qed.

(** A matched span is a part of the text and starts with the opening
    delimiter. *)
Lemma match_span_spec (o c : ascii) (s span : string) :
  Js.match_span o c s = Some span ->
  (exists before after, s = before ++ span ++ after)
  /\ exists tail, span = String o tail.
Proof.
  unfold Js.match_span. destruct (Js.from_first o s) as [rest|] eqn:E;
    [| discriminate].
  intros H. destruct (from_first_spec _ _ _ E) as (before & tail & -> & ->).
  split.
  - destruct (upto_last_spec _ _ _ H) as [after ->]. now exists before, after.
  - exact (upto_last_head _ _ _ _ H).
Qed.

End JsStringFacts.

(** ** Skill extraction *)

Module ExtractSkillsFacts.

Import AiRoutes.

Lemma filter_nil_existsb {A : Type} (f : A -> bool) (l : list A) :
  filter f l = [] <-> existsb f l = false.
Proof.
  induction l as [|x l IH]; simpl; [tauto |].
  destruct (f x); simpl; [| exact IH]. split; discriminate.
Qed.

Lemma trim_nonempty (s : string) :
  negb (Js.trim s =? EmptyString) = Js.some_char Js.not_whitespace s.
Proof.
  destruct (Js.some_char Js.not_whitespace s) eqn:E.
  - apply negb_true_iff, String.eqb_neq. intros H.
    apply trim_empty in H. congruence.
  - apply negb_false_iff, String.eqb_eq. now apply trim_empty.
Qed.

Lemma existsb_trim_nonempty (pieces : list string) :
  existsb (fun s => negb (s =? EmptyString)) (map Js.trim pieces)
  = existsb (Js.some_char Js.not_whitespace) pieces.
Proof.
  induction pieces as [|p l IH]; simpl; [reflexivity |].
  now rewrite trim_nonempty, IH.
Qed.

(** The fallback list is empty exactly when the completion holds
    nothing but quotes, brackets, separators and whitespace. *)
Lemma split_skills_nonempty (aiResponse : string) :
  split_skills aiResponse <> []
  <-> Js.some_char is_skill_char aiResponse = true.
Proof.
  unfold split_skills.
  rewrite filter_nil_existsb, existsb_trim_nonempty,
    some_char_split_class, some_char_remove_class.
  change (fun c : ascii =>
            negb (quote_or_bracket c)
            && (negb (comma_or_newline c) && Js.not_whitespace c))
    with is_skill_char.
  destruct (Js.some_char is_skill_char aiResponse); split; congruence.
Qed.

(** Every entry of the fallback list is trimmed and not empty. *)
Lemma split_skills_entries (aiResponse : string) :
  Forall (fun s => s <> EmptyString /\ Js.trim s = s)
    (split_skills aiResponse).
Proof.
  apply Forall_forall. intros s Hin. unfold split_skills in Hin.
  apply filter_In in Hin. destruct Hin as [Hin Hne].
  apply in_map_iff in Hin. destruct Hin as (piece & <- & _). split.
  - now apply String.eqb_neq, negb_true_iff.
  - apply trim_idempotent.
Qed.

(** A completion without a JSON array takes the fallback, through the
    [else] branch or through the [catch] block. *)
Lemma extract_skills_fallback JSON_parse text aiResponse :
  bracket_means_array JSON_parse ->
  Js.truthy text = true ->
  ~ contains_json_array JSON_parse aiResponse ->
  extract_skills JSON_parse text (Js.Returned aiResponse)
  = Json 200 (firstn 20 (map JString (split_skills aiResponse))).
Proof.
  intros Hgrammar Htext Hno. unfold extract_skills.
  rewrite Htext. simpl.
  destruct (Js.match_span "[" "]" aiResponse) as [span|] eqn:Hspan;
    [| reflexivity].
  destruct (JSON_parse span) as [value|] eqn:Hparse; [| reflexivity].
  exfalso. apply Hno.
  destruct (match_span_spec _ _ _ _ Hspan)
    as [(before & after & Htext') (tail & ->)].
  destruct (Hgrammar _ _ Hparse) as [items ->].
  now exists before, (String "[" tail), after, items.
Qed.

(** C7: for a completion without a JSON array the handler answers 200
    with the first 20 entries of the comma and newline split (quotes
    and brackets removed, each entry trimmed and not empty); the list
    is non-empty exactly when the completion has a code unit that is
    none of quote, bracket, comma, newline and whitespace. *)
Theorem extract_skills_no_array JSON_parse text aiResponse :
  bracket_means_array JSON_parse ->
  Js.truthy text = true ->
  ~ contains_json_array JSON_parse aiResponse ->
  extract_skills JSON_parse text (Js.Returned aiResponse)
  = Json 200 (firstn 20 (map JString (split_skills aiResponse)))
  /\ Forall (fun s => s <> EmptyString /\ Js.trim s = s)
       (split_skills aiResponse)
  /\ (split_skills aiResponse <> []
      <-> Js.some_char is_skill_char aiResponse = true).
Proof.
  intros Hgrammar Htext Hno. split; [| split].
  - now apply extract_skills_fallback.
  - apply split_skills_entries.
  - apply split_skills_nonempty.
Qed.

Lemma extract_skills_no_array_witness :
  extract_skills (fun _ => None) (Some "I write Python and React")
    (Js.Returned "Python, React")
  = Json 200 [JString "Python"; JString "React"].
Proof.
  refine (proj1 (extract_skills_no_array (fun _ => None)
                   (Some "I write Python and React") "Python, React"
                   _ eq_refl _)).
  - intros s value H. discriminate.
  - intros (before & span & after & items & _ & H). discriminate.
Defined.

(** The claim asks for a non-empty list; an empty completion, which
    holds no JSON array, yields the empty list. *)
Lemma extract_skills_empty_list :
  ~ contains_json_array (fun _ => None) EmptyString
  /\ extract_skills (fun _ => None) (Some "I write Python and React")
       (Js.Returned EmptyString)
     = Json 200 [].
Proof.
  split; [| reflexivity].
  intros (before & span & after & items & _ & H). discriminate.
Qed.

End ExtractSkillsFacts.

(** ** Job matching *)

Module JobMatchFacts.

Import AiRoutes.

(** A skill is counted when some job skill contains it or is contained
    in it, ignoring case. *)
Lemma skill_matches_spec (skill jobSkill : string) :
  skill_matches skill jobSkill = true
  <-> Js.occurs_in (Js.toLowerCase skill) (Js.toLowerCase jobSkill)
      \/ Js.occurs_in (Js.toLowerCase jobSkill) (Js.toLowerCase skill).
Proof.
  unfold skill_matches. now rewrite orb_true_iff, !includes_spec.
Qed.

Lemma skillMatches_spec (userSkills jobSkills : list string) (skill : string) :
  In skill (skillMatches userSkills jobSkills)
  <-> In skill userSkills
      /\ exists jobSkill,
           In jobSkill jobSkills
           /\ (Js.occurs_in (Js.toLowerCase skill) (Js.toLowerCase jobSkill)
               \/ Js.occurs_in (Js.toLowerCase jobSkill)
                    (Js.toLowerCase skill)).
Proof.
  unfold skillMatches. rewrite filter_In, existsb_exists.
  split; intros [Hin (jobSkill & Hjob & H)]; split; auto;
    exists jobSkill; split; auto; now apply skill_matches_spec.
Qed.

(** The score is the rounded sum of the four parts. *)
Lemma fallback_score (user : User.t) (job : Job.t) (years : float) :
  matchScore (fallback user job years)
  = Js.Math_round
      (Js.of_nat
         (List.length (skillMatches (User.skills user) (Job.skills job)))
       / Js.of_nat (Nat.max (List.length (Job.skills job)) 1) * 40
       + expScore (Job.experienceLevel job) years
       + locationScore (Js.or_default (User.location user) "Not specified")
           job
       + educationScore (User.education user))%float.
Proof. reflexivity. Qed.

Lemma fallback_category (user : User.t) (job : Job.t) (years : float) :
  matchCategory (fallback user job years)
  = category (matchScore (fallback user job years)).
Proof. reflexivity. Qed.

(** C3: when the provider's text has a brace span that is not JSON, the
    response carries the fallback's result; when the provider call
    fails, the response is the 500 error of the handler. *)
Theorem job_match_fallback JSON_parse clock db userId jobId user job :
  jobId <> EmptyString ->
  Store.Job_findById db jobId = Some job ->
  Store.User_findById db userId = Some user ->
  (forall aiResponse jsonMatch,
      Js.match_span "{" "}" aiResponse = Some jsonMatch ->
      JSON_parse jsonMatch = None ->
      job_match JSON_parse clock db userId (Some jobId)
        (Js.Returned aiResponse)
      = Json 200
          (Heuristic
             (fallback user job
                (totalYearsExperience clock (User.experience user)))))
  /\ (forall cause,
        job_match JSON_parse clock db userId (Some jobId) (Js.Thrown cause)
        = Error 500 "Failed to analyze job match").
Proof.
  intros Hid Hjob Huser. unfold job_match.
  destruct jobId as [|c id]; [congruence |].
  rewrite Hjob, Huser. split.
  - intros aiResponse jsonMatch Hspan Hparse. simpl.
    now rewrite Hspan, Hparse.
  - reflexivity.
Qed.

(** The other two outcomes of a completed provider call: the parsed
    value is passed on, and a text without a brace span leaves the
    initial empty object. *)
Lemma job_match_parsed JSON_parse clock db userId jobId user job
    aiResponse jsonMatch parsed :
  jobId <> EmptyString ->
  Store.Job_findById db jobId = Some job ->
  Store.User_findById db userId = Some user ->
  Js.match_span "{" "}" aiResponse = Some jsonMatch ->
  JSON_parse jsonMatch = Some parsed ->
  job_match JSON_parse clock db userId (Some jobId) (Js.Returned aiResponse)
  = Json 200 (Parsed parsed).
Proof.
  intros Hid Hjob Huser Hspan Hparse. unfold job_match.
  destruct jobId as [|c id]; [congruence |].
  rewrite Hjob, Huser. simpl. now rewrite Hspan, Hparse.
Qed.

Lemma job_match_no_span JSON_parse clock db userId jobId user job aiResponse :
  jobId <> EmptyString ->
  Store.Job_findById db jobId = Some job ->
  Store.User_findById db userId = Some user ->
  Js.match_span "{" "}" aiResponse = None ->
  job_match JSON_parse clock db userId (Some jobId) (Js.Returned aiResponse)
  = Json 200 EmptyObject.
Proof.
  intros Hid Hjob Huser Hspan. unfold job_match.
  destruct jobId as [|c id]; [congruence |].
  rewrite Hjob, Huser. simpl. now rewrite Hspan.
Qed.

Lemma job_match_fallback_witness :
  job_match (fun _ => None) Sample.clock Sample.db Sample.alice
    (Some "65a1b2c3d4e5f60718293a4c") (Js.Returned "{ matchScore: high }")
  = Json 200 (Heuristic (fallback Sample.candidate Sample.posting 0%float)).
Proof.
  refine (proj1 (job_match_fallback (fun _ => None) Sample.clock Sample.db
                   Sample.alice "65a1b2c3d4e5f60718293a4c"
                   Sample.candidate Sample.posting _ eq_refl eq_refl)
            "{ matchScore: high }" "{ matchScore: high }" eq_refl eq_refl).
  discriminate.
Defined.

(** The claim promises the fallback in three cases.  It is not produced
    when the provider call fails (the response is an error) nor when
    the text has no brace span (the response carries an empty
    object). *)
Lemma job_match_no_fallback :
  job_match (fun _ => None) Sample.clock Sample.db Sample.alice
    (Some "65a1b2c3d4e5f60718293a4c") (Js.Thrown "ECONNREFUSED")
  = Error 500 "Failed to analyze job match"
  /\ job_match (fun _ => None) Sample.clock Sample.db Sample.alice
       (Some "65a1b2c3d4e5f60718293a4c")
       (Js.Returned "I cannot score this candidate.")
     = Json 200 EmptyObject.
Proof. split; reflexivity. Qed.

(** C4: a candidate skill counts when it contains or is contained in a
    job skill, ignoring case; the score is the rounded sum of
    [matched / max (job skills, 1) * 40] and the experience, location
    and education scores; for skills Python and React against python
    and Vue, level mid, 3 years, remote, no education, the parts are
    20, 30, 15 and 5, the score is 70 and the category is
    "Strong Match". *)
Theorem fallback_heuristic :
  (forall userSkills jobSkills skill,
      In skill (skillMatches userSkills jobSkills)
      <-> In skill userSkills
          /\ exists jobSkill,
               In jobSkill jobSkills
               /\ (Js.occurs_in (Js.toLowerCase skill)
                     (Js.toLowerCase jobSkill)
                   \/ Js.occurs_in (Js.toLowerCase jobSkill)
                        (Js.toLowerCase skill)))
  /\ (forall user job years,
        matchScore (fallback user job years)
        = Js.Math_round
            (Js.of_nat
               (List.length
                  (skillMatches (User.skills user) (Job.skills job)))
             / Js.of_nat (Nat.max (List.length (Job.skills job)) 1) * 40
             + expScore (Job.experienceLevel job) years
             + locationScore
                 (Js.or_default (User.location user) "Not specified") job
             + educationScore (User.education user))%float)
  /\ (forall user job,
        User.skills user = ["Python"; "React"] ->
        Job.skills job = ["python"; "Vue"] ->
        Job.experienceLevel job = "mid" ->
        Job.workMode job = "remote" ->
        User.education user = [] ->
        skillScore (User.skills user) (Job.skills job) = 20%float
        /\ expScore (Job.experienceLevel job) 3 = 30%float
        /\ locationScore
             (Js.or_default (User.location user) "Not specified") job
           = 15%float
        /\ educationScore (User.education user) = 5%float
        /\ matchScore (fallback user job 3) = 70%float
        /\ matchCategory (fallback user job 3) = "Strong Match").
Proof.
  split; [exact skillMatches_spec | split; [exact fallback_score |]].
  intros user job Hskills Hjob Hlevel Hmode Hedu.
  assert (Hloc : locationScore
                   (Js.or_default (User.location user) "Not specified") job
                 = 15%float).
  { unfold locationScore. now rewrite Hmode. }
  rewrite fallback_category, fallback_score, Hloc.
  rewrite Hskills, Hjob, Hlevel, Hedu.
  repeat split; vm_compute; reflexivity.
Qed.

Lemma fallback_heuristic_witness :
  matchScore (fallback Sample.candidate Sample.posting 3) = 70%float
  /\ matchCategory (fallback Sample.candidate Sample.posting 3)
     = "Strong Match".
Proof.
  destruct fallback_heuristic as (_ & _ & H).
  destruct (H Sample.candidate Sample.posting
              eq_refl eq_refl eq_refl eq_refl eq_refl)
    as (_ & _ & _ & _ & Hscore & Hcategory).
  split; assumption.
Defined.

(** The thresholds of [category] at the six boundary values. *)
Lemma category_values :
  category 90 = "Gold Match"
  /\ category 89 = "Strong Match"
  /\ category 70 = "Strong Match"
  /\ category 69 = "Good Match"
  /\ category 50 = "Good Match"
  /\ category 49 = "Partial Match".
Proof. repeat split; vm_compute; reflexivity. Qed.

(** On every integer total up to 200 the source's comparisons on
    doubles agree with the thresholds of the specification. *)
Lemma category_thresholds (total : nat) :
  (total <= 200)%nat -> category (Js.of_nat total) = Spec.category total.
Proof.
  intros Hle.
  assert (Hall : forallb
                   (fun n => category (Js.of_nat n) =? Spec.category n)
                   (seq 0 201) = true) by (vm_compute; reflexivity).
  rewrite forallb_forall in Hall.
  apply String.eqb_eq, Hall, in_seq. lia.
Qed.

(** C5: the category of the fallback result is determined from its
    score, which is the rounded total of the four parts, with inclusive
    lower bounds: a fallback result whose score is 90 has the category
    "Gold Match", 89 and 70 "Strong Match", 69 and 50 "Good Match", 49
    "Partial Match"; on every integer score up to 200 the category is
    the one of the thresholds 90, 70 and 50. *)
Theorem category_boundaries user job years :
  let result := fallback user job years in
  matchScore result
  = Js.Math_round
      (skillScore (User.skills user) (Job.skills job)
       + expScore (Job.experienceLevel job) years
       + locationScore (Js.or_default (User.location user) "Not specified")
           job
       + educationScore (User.education user))%float
  /\ matchCategory result = category (matchScore result)
  /\ (matchScore result = 90%float -> matchCategory result = "Gold Match")
  /\ (matchScore result = 89%float -> matchCategory result = "Strong Match")
  /\ (matchScore result = 70%float -> matchCategory result = "Strong Match")
  /\ (matchScore result = 69%float -> matchCategory result = "Good Match")
  /\ (matchScore result = 50%float -> matchCategory result = "Good Match")
  /\ (matchScore result = 49%float -> matchCategory result = "Partial Match")
  /\ (forall total,
         (total <= 200)%nat ->
         matchScore result = Js.of_nat total ->
         matchCategory result = Spec.category total).
Proof.
  intros result. subst result.
  split; [reflexivity |]. split; [apply fallback_category |].
  rewrite fallback_category.
  destruct category_values as (H90 & H89 & H70 & H69 & H50 & H49).
  repeat split; try (intros ->; assumption).
  intros total Hle ->. now apply category_thresholds.
Qed.

(** Every boundary is reached by a fallback result: with 3 years on a
    level of mid, 1 of 1 skill, remote and no education score 90; 8 of
    11 skills, remote and an education 89; the sample of C4 scores 70;
    2 of 9 skills, remote and an education 69; no skills, remote and no
    education 50; 2 of 9 skills, on site and no education 49. *)
Lemma category_boundaries_witness :
  matchCategory (fallback (Sample.skilled 1 false) (Sample.offer 1 "remote") 3)
  = "Gold Match"
  /\ matchCategory
       (fallback (Sample.skilled 8 true) (Sample.offer 11 "remote") 3)
     = "Strong Match"
  /\ matchCategory (fallback Sample.candidate Sample.posting 3)
     = "Strong Match"
  /\ matchCategory
       (fallback (Sample.skilled 2 true) (Sample.offer 9 "remote") 3)
     = "Good Match"
  /\ matchCategory
       (fallback (Sample.skilled 0 false) (Sample.offer 0 "remote") 3)
     = "Good Match"
  /\ matchCategory
       (fallback (Sample.skilled 2 false) (Sample.offer 9 "onsite") 3)
     = "Partial Match".
Proof.
  destruct (category_boundaries (Sample.skilled 1 false)
              (Sample.offer 1 "remote") 3) as (_ & _ & H90 & _).
  destruct (category_boundaries (Sample.skilled 8 true)
              (Sample.offer 11 "remote") 3) as (_ & _ & _ & H89 & _).
  destruct (category_boundaries Sample.candidate Sample.posting 3)
    as (_ & _ & _ & _ & H70 & _).
  destruct (category_boundaries (Sample.skilled 2 true)
              (Sample.offer 9 "remote") 3) as (_ & _ & _ & _ & _ & H69 & _).
  destruct (category_boundaries (Sample.skilled 0 false)
              (Sample.offer 0 "remote") 3)
    as (_ & _ & _ & _ & _ & _ & H50 & _).
  destruct (category_boundaries (Sample.skilled 2 false)
              (Sample.offer 9 "onsite") 3)
    as (_ & _ & _ & _ & _ & _ & _ & H49 & _).
  refine (conj (H90 _) (conj (H89 _) (conj (H70 _) (conj (H69 _)
            (conj (H50 _) (H49 _))))));
    vm_compute; reflexivity.
Defined.

End JobMatchFacts.

(** ** Payment recording *)

Module PaymentFacts.

Import PaymentRoutes.

Lemma find_none_filter {A : Type} (f : A -> bool) (l : list A) :
  find f l = None -> filter f l = [].
Proof.
  induction l as [|x l IH]; simpl; [reflexivity |].
  destruct (f x); [discriminate | exact IH].
Qed.

Lemma find_app_hit {A : Type} (f : A -> bool) (l : list A) (x : A) :
  f x = true -> exists y, find f (l ++ [x]) = Some y.
Proof.
  intros Hx. destruct (find f (l ++ [x])) as [y|] eqn:E; [eauto |].
  assert (Hin : In x (l ++ [x])) by (apply in_or_app; right; now left).
  eapply find_none in E; [| exact Hin]. congruence.
Qed.

(** A hash that is not found has no ledger entry. *)
Lemma Payment_count_fresh (db : Db) (hash : string) :
  Store.Payment_findOne db hash = None -> Store.Payment_count db hash = O.
Proof.
  unfold Store.Payment_findOne, Store.Payment_count, findOne.
  intros H. now rewrite (find_none_filter _ _ H).
Qed.

(** What a successful recording did: the hash was new, and the ledger
    grew by the returned payment, which carries the hash. *)
Lemma verify_eth_recorded env db userId body db1 payment :
  verify_eth env db userId body = (db1, Json 200 payment) ->
  Js.truthy (transactionHash body) = true
  /\ Store.Payment_findOne db (text (transactionHash body)) = None
  /\ payments db1 = (payments db ++ [payment])%list
  /\ Payment.transactionHash payment = text (transactionHash body).
Proof.
  unfold verify_eth.
  destruct (Js.truthy (transactionHash body)); simpl; [| discriminate].
  destruct (Js.truthy (blockchain body)); simpl; [| discriminate].
  destruct (Store.Payment_findOne db (text (transactionHash body))) eqn:Hfind;
    [discriminate |].
  unfold Store.Payment_save.
  match goal with |- context [negb (Payment.validate ?p)] =>
    destruct (negb (Payment.validate p)); [discriminate |] end.
  simpl. rewrite Hfind.
  destruct (Js.truthy (jobId body)); intros [= <- <-]; repeat split.
Qed.

(** A request whose hash is in the ledger is refused and changes
    nothing. *)
Lemma verify_eth_conflict env db userId body recorded :
  Js.truthy (transactionHash body) = true ->
  Js.truthy (blockchain body) = true ->
  Store.Payment_findOne db (text (transactionHash body)) = Some recorded ->
  verify_eth env db userId body = (db, Error 400 "Payment already recorded").
Proof.
  intros Hhash Hchain Hfind. unfold verify_eth.
  now rewrite Hhash, Hchain, Hfind.
Qed.

(** C6: after a transaction hash has been recorded, a second request
    with that hash is answered 400 "Payment already recorded", the
    database is unchanged, and the ledger holds exactly one entry for
    the hash. *)
Theorem verify_eth_duplicate env db userId body db1 payment :
  verify_eth env db userId body = (db1, Json 200 payment) ->
  forall env' userId' body',
    transactionHash body' = transactionHash body ->
    Js.truthy (blockchain body') = true ->
    verify_eth env' db1 userId' body'
    = (db1, Error 400 "Payment already recorded")
    /\ Store.Payment_count db1 (text (transactionHash body)) = 1%nat.
Proof.
  intros Hfirst env' userId' body' Hsame Hchain.
  destruct (verify_eth_recorded _ _ _ _ _ _ Hfirst)
    as (Hhash & Hfresh & Hledger & Hpay).
  assert (Hhit : (Payment.transactionHash payment
                  =? text (transactionHash body)) = true)
    by now apply String.eqb_eq.
  split.
  - destruct (find_app_hit
                (fun p => Payment.transactionHash p
                          =? text (transactionHash body))
                (payments db) payment Hhit) as [recorded Hfound].
    apply (verify_eth_conflict env' db1 userId' body' recorded).
    + now rewrite Hsame.
    + exact Hchain.
    + rewrite Hsame. unfold Store.Payment_findOne, findOne.
      now rewrite Hledger.
  - unfold Store.Payment_count. rewrite Hledger, filter_app, length_app.
    apply Payment_count_fresh in Hfresh.
    unfold Store.Payment_count in Hfresh. rewrite Hfresh.
    simpl. now rewrite Hhit.
Qed.

(** The handler leaves the ledger alone or appends one payment whose
    hash was not in it. *)
Lemma verify_eth_ledger env db userId body :
  let db' := fst (verify_eth env db userId body) in
  payments db' = payments db
  \/ exists payment,
       payments db' = (payments db ++ [payment])%list
       /\ Store.Payment_findOne db (Payment.transactionHash payment) = None.
Proof.
  unfold verify_eth.
  destruct (negb (Js.truthy (transactionHash body))
            || negb (Js.truthy (blockchain body))); [now left |].
  destruct (Store.Payment_findOne db (text (transactionHash body))) eqn:Hfind;
    [now left |].
  unfold Store.Payment_save.
  match goal with |- context [negb (Payment.validate ?p)] =>
    destruct (negb (Payment.validate p)); [now left |] end.
  simpl. rewrite Hfind. right. eexists. 
  destruct (Js.truthy (jobId body)); simpl; split; try reflexivity;
    exact Hfind.
Qed.

(** No sequence of requests records a hash twice. *)
Lemma verify_eth_ledger_unique env db userId body :
  (forall hash, (Store.Payment_count db hash <= 1)%nat) ->
  forall hash,
    (Store.Payment_count (fst (verify_eth env db userId body)) hash <= 1)%nat.
Proof.
  intros Hunique hash.
  destruct (verify_eth_ledger env db userId body) as [Heq|(p & Heq & Hfresh)];
    unfold Store.Payment_count in *; rewrite Heq; [apply Hunique |].
  rewrite filter_app, length_app. simpl.
  destruct (String.eqb_spec (Payment.transactionHash p) hash) as [<-|_].
  - apply Payment_count_fresh in Hfresh.
    unfold Store.Payment_count in Hfresh. rewrite Hfresh. simpl. lia.
  - pose proof (Hunique hash). simpl. lia.
Qed.

Lemma verify_eth_duplicate_witness :
  exists db1 payment,
    verify_eth Sample.env Sample.db Sample.alice Sample.payment_body
    = (db1, Json 200 payment)
    /\ verify_eth Sample.env db1 Sample.bob Sample.payment_body
       = (db1, Error 400 "Payment already recorded")
    /\ Store.Payment_count db1
         (text (transactionHash Sample.payment_body)) = 1%nat.
Proof.
  eexists _, _. split; [reflexivity |].
  refine (verify_eth_duplicate Sample.env Sample.db Sample.alice
            Sample.payment_body _ _ eq_refl
            Sample.env Sample.bob Sample.payment_body eq_refl eq_refl).
Defined.

End PaymentFacts.

(** ** Pagination *)

Module PaginationFacts.

Lemma Math_ceil_div_spec (total : nat) (limit : Z) :
  limit <> 0%Z ->
  exists p, Math_ceil_div total limit = Finite p
            /\ Spec.is_ceiling p total limit.
Proof.
  intros Hne. unfold Math_ceil_div, Spec.is_ceiling.
  destruct (Z.eqb_spec limit 0) as [->|_]; [congruence |].
  eexists. split; [reflexivity |].
  pose proof (Z.div_mod (- Z.of_nat total) limit Hne) as Hdiv.
  destruct (Z.lt_trichotomy limit 0) as [Hneg|[Hzero|Hpos]]; [| lia |].
  - pose proof (Z.mod_neg_bound (- Z.of_nat total) limit Hneg). right. nia.
  - pose proof (Z.mod_pos_bound (- Z.of_nat total) limit Hpos). left. nia.
Qed.

Lemma Math_ceil_div_zero (total : nat) :
  Math_ceil_div total 0
  = match total with
    | O => NaN
    | S _ => Infinity
    end.
Proof. reflexivity. Qed.

(** For a positive limit the ceiling is not negative. *)
Lemma is_ceiling_nonneg (p : Z) (total : nat) (limit : Z) :
  (0 < limit)%Z -> Spec.is_ceiling p total limit -> (0 <= p)%Z.
Proof. intros Hpos [[_ H]|[H _]]; nia. Qed.

(** Past the last page the window is empty. *)
Lemma window_beyond {A : Type} (store : Store.Query A) (l : list A)
    (page limit : Z) :
  Store.Query_ok store -> (1 <= page)%Z -> (0 < limit)%Z ->
  exists items,
    Store.window store (Store.order store l) ((page - 1) * limit) limit
    = Js.Returned items
    /\ forall p, Spec.is_ceiling p (List.length l) limit ->
                 (p < page)%Z -> items = [].
Proof.
  intros [Hperm Hwindow] Hpage Hlimit.
  rewrite Hwindow by nia. eexists. split; [reflexivity |].
  intros p [[_ Hceil]|[Hneg _]] Hbeyond; [| lia].
  rewrite skipn_all2; [now rewrite firstn_nil |].
  rewrite <- (Permutation_length (Hperm l)). nia.
Qed.

Lemma list_jobs_pages_ok store db query page limit :
  Spec.pages_ok (JobRoutes.list_jobs store db query page limit)
    (List.length (filter query (jobs db))) page limit.
Proof.
  unfold JobRoutes.list_jobs. intros status items pagination.
  destruct (Store.window store _ _ _); [| discriminate].
  intros [= _ _ <-]. simpl. repeat split.
  - apply Math_ceil_div_spec.
  - intros ->. apply Math_ceil_div_zero.
Qed.

Lemma feed_pages_ok store db page limit :
  Spec.pages_ok (PostRoutes.feed store db page limit)
    (List.length (filter PostRoutes.is_public (posts db))) page limit.
Proof.
  unfold PostRoutes.feed. intros status items pagination.
  destruct (Store.window store _ _ _); [| discriminate].
  intros [= _ _ <-]. simpl. repeat split.
  - apply Math_ceil_div_spec.
  - intros ->. apply Math_ceil_div_zero.
Qed.

Lemma list_jobs_served store db query page limit :
  Store.Query_ok store -> (1 <= page)%Z -> (0 < limit)%Z ->
  Spec.served (JobRoutes.list_jobs store db query page limit) page.
Proof.
  intros Hok Hpage Hlimit. unfold JobRoutes.list_jobs, Spec.served.
  destruct (window_beyond store (filter query (jobs db)) page limit
              Hok Hpage Hlimit) as (items & -> & Hempty).
  eexists _, _. split; [reflexivity |]. simpl. intros p Hp.
  apply Hempty.
  destruct (Math_ceil_div_spec (List.length (filter query (jobs db))) limit)
    as (p' & Hp' & Hceil); [lia |]. congruence.
Qed.

Lemma feed_served store db page limit :
  Store.Query_ok store -> (1 <= page)%Z -> (0 < limit)%Z ->
  Spec.served (PostRoutes.feed store db page limit) page.
Proof.
  intros Hok Hpage Hlimit. unfold PostRoutes.feed, Spec.served.
  destruct (window_beyond store (filter PostRoutes.is_public (posts db))
              page limit Hok Hpage Hlimit) as (items & -> & Hempty).
  eexists _, _. split; [reflexivity |]. simpl. intros p Hp.
  apply Hempty.
  destruct (Math_ceil_div_spec
              (List.length (filter PostRoutes.is_public (posts db))) limit)
    as (p' & Hp' & Hceil); [lia |]. congruence.
Qed.

Lemma reference_ok (A : Type) : Store.Query_ok (Store.reference A).
Proof.
  split; simpl.
  - intros l. apply Permutation_refl.
  - intros l k n Hk Hn.
    destruct (Z.leb_spec 0 k); [| lia].
    destruct (Z.ltb_spec 0 n); [reflexivity | lia].
Qed.

(** C8: in the job list and in the feed, the pagination object of every
    response has for [pages] the ceiling of [total / limit]; for a limit
    of at least 1, a page of at least 1, and so every page beyond
    [pages], is answered by a success, with an empty list when the page
    is beyond [pages]. *)
Theorem pagination_pages jobStore postStore db query page limit :
  let jobCount := List.length (filter query (jobs db)) in
  let postCount := List.length (filter PostRoutes.is_public (posts db)) in
  let jobList := JobRoutes.list_jobs jobStore db query page limit in
  let feed := PostRoutes.feed postStore db page limit in
  (Spec.pages_ok jobList jobCount page limit
   /\ Spec.pages_ok feed postCount page limit)
  /\ (Store.Query_ok jobStore -> Store.Query_ok postStore ->
      (0 < limit)%Z ->
      ((1 <= page)%Z -> Spec.served jobList page /\ Spec.served feed page)
      /\ (forall p, Spec.is_ceiling p jobCount limit -> (p < page)%Z ->
                    Spec.served jobList page)
      /\ (forall p, Spec.is_ceiling p postCount limit -> (p < page)%Z ->
                    Spec.served feed page)).
Proof.
  intros jobCount postCount jobList feed. split.
  - split; [apply list_jobs_pages_ok | apply feed_pages_ok].
  - intros Hjobs Hposts Hlimit. repeat split.
    + now apply list_jobs_served.
    + now apply feed_served.
    + intros p Hceil Hbeyond. apply list_jobs_served; auto.
      pose proof (is_ceiling_nonneg _ _ _ Hlimit Hceil). lia.
    + intros p Hceil Hbeyond. apply feed_served; auto.
      pose proof (is_ceiling_nonneg _ _ _ Hlimit Hceil). lia.
Qed.

Lemma pagination_pages_witness :
  Spec.served
    (JobRoutes.list_jobs (Store.reference Job.t) Sample.db
       (fun _ => true) 5 10) 5
  /\ Spec.served (PostRoutes.feed (Store.reference Post.t) Sample.db 5 10) 5.
Proof.
  refine (proj1 (proj2 (pagination_pages (Store.reference Job.t)
                          (Store.reference Post.t) Sample.db
                          (fun _ => true) 5 10)
                   (reference_ok Job.t) (reference_ok Post.t) _) _); lia.
Defined.

Lemma driver_ok (A : Type) : Store.Query_ok (Store.driver A).
Proof.
  split; simpl.
  - intros l. apply Permutation_refl.
  - intros l k n Hk Hn.
    destruct (Z.ltb_spec k 0); [lia |].
    destruct (Z.eqb_spec n 0); [lia |].
    now rewrite Z.abs_eq by lia.
Qed.

(** With a limit of -5 the first page is beyond [pages], which is 0,
    and it is not answered by an empty list: the cursor of MongoDB
    returns the job, and a store that refuses the limit makes the
    handler answer 500. *)
Lemma pagination_negative_limit :
  (exists pagination,
      JobRoutes.list_jobs (Store.driver Job.t) Sample.db (fun _ => true)
        1 (-5)
      = Json 200 ([Sample.posting], pagination)
      /\ Pagination.pages pagination = Finite 0)
  /\ ~ Spec.served
         (JobRoutes.list_jobs (Store.driver Job.t) Sample.db (fun _ => true)
            1 (-5)) 1
  /\ ~ Spec.served
         (JobRoutes.list_jobs (Store.reference Job.t) Sample.db
            (fun _ => true) 1 (-5)) 1.
Proof.
  split; [eexists; split; reflexivity |]. split.
  - intros (items & pagination & Heq & Hempty).
    injection Heq as <- <-.
    specialize (Hempty 0%Z eq_refl ltac:(lia)). discriminate.
  - intros (items & pagination & Heq & _). discriminate.
Qed.

End PaginationFacts.

(** ** Sending a message *)

Module MessageRouteFacts.

Import MessageRoutes.

(** A request addressed to its sender in the string of [req.userId]
    itself creates no message and is answered by an error. *)
Lemma send_self_rejected db userId body :
  receiverId body = Some userId ->
  exists status error, send db userId body = (db, Error status error).
Proof.
  intros Hself. unfold send. rewrite Hself.
  destruct (negb (Js.truthy (Some userId))
            || negb (Js.truthy (content body))
            || negb (Js.truthy (Some (Js.trim (text (content body))))));
    [eauto |].
  simpl. destruct (ObjectId_cast userId) as [receiver|]; [| eauto].
  destruct (Store.User_findById db receiver); [| eauto].
  rewrite String.eqb_refl. eauto.
Qed.

(** The guard of the handler: for the identical string, a content that
    is not blank and a stored user, the answer is 400 "Cannot send
    message to yourself". *)
Lemma send_to_self db userId body :
  receiverId body = Some userId ->
  (exists status error, send db userId body = (db, Error status error))
  /\ (ObjectId_cast userId = Some userId ->
      Js.trim (text (content body)) <> EmptyString ->
      Store.User_findById db userId <> None ->
      send db userId body
      = (db, Error 400 "Cannot send message to yourself")).
Proof.
  intros Hself. split; [now apply send_self_rejected |].
  intros Hid Hcontent Huser. unfold send. rewrite Hself.
  destruct userId as [|c id]; [discriminate |].
  destruct (content body) as [[|d rest]|];
    try (exfalso; apply Hcontent; reflexivity).
  cbn [Js.truthy negb orb text] in *.
  destruct (Js.trim (String d rest)) as [|e trimmed] eqn:Htrim;
    [congruence |].
  cbn [Js.truthy negb orb]. rewrite Hid.
  destruct (Store.User_findById db (String c id)); [| congruence].
  now rewrite String.eqb_refl.
Qed.

Lemma send_to_self_witness :
  send Sample.db Sample.alice
    {| receiverId := Some Sample.alice; content := Some "hello me" |}
  = (Sample.db, Error 400 "Cannot send message to yourself").
Proof.
  refine (proj2 (send_to_self Sample.db Sample.alice
                   {| receiverId := Some Sample.alice;
                      content := Some "hello me" |} eq_refl) _ _ _);
    [reflexivity | discriminate | discriminate].
Defined.

(** A blank content is refused before the self check, with another
    message. *)
Lemma send_to_self_blank :
  send Sample.db Sample.alice
    {| receiverId := Some Sample.alice; content := Some "   " |}
  = (Sample.db, Error 400 "Receiver and message content are required").
Proof. reflexivity. Qed.

(** The guard compares strings, the lookup casts: a receiver that is
    the sender's identifier in another spelling passes the guard, and
    the message is stored with the sender as its receiver. *)
Lemma send_respelled db userId receiverId content user :
  ObjectId_cast receiverId = Some userId ->
  receiverId <> userId ->
  Store.User_findById db userId = Some user ->
  Js.trim content <> EmptyString ->
  exists message,
    send db userId
      {| MessageRoutes.receiverId := Some receiverId;
         MessageRoutes.content := Some content |}
    = (Store.Message_save db message, Json 201 message)
    /\ Message.sender message = userId
    /\ Message.receiver message = userId.
Proof.
  intros Hcast Hne Hfind Hcontent. unfold send.
  destruct receiverId as [|c r]; [discriminate |].
  destruct content as [|d t]; [exfalso; apply Hcontent; reflexivity |].
  cbn [MessageRoutes.receiverId MessageRoutes.content Js.truthy negb orb
       text].
  destruct (Js.trim (String d t)) as [|e trimmed] eqn:Htrim; [congruence |].
  cbn [Js.truthy negb orb]. rewrite Hcast, Hfind.
  rewrite (proj2 (String.eqb_neq _ _) Hne).
  eexists. split; [reflexivity |]. split; reflexivity.
Qed.

(** C9: the user 507f1f77bcf86cd799439011 sends a message to the
    receiver 507F1F77BCF86CD799439011, which is the same identifier
    with its letters in upper case: the answer is 201, and a message
    whose sender and receiver are both this user is stored. *)
Theorem send_to_self_respelled :
  let message :=
    {| Message.conversationId :=
         "507F1F77BCF86CD799439011_507f1f77bcf86cd799439011";
       Message.sender := Sample.alice;
       Message.receiver := Sample.alice;
       Message.content := "hello me";
       Message.read := false |} in
  send Sample.db Sample.alice
    {| receiverId := Some "507F1F77BCF86CD799439011";
       content := Some "hello me" |}
  = (with_messages Sample.db [message], Json 201 message).
Proof. vm_compute. reflexivity. Qed.

End MessageRouteFacts.

(** ** Liking a post *)

Module LikeFacts.

Import PostRoutes.
Local Open Scope list_scope.

Lemma indexOf_None (l : list string) (x : string) :
  Js.indexOf l x = None <-> ~ In x l.
Proof.
  induction l as [|y l IH]; simpl; [tauto |].
  destruct (String.eqb_spec y x) as [->|Hne].
  - split; [discriminate | tauto].
  - destruct (Js.indexOf l x) as [i|].
    + split; [discriminate |]. intros H.
      assert (Hnot : ~ In x l) by tauto.
      apply IH in Hnot. discriminate.
    + split; [| reflexivity].
      intros _ [H|H]; [congruence |]. now apply (proj1 IH eq_refl).
Qed.

(** [indexOf] finds the first occurrence, and [splice] removes it. *)
Lemma indexOf_Some (l : list string) (x : string) (i : nat) :
  Js.indexOf l x = Some i ->
  exists before after,
    l = before ++ x :: after /\ ~ In x before
    /\ Js.splice1 l i = before ++ after.
Proof.
  revert i; induction l as [|y l IH]; intros i; simpl; [discriminate |].
  destruct (String.eqb_spec y x) as [->|Hne].
  - intros [= <-]. exists [], l. simpl. tauto.
  - destruct (Js.indexOf l x) as [j|]; [| discriminate].
    intros [= <-]. destruct (IH j eq_refl) as (before & after & -> & Hb & Hs).
    exists (y :: before), after. simpl. rewrite Hs.
    repeat split. intros [H|H]; [congruence | tauto].
Qed.

Lemma toggle_present (l : list string) (x : string) :
  In x l ->
  exists before after,
    l = before ++ x :: after /\ ~ In x before
    /\ toggle l x = before ++ after.
Proof.
  intros Hin. unfold toggle.
  destruct (Js.indexOf l x) as [i|] eqn:E.
  - exact (indexOf_Some _ _ _ E).
  - apply indexOf_None in E. tauto.
Qed.

Lemma toggle_absent (l : list string) (x : string) :
  ~ In x l -> toggle l x = l ++ [x].
Proof.
  intros Hnot. unfold toggle. apply indexOf_None in Hnot. now rewrite Hnot.
Qed.

Lemma toggle_NoDup (l : list string) (x : string) :
  NoDup l -> NoDup (toggle l x).
Proof.
  intros Hnodup. destruct (in_dec string_dec x l) as [Hin|Hnot].
  - destruct (toggle_present l x Hin) as (before & after & -> & _ & ->).
    now apply NoDup_remove_1 in Hnodup.
  - rewrite (toggle_absent l x Hnot).
    apply NoDup_app; [assumption | repeat constructor; auto |].
    intros y Hy [<-|[]]. tauto.
Qed.

Lemma first_occurrence_last (l before after : list string) (x : string) :
  ~ In x l -> l ++ [x] = before ++ x :: after -> before ++ after = l.
Proof.
  revert before; induction l as [|y l IH]; intros before Hnot Heq.
  - destruct before as [|z before]; simpl in Heq.
    + now injection Heq as <-.
    + injection Heq as _ Heq. now destruct before.
  - destruct before as [|z before]; simpl in Heq.
    + injection Heq as <- _. exfalso. apply Hnot. now left.
    + injection Heq as <- Heq. simpl. f_equal. apply IH; [| exact Heq].
      intros H. apply Hnot. now right.
Qed.

(** Liking and unliking gives back the list one started from. *)
Lemma toggle_twice_absent (l : list string) (x : string) :
  ~ In x l -> toggle (toggle l x) x = l.
Proof.
  intros Hnot. rewrite (toggle_absent l x Hnot).
  assert (Hin : In x (l ++ [x])) by (apply in_or_app; right; now left).
  destruct (toggle_present _ x Hin) as (before & after & Heq & _ & ->).
  now apply (first_occurrence_last l before after x).
Qed.

(** Unliking and liking again keeps the members, not their order. *)
Lemma toggle_twice_perm (l : list string) (x : string) :
  NoDup l -> Permutation l (toggle (toggle l x) x).
Proof.
  intros Hnodup. destruct (in_dec string_dec x l) as [Hin|Hnot].
  - destruct (toggle_present l x Hin) as (before & after & -> & _ & ->).
    apply NoDup_remove_2 in Hnodup. rewrite (toggle_absent _ x Hnodup).
    eapply Permutation_trans; [apply Permutation_sym, Permutation_middle |].
    apply Permutation_cons_append.
  - now rewrite toggle_twice_absent.
Qed.

Lemma find_update_first {A : Type} (f : A -> bool) (l : list A) (x y : A) :
  find f l = Some x -> f y = true ->
  find f (update_first f (fun _ => y) l) = Some y.
Proof.
  intros Hfind Hy. induction l as [|z l IH]; simpl in *; [discriminate |].
  destruct (f z) eqn:Hz; simpl.
  - now rewrite Hy.
  - rewrite Hz. auto.
Qed.

Lemma Post_findById_id db postId post :
  Store.Post_findById db postId = Some post -> Post._id post = postId.
Proof.
  unfold Store.Post_findById, findOne. intros H.
  apply find_some in H. now apply String.eqb_eq.
Qed.

Lemma Post_save_found db postId post likes :
  Store.Post_findById db postId = Some post ->
  Store.Post_findById (Store.Post_save db (Post.with_likes post likes))
    postId
  = Some (Post.with_likes post likes).
Proof.
  intros Hfind. pose proof (Post_findById_id _ _ _ Hfind) as <-.
  unfold Store.Post_findById, Store.Post_save, findOne in *. simpl.
  apply (find_update_first _ _ post); [assumption |].
  apply String.eqb_refl.
Qed.

(** The handler stores the toggled likes in the post it loaded. *)
Lemma like_stored db userId postId post :
  Store.Post_findById db postId = Some post ->
  Store.Post_findById (fst (like db userId postId)) postId
  = Some (Post.with_likes post (toggle (Post.likes post) userId)).
Proof.
  intros Hfind. unfold like, toggle. rewrite Hfind.
  destruct (Js.indexOf (Post.likes post) userId); simpl.
  - now apply Post_save_found.
  - unfold NotificationRoutes.createNotification.
    destruct (Post.author post =? userId); simpl;
      now apply Post_save_found.
Qed.

Lemma like_likes db userId postId post :
  Store.Post_findById db postId = Some post ->
  likes_of (fst (like db userId postId)) postId
  = toggle (Post.likes post) userId.
Proof.
  intros Hfind. unfold likes_of. now rewrite (like_stored _ _ _ _ Hfind).
Qed.

(** An unlike creates no notification; a like creates one for the
    author, unless the author is the one who likes. *)
Lemma like_notifications db userId postId post :
  Store.Post_findById db postId = Some post ->
  notifications (fst (like db userId postId))
  = match Js.indexOf (Post.likes post) userId with
    | Some _ => notifications db
    | None =>
        if (Post.author post =? userId)%string then notifications db
        else notifications db
             ++ [Notification.new (Post.author post) userId
                   Notification.post_like (Some postId) None None]
    end.
Proof.
  intros Hfind. pose proof (Post_findById_id _ _ _ Hfind) as Hid.
  unfold like. rewrite Hfind.
  destruct (Js.indexOf (Post.likes post) userId); simpl; [reflexivity |].
  unfold NotificationRoutes.createNotification.
  destruct (Post.author post =? userId)%string; simpl; congruence.
Qed.

(** From a post without duplicate likes, no sequence of like requests
    makes a user occur twice. *)
Lemma likes_NoDup_invariant (likers : list ObjectId) db postId post :
  Store.Post_findById db postId = Some post ->
  NoDup (Post.likes post) ->
  NoDup (likes_of
           (fold_left (fun d userId => fst (like d userId postId)) likers db)
           postId).
Proof.
  revert db post; induction likers as [|userId likers IH];
    intros db post Hfind Hnodup; simpl.
  - unfold likes_of. now rewrite Hfind.
  - apply (IH _ _ (like_stored _ userId _ _ Hfind)).
    simpl. now apply toggle_NoDup.
Qed.

(** C10: the like handler toggles.  A user who is in the likes is
    removed and nobody is notified; a user who is not is appended and
    the author is notified, unless the author is that user.  Likes
    without duplicates stay so, and two likes by one user leave the
    same members: the same list when the user was not in it. *)
Theorem like_toggle db userId postId post :
  Store.Post_findById db postId = Some post ->
  let db1 := fst (like db userId postId) in
  let db2 := fst (like db1 userId postId) in
  (In userId (Post.likes post) ->
     (exists before after,
         Post.likes post = before ++ userId :: after
         /\ ~ In userId before
         /\ likes_of db1 postId = before ++ after)
     /\ notifications db1 = notifications db)
  /\ (~ In userId (Post.likes post) ->
      likes_of db1 postId = Post.likes post ++ [userId]
      /\ notifications db1
         = if (Post.author post =? userId)%string then notifications db
           else notifications db
                ++ [Notification.new (Post.author post) userId
                      Notification.post_like (Some postId) None None])
  /\ (NoDup (Post.likes post) ->
      NoDup (likes_of db1 postId)
      /\ Permutation (Post.likes post) (likes_of db2 postId))
  /\ (~ In userId (Post.likes post) -> likes_of db2 postId = Post.likes post).
Proof.
  intros Hfind db1 db2.
  pose proof (like_stored db userId postId post Hfind) as Hstored.
  fold db1 in Hstored.
  assert (H1 : likes_of db1 postId = toggle (Post.likes post) userId)
    by (subst db1; now apply like_likes).
  assert (H2 : likes_of db2 postId
               = toggle (toggle (Post.likes post) userId) userId)
    by (subst db2; now rewrite (like_likes _ _ _ _ Hstored)).
  pose proof (like_notifications db userId postId post Hfind) as Hn.
  fold db1 in Hn.
  repeat split.
  - rewrite H1. now apply toggle_present.
  - rewrite Hn. destruct (Js.indexOf (Post.likes post) userId) eqn:E;
      [reflexivity |].
    apply indexOf_None in E. tauto.
  - rewrite H1. now apply toggle_absent.
  - rewrite Hn. apply indexOf_None in H. now rewrite H.
  - rewrite H1. now apply toggle_NoDup.
  - rewrite H2. now apply toggle_twice_perm.
  - rewrite H2. now apply toggle_twice_absent.
Qed.

Lemma like_toggle_witness :
  likes_of
    (fst (like (fst (like (Sample.db_with_likes [Sample.bob]) Sample.alice
                       "65a1b2c3d4e5f60718293a4d"))
            Sample.alice "65a1b2c3d4e5f60718293a4d"))
    "65a1b2c3d4e5f60718293a4d"
  = [Sample.bob].
Proof.
  refine (proj2 (proj2 (proj2
            (like_toggle (Sample.db_with_likes [Sample.bob]) Sample.alice
               "65a1b2c3d4e5f60718293a4d" (Sample.post [Sample.bob])
               eq_refl))) _).
  simpl. intros [H|[]]. discriminate.
Defined.

(** The claim has two likes restore the list and every like notify the
    author.  A user in front of the list moves to its end, and the
    author's own like creates no notification. *)
Lemma like_twice_reorders :
  likes_of
    (fst (like (fst (like (Sample.db_with_likes [Sample.alice; Sample.bob])
                       Sample.alice "65a1b2c3d4e5f60718293a4d"))
            Sample.alice "65a1b2c3d4e5f60718293a4d"))
    "65a1b2c3d4e5f60718293a4d"
  = [Sample.bob; Sample.alice]
  /\ likes_of
       (fst (like Sample.db Sample.carol "65a1b2c3d4e5f60718293a4d"))
       "65a1b2c3d4e5f60718293a4d"
     = [Sample.carol]
  /\ notifications
       (fst (like Sample.db Sample.carol "65a1b2c3d4e5f60718293a4d"))
     = [].
Proof. repeat split. Qed.

End LikeFacts.


(** ** Conversations and read state *)

Module InboxFacts.

Import Inbox.
Local Open Scope list_scope.


Lemma keys_bump (cid : string) (map : list Conversation) :
  keys (update_first (fun c => conversationId c =? cid)%string bump map)
  = keys map.
Proof.
  induction map as [|c map IH]; simpl; [reflexivity |].
  destruct (conversationId c =? cid)%string; simpl; [reflexivity |].
  now rewrite IH.
Qed.

















Lemma fixture_participants : participants_exist Fixture.db.
Proof.
  unfold participants_exist. simpl.
  repeat (constructor; [split; discriminate |]). constructor.
Qed.





Lemma fixture_well_formed : well_formed Fixture.db.
Proof.
  unfold well_formed. simpl.
  repeat (constructor; [split; [discriminate | reflexivity] |]). constructor.
Qed.


(** *** Opening a conversation *)

Lemma read_conversation_read cid userId (l : list Message.t) :
  Forall (fun m =>
            Message.conversationId m = cid -> Message.receiver m = userId ->
            Message.read m = true)
    (read_conversation cid userId l).
Proof.
  unfold read_conversation. apply Forall_forall. intros m Hin.
  apply in_map_iff in Hin. destruct Hin as (m0 & <- & _).
  unfold unread.
  destruct (String.eqb_spec (Message.conversationId m0) cid) as [Hc|Hc];
    destruct (String.eqb_spec (Message.receiver m0) userId) as [Hr|Hr];
    destruct (Message.read m0) eqn:Hread; simpl; auto; congruence.
Qed.

Lemma read_conversation_count cid userId (l : list Message.t) :
  List.length (filter (unread userId) (read_conversation cid userId l))
  + List.length
      (filter (fun m => (Message.conversationId m =? cid)%string
                        && unread userId m) l)
  = List.length (filter (unread userId) l).
Proof.
  induction l as [|m l IH]; simpl; [reflexivity |].
  destruct ((Message.conversationId m =? cid)%string) eqn:Hc;
    destruct (unread userId m) eqn:Hu; simpl; rewrite ?Hu; simpl; try lia.
  unfold unread at 1. simpl. rewrite andb_false_r. lia.
Qed.

Lemma read_conversation_others cid userId other (l : list Message.t) :
  other <> userId ->
  filter (unread other) (read_conversation cid userId l)
  = filter (unread other) l.
Proof.
  intros Hne. induction l as [|m l IH]; simpl; [reflexivity |].
  rewrite IH.
  destruct ((Message.conversationId m =? cid)%string && unread userId m)
    eqn:Hmark; [| reflexivity].
  apply andb_true_iff in Hmark. destruct Hmark as [_ Hu].
  unfold unread in *. simpl. apply andb_true_iff in Hu.
  destruct Hu as [Hr _]. apply String.eqb_eq in Hr.
  destruct (String.eqb_spec (Message.receiver m) other) as [Ho|Ho];
    [congruence | reflexivity].
Qed.

Lemma read_conversation_idempotent cid userId (l : list Message.t) :
  read_conversation cid userId (read_conversation cid userId l)
  = read_conversation cid userId l.
Proof.
  unfold read_conversation. rewrite map_map. apply map_ext. intros m.
  destruct ((Message.conversationId m =? cid)%string && unread userId m)
    eqn:Hmark; [| now rewrite Hmark].
  unfold unread. simpl. now rewrite !andb_false_r.
Qed.

(** X4: opening a conversation marks as read exactly the user's unread
    messages of that conversation: afterwards none of its messages to
    the user is unread, the user's unread count has dropped by their
    number, nobody else's count has changed, and opening it again
    changes nothing. *)
Theorem open_conversation_marks_read db userId otherUserId otherUser :
  Store.User_findById db otherUserId = Some otherUser ->
  let cid := Message.generateConversationId userId otherUserId in
  let db' := fst (open_conversation db userId otherUserId) in
  Forall (fun m =>
            Message.conversationId m = cid -> Message.receiver m = userId ->
            Message.read m = true)
    (messages db')
  /\ unread_count db' userId
     + List.length
         (filter (fun m => (Message.conversationId m =? cid)%string
                           && unread userId m) (messages db))
     = unread_count db userId
  /\ (forall other, other <> userId ->
        unread_count db' other = unread_count db other)
  /\ fst (open_conversation db' userId otherUserId) = db'.
Proof.
  intros Hfind cid db'. subst db'. unfold open_conversation.
  rewrite Hfind. simpl. fold cid. repeat split.
  - apply read_conversation_read.
  - apply read_conversation_count.
  - intros other Hne. unfold unread_count. simpl.
    now rewrite read_conversation_others.
  - unfold Store.User_findById. simpl.
    unfold Store.User_findById in Hfind. rewrite Hfind. simpl.
    unfold with_messages. simpl. fold cid.
    now rewrite read_conversation_idempotent.
Qed.

Lemma open_conversation_marks_read_witness :
  unread_count (fst (open_conversation Fixture.db Sample.alice Sample.bob))
    Sample.alice = 1
  /\ unread_count (fst (open_conversation Fixture.db Sample.alice Sample.bob))
       Sample.bob = unread_count Fixture.db Sample.bob.
Proof.
  destruct (open_conversation_marks_read Fixture.db Sample.alice Sample.bob
              (Fixture.user Sample.bob []) eq_refl) as (_ & Hc & Ho & _).
  split.
  - simpl in Hc. unfold unread_count in *. simpl in *. lia.
  - apply Ho. discriminate.
Defined.

(** *** Sending *)

(** The two outcomes of POST /send. *)
Lemma send_cases db userId body :
  (exists receiverId receiver content,
      MessageRoutes.receiverId body = Some receiverId
      /\ MessageRoutes.content body = Some content
      /\ Js.trim content <> EmptyString
      /\ receiverId <> userId
      /\ ObjectId_cast receiverId = Some receiver
      /\ Store.User_findById db receiver <> None
      /\ MessageRoutes.send db userId body
         = (Store.Message_save db
              (stored_message userId receiverId receiver (Js.trim content)),
            Json 201
              (stored_message userId receiverId receiver (Js.trim content))))
  \/ (exists status error,
         MessageRoutes.send db userId body = (db, Error status error)).
Proof.
  unfold MessageRoutes.send.
  destruct (MessageRoutes.receiverId body) as [[|c r]|];
    cbn [Js.truthy negb orb MessageRoutes.text]; try (right; eauto; fail).
  destruct (MessageRoutes.content body) as [[|d t]|];
    cbn [Js.truthy negb orb MessageRoutes.text]; try (right; eauto; fail).
  destruct (Js.trim (String d t)) as [|e trimmed] eqn:Htrim;
    cbn [Js.truthy negb orb]; try (right; eauto; fail).
  destruct (ObjectId_cast (String c r)) as [receiver|] eqn:Hcast;
    try (right; eauto; fail).
  destruct (Store.User_findById db receiver) as [found|] eqn:Hfind;
    try (right; eauto; fail).
  destruct (String.eqb_spec (String c r) userId) as [Heq|Hne];
    try (right; eauto; fail).
  left. exists (String c r), receiver, (String d t). rewrite Htrim, Hfind.
  repeat split; try congruence.
Qed.

(** X5: POST /send either stores exactly one message and answers 201
    with it, or answers an error and leaves the database as it was.  The
    stored message is from the sender to the stored user whose
    identifier the receiver string of the body is cast to; that string
    is not the sender's; the message is unread, its key is the
    conversation key of the sender and the receiver string as it came,
    and its content is trimmed and not empty. *)
Theorem send_outcome db userId body :
  (exists msg receiverId,
      MessageRoutes.send db userId body
      = (with_messages db (messages db ++ [msg]), Json 201 msg)
      /\ MessageRoutes.receiverId body = Some receiverId
      /\ receiverId <> userId
      /\ ObjectId_cast receiverId = Some (Message.receiver msg)
      /\ Store.User_findById db (Message.receiver msg) <> None
      /\ Message.sender msg = userId
      /\ Message.content msg <> EmptyString
      /\ Js.trim (Message.content msg) = Message.content msg
      /\ Message.read msg = false
      /\ Message.conversationId msg
         = Message.generateConversationId userId receiverId)
  \/ (exists status error,
         MessageRoutes.send db userId body = (db, Error status error)).
Proof.
  destruct (send_cases db userId body)
    as [(receiverId & receiver & content & Hr & Hc & Ht & Hne & Hcast & Hex
         & Hsend)|Herr];
    [left | now right].
  exists (stored_message userId receiverId receiver (Js.trim content)),
    receiverId.
  simpl. repeat split; auto. apply trim_idempotent.
Qed.

Lemma send_stored db userId body db1 msg status :
  MessageRoutes.send db userId body = (db1, Json status msg) ->
  db1 = with_messages db (messages db ++ [msg])
  /\ Store.User_findById db (Message.receiver msg) <> None
  /\ exists receiverId,
       MessageRoutes.receiverId body = Some receiverId
       /\ receiverId <> userId
       /\ ObjectId_cast receiverId = Some (Message.receiver msg)
       /\ msg = stored_message userId receiverId (Message.receiver msg)
                  (Message.content msg).
Proof.
  intros Hsend.
  destruct (send_cases db userId body)
    as [(receiverId & receiver & content & Hr & _ & _ & Hne & Hcast & Hex
         & Heq)|(st & e & Heq)];
    rewrite Heq in Hsend; [| discriminate].
  injection Hsend as <- _ <-. repeat split; auto.
  exists receiverId. repeat split; auto.
Qed.

(** X6: a message sent to a receiver that the body names in its string
    form is the last one of the conversation that both participants get
    from GET /conversation, and it raises the receiver's unread count
    by one. *)
Theorem send_then_open db sender body db1 msg :
  MessageRoutes.send db sender body = (db1, Json 201 msg) ->
  MessageRoutes.receiverId body = Some (Message.receiver msg) ->
  Store.User_findById db sender <> None ->
  let receiver := Message.receiver msg in
  let earlier :=
    filter (fun m => (Message.conversationId m
                      =? Message.conversationId msg)%string) (messages db) in
  (exists thread,
      snd (open_conversation db1 receiver sender) = Json 200 thread
      /\ thread_messages thread = earlier ++ [msg])
  /\ (exists thread,
         snd (open_conversation db1 sender receiver) = Json 200 thread
         /\ thread_messages thread = earlier ++ [msg])
  /\ unread_count db1 receiver = S (unread_count db receiver).
Proof.
  intros Hsend Hform Hsender receiver earlier.
  destruct (send_stored _ _ _ _ _ _ Hsend)
    as (-> & Hex & receiverId & Hbody & Hne & Hcast & Hmsg).
  assert (receiverId = receiver) as -> by (unfold receiver; congruence).
  assert (Hcid : Message.conversationId msg
                 = Message.generateConversationId sender receiver)
    by (rewrite Hmsg; reflexivity).
  assert (Hthread : forall viewer other found,
             Store.User_findById db other = Some found ->
             Message.generateConversationId viewer other
             = Message.conversationId msg ->
             exists thread,
               snd (open_conversation
                      (with_messages db (messages db ++ [msg])) viewer other)
               = Json 200 thread
               /\ thread_messages thread = earlier ++ [msg]).
  { intros viewer other found Hfound Hkey. unfold open_conversation.
    change (Store.User_findById
              (with_messages db (messages db ++ [msg])) other)
      with (Store.User_findById db other).
    rewrite Hfound. simpl. eexists. split; [reflexivity |]. simpl.
    unfold oldest_first. rewrite Hkey, filter_app. simpl.
    now rewrite String.eqb_refl. }
  split; [| split].
  - destruct (Store.User_findById db sender) as [found|] eqn:Hf; [| congruence].
    apply (Hthread receiver sender found Hf).
    rewrite Hcid. apply MessageFacts.generateConversationId_sym.
  - fold receiver in Hex.
    destruct (Store.User_findById db receiver) as [found|] eqn:Hf;
      [| congruence].
    apply (Hthread sender receiver found Hf). now rewrite Hcid.
  - unfold unread_count. simpl. rewrite filter_app, length_app. simpl.
    unfold unread at 2. fold receiver. rewrite String.eqb_refl.
    rewrite Hmsg. simpl. lia.
Qed.

Lemma send_then_open_witness :
  unread_count
    (fst (MessageRoutes.send Fixture.db Sample.alice
            {| MessageRoutes.receiverId := Some Sample.bob;
               MessageRoutes.content := Some " see you " |}))
    Sample.bob
  = S (unread_count Fixture.db Sample.bob).
Proof.
  refine (proj2 (proj2 (send_then_open Fixture.db Sample.alice
                          {| MessageRoutes.receiverId := Some Sample.bob;
                             MessageRoutes.content := Some " see you " |}
                          _ _ eq_refl eq_refl _))).
  discriminate.
Defined.

(** X7: opening a conversation keeps the messages well formed (two
    different participants, the key of their pair), and so does sending
    to a receiver that the body names in its string form; sending and
    opening keep every participant a user. *)
Theorem inbox_invariants db userId body otherUserId :
  (well_formed db ->
   (ObjectId_cast (MessageRoutes.text (MessageRoutes.receiverId body))
    = Some (MessageRoutes.text (MessageRoutes.receiverId body)) ->
    well_formed (fst (MessageRoutes.send db userId body)))
   /\ well_formed (fst (open_conversation db userId otherUserId)))
  /\ (participants_exist db -> Store.User_findById db userId <> None ->
      participants_exist (fst (MessageRoutes.send db userId body))
      /\ participants_exist (fst (open_conversation db userId otherUserId))).
Proof.
  split.
  - intros Hwf. split.
    + intros Hform.
      destruct (send_cases db userId body)
        as [(r & rc & c & Hr & _ & _ & Hne & Hcast & _ & ->)|(st & e & ->)];
        [| exact Hwf].
      rewrite Hr in Hform. cbn [MessageRoutes.text] in Hform.
      assert (rc = r) as -> by congruence.
      unfold well_formed in *. simpl. apply Forall_app. split; [assumption |].
      constructor; [| constructor]. simpl. split; congruence.
    + unfold open_conversation.
      destruct (Store.User_findById db otherUserId); [| exact Hwf].
      unfold well_formed in *. simpl. unfold read_conversation.
      rewrite Forall_forall in *. intros m Hin.
      apply in_map_iff in Hin. destruct Hin as (m0 & <- & Hin).
      destruct ((Message.conversationId m0
                 =? Message.generateConversationId userId otherUserId)%string
                && unread userId m0); apply (Hwf m0 Hin).
  - intros Hex Huser. split.
    + destruct (send_cases db userId body)
        as [(r & rc & c & _ & _ & _ & _ & _ & Hr & ->)|(st & e & ->)];
        [| exact Hex].
      unfold participants_exist in *. simpl. apply Forall_app.
      split; [assumption |]. constructor; [| constructor]. now split.
    + unfold open_conversation.
      destruct (Store.User_findById db otherUserId); [| exact Hex].
      unfold participants_exist in *. simpl. unfold read_conversation.
      rewrite Forall_forall in *. intros m Hin.
      apply in_map_iff in Hin. destruct Hin as (m0 & <- & Hin).
      destruct ((Message.conversationId m0
                 =? Message.generateConversationId userId otherUserId)%string
                && unread userId m0); apply (Hex m0 Hin).
Qed.

Lemma inbox_invariants_witness :
  well_formed
    (fst (MessageRoutes.send Fixture.db Sample.alice
            {| MessageRoutes.receiverId := Some Sample.bob;
               MessageRoutes.content := Some "hi" |}))
  /\ participants_exist
       (fst (open_conversation Fixture.db Sample.alice Sample.bob)).
Proof.
  destruct (inbox_invariants Fixture.db Sample.alice
              {| MessageRoutes.receiverId := Some Sample.bob;
                 MessageRoutes.content := Some "hi" |} Sample.bob)
    as [Hwf Hex].
  split.
  - apply Hwf; [apply fixture_well_formed | reflexivity].
  - apply Hex; [apply fixture_participants | discriminate].
Defined.

End InboxFacts.

(** ** Windows of a list *)

Section WindowFacts.

Context {A : Type}.

Lemma in_firstn (n : nat) (l : list A) (x : A) : In x (firstn n l) -> In x l.
Proof.
  intros H. rewrite <- (firstn_skipn n l). apply in_or_app. now left.
Qed.

Lemma in_skipn (n : nat) (l : list A) (x : A) : In x (skipn n l) -> In x l.
Proof.
  intros H. rewrite <- (firstn_skipn n l). apply in_or_app. now right.
Qed.

Lemma in_window (n k : nat) (l : list A) (x : A) :
  In x (firstn n (skipn k l)) -> In x l.
Proof. intros H. now apply in_firstn, in_skipn in H. Qed.

End WindowFacts.

(** ** Notification read state *)

Module NotificationInboxFacts.

Import NotificationInbox.
Local Open Scope list_scope.

Lemma mark_all_read_none userId (l : list Notification.t) :
  filter (unread userId)
    (map (fun n => if unread userId n then mark_read n else n) l) = [].
Proof.
  induction l as [|n l IH]; simpl; [reflexivity |].
  destruct (unread userId n) eqn:Hu; simpl.
  - unfold unread at 1. simpl. now rewrite andb_false_r.
  - now rewrite Hu.
Qed.

Lemma mark_all_read_foreign userId (l : list Notification.t) :
  filter (fun n => negb (Notification.recipient n =? userId)%string)
    (map (fun n => if unread userId n then mark_read n else n) l)
  = filter (fun n => negb (Notification.recipient n =? userId)%string) l.
Proof.
  induction l as [|n l IH]; simpl; [reflexivity |].
  destruct (unread userId n) eqn:Hu; simpl; rewrite IH; [| reflexivity].
  unfold unread in Hu. apply andb_true_iff in Hu. destruct Hu as [Hr _].
  now rewrite Hr.
Qed.

Lemma mark_all_read_others userId other (l : list Notification.t) :
  other <> userId ->
  filter (unread other)
    (map (fun n => if unread userId n then mark_read n else n) l)
  = filter (unread other) l.
Proof.
  intros Hne. induction l as [|n l IH]; simpl; [reflexivity |].
  destruct (unread userId n) eqn:Hu; simpl; rewrite IH; [| reflexivity].
  unfold unread in *. apply andb_true_iff in Hu. destruct Hu as [Hr _].
  simpl. apply String.eqb_eq in Hr.
  destruct (String.eqb_spec (Notification.recipient n) other) as [Ho|Ho];
    [congruence | reflexivity].
Qed.

(** X8: PUT /mark-all-read leaves the user without unread
    notifications, keeps the number of notifications, does not touch
    the notifications and the unread count of anybody else, and changes
    nothing when repeated. *)
Theorem mark_all_read_spec db userId :
  let db' := fst (mark_all_read db userId) in
  unread_count db' userId = 0
  /\ List.length (notifications db') = List.length (notifications db)
  /\ filter (fun n => negb (Notification.recipient n =? userId)%string)
       (notifications db')
     = filter (fun n => negb (Notification.recipient n =? userId)%string)
         (notifications db)
  /\ (forall other, other <> userId ->
        unread_count db' other = unread_count db other)
  /\ fst (mark_all_read db' userId) = db'.
Proof.
  unfold mark_all_read, unread_count. simpl. repeat split.
  - now rewrite mark_all_read_none.
  - apply length_map.
  - apply mark_all_read_foreign.
  - intros other Hne. now rewrite (mark_all_read_others _ _ _ Hne).
  - unfold with_notifications. simpl. f_equal. rewrite map_map.
    apply map_ext. intros n. destruct (unread userId n) eqn:Hu.
    + unfold unread. simpl. now rewrite andb_false_r.
    + now rewrite Hu.
Qed.

Lemma mark_all_read_spec_witness :
  unread_count (fst (mark_all_read Sample.db Sample.alice)) Sample.alice = 0
  /\ unread_count (fst (mark_all_read Sample.db Sample.alice)) Sample.bob
     = unread_count Sample.db Sample.bob.
Proof.
  destruct (mark_all_read_spec Sample.db Sample.alice)
    as (Hnone & _ & _ & Hothers & _).
  split; [exact Hnone | apply Hothers; discriminate].
Defined.

(** X9: a notification that is created raises by one the unread count
    of the user its recipient string is cast to, and of nobody else; a
    suppressed one, and one whose references cannot be cast, raise no
    count. *)
Theorem createNotification_unread db recipient sender type post job message
    userId :
  unread_count
    (fst (NotificationRoutes.createNotification_cast db recipient sender
            type post job message)) userId
  = unread_count db userId
    + match ObjectId_cast recipient, ObjectId_cast sender,
            NotificationRoutes.cast_reference post,
            NotificationRoutes.cast_reference job with
      | Some r, Some _, Some _, Some _ =>
          if (negb (recipient =? sender) && (r =? userId))%string
          then 1 else 0
      | _, _, _, _ => 0
      end.
Proof.
  unfold NotificationRoutes.createNotification_cast, unread_count.
  destruct (recipient =? sender)%string; cbn [negb andb fst].
  - destruct (ObjectId_cast recipient), (ObjectId_cast sender),
      (NotificationRoutes.cast_reference post),
      (NotificationRoutes.cast_reference job); lia.
  - destruct (ObjectId_cast recipient) as [r|], (ObjectId_cast sender),
      (NotificationRoutes.cast_reference post),
      (NotificationRoutes.cast_reference job); cbn [fst]; try lia.
    cbn [notifications Store.Notification_save with_notifications].
    rewrite filter_app, length_app. simpl. unfold unread at 2. simpl.
    rewrite andb_true_r. destruct (r =? userId)%string; simpl; lia.
Qed.

(** X10: GET /api/notifications with a limit of at least 1 and a skip of
    at least 0 answers with at most [limit] notifications, all of them
    addressed to the user, and with the count of all the user's unread
    notifications, whatever the page. *)
Theorem list_notifications_page store db userId limit skip :
  Store.Query_ok store -> (0 < limit)%Z -> (0 <= skip)%Z ->
  exists page,
    list_notifications store db userId limit skip
    = Json 200 (page, unread_count db userId)
    /\ (List.length page <= Z.to_nat limit)%nat
    /\ Forall (fun n => In n (notifications db)
                        /\ Notification.recipient n = userId) page.
Proof.
  intros [Hperm Hwindow] Hlimit Hskip. unfold list_notifications.
  rewrite Hwindow by assumption. eexists. split; [reflexivity |]. split.
  - apply firstn_le_length.
  - apply Forall_forall. intros n Hin.
    apply in_window in Hin.
    apply (Permutation_in _ (Permutation_sym (Hperm _))) in Hin.
    apply filter_In in Hin. destruct Hin as [Hin Hr].
    split; [assumption | now apply String.eqb_eq].
Qed.

Lemma list_notifications_page_witness :
  exists page,
    list_notifications (Store.reference Notification.t) Fixture.db
      Sample.alice 50 0
    = Json 200 (page, 0%nat).
Proof.
  destruct (list_notifications_page (Store.reference Notification.t)
              Fixture.db Sample.alice 50 0
              (PaginationFacts.reference_ok Notification.t))
    as (page & Hr & _); [lia | lia |].
  exists page. exact Hr.
Defined.

End NotificationInboxFacts.

(** ** The payment ledger across routes *)

Module LedgerFacts.

Import PaymentRoutes.
Local Open Scope list_scope.

(** What a successful Solana recording did. *)
Lemma verify_sol_recorded env db userId body db1 payment :
  SolanaRoutes.verify_sol env db userId body = (db1, Json 200 payment) ->
  Js.truthy (SolanaRoutes.transactionSignature body) = true
  /\ payments db1 = payments db ++ [payment]
  /\ Payment.transactionHash payment
     = text (SolanaRoutes.transactionSignature body).
Proof.
  unfold SolanaRoutes.verify_sol.
  destruct (Js.truthy (SolanaRoutes.transactionSignature body)); simpl;
    [| discriminate].
  destruct (Store.Payment_findOne db
              (text (SolanaRoutes.transactionSignature body))) eqn:Hfind;
    [discriminate |].
  unfold Store.Payment_save.
  match goal with |- context [negb (Payment.validate ?p)] =>
    destruct (negb (Payment.validate p)); [discriminate |] end.
  simpl. rewrite Hfind.
  destruct (Js.truthy (SolanaRoutes.jobId body)); intros [= <- <-];
    repeat split.
Qed.

Lemma verify_sol_conflict env db userId body recorded :
  Js.truthy (SolanaRoutes.transactionSignature body) = true ->
  Store.Payment_findOne db (text (SolanaRoutes.transactionSignature body))
  = Some recorded ->
  SolanaRoutes.verify_sol env db userId body
  = (db, Error 400 "Payment already recorded").
Proof.
  intros Hsig Hfind. unfold SolanaRoutes.verify_sol.
  now rewrite Hsig, Hfind.
Qed.

Lemma findOne_after db db1 payment hash :
  payments db1 = payments db ++ [payment] ->
  Payment.transactionHash payment = hash ->
  exists found, Store.Payment_findOne db1 hash = Some found.
Proof.
  intros Hledger <-. unfold Store.Payment_findOne, findOne. rewrite Hledger.
  apply PaymentFacts.find_app_hit. apply String.eqb_refl.
Qed.

(** X11: the two recording routes share one ledger: a hash recorded by
    POST /verify-eth is refused as a signature by POST /verify-sol, and
    a signature recorded by POST /verify-sol is refused as a hash by
    POST /verify-eth; the refusal changes nothing. *)
Theorem routes_share_ledger db userId db1 payment :
  (forall env body,
      verify_eth env db userId body = (db1, Json 200 payment) ->
      forall env' userId' body',
        SolanaRoutes.transactionSignature body' = transactionHash body ->
        SolanaRoutes.verify_sol env' db1 userId' body'
        = (db1, Error 400 "Payment already recorded"))
  /\ (forall env body,
         SolanaRoutes.verify_sol env db userId body
         = (db1, Json 200 payment) ->
         forall env' userId' body',
           transactionHash body' = SolanaRoutes.transactionSignature body ->
           Js.truthy (blockchain body') = true ->
           verify_eth env' db1 userId' body'
           = (db1, Error 400 "Payment already recorded")).
Proof.
  split.
  - intros env body Hfirst env' userId' body' Hsame.
    destruct (PaymentFacts.verify_eth_recorded _ _ _ _ _ _ Hfirst)
      as (Hhash & _ & Hledger & Hpay).
    destruct (findOne_after _ _ _ _ Hledger Hpay) as [found Hfound].
    apply (verify_sol_conflict env' db1 userId' body' found);
      now rewrite Hsame.
  - intros env body Hfirst env' userId' body' Hsame Hchain.
    destruct (verify_sol_recorded _ _ _ _ _ _ Hfirst)
      as (Hsig & Hledger & Hpay).
    destruct (findOne_after _ _ _ _ Hledger Hpay) as [found Hfound].
    apply (PaymentFacts.verify_eth_conflict env' db1 userId' body' found);
      try (now rewrite Hsame). exact Hchain.
Qed.

Lemma routes_share_ledger_witness :
  exists db1 payment,
    verify_eth Sample.env Sample.db Sample.alice Sample.payment_body
    = (db1, Json 200 payment)
    /\ SolanaRoutes.verify_sol Fixture.sol_env db1 Sample.bob Fixture.sol_body
       = (db1, Error 400 "Payment already recorded").
Proof.
  eexists _, _. split; [reflexivity |].
  refine (proj1 (routes_share_ledger Sample.db Sample.alice _ _)
            Sample.env Sample.payment_body eq_refl
            Fixture.sol_env Sample.bob Fixture.sol_body eq_refl).
Defined.






Lemma find_update_first_same {A : Type} (p : A -> bool) (f : A -> A)
    (l : list A) (x : A) :
  find p l = Some x -> p (f x) = true ->
  find p (update_first p f l) = Some (f x).
Proof.
  intros Hfind Hfx. induction l as [|y l IH]; simpl in *; [discriminate |].
  destruct (p y) eqn:Hy; simpl.
  - injection Hfind as ->. now rewrite Hfx.
  - rewrite Hy. auto.
Qed.

Lemma find_update_first_other {A : Type} (p q : A -> bool) (f : A -> A)
    (l : list A) :
  (forall x, p x = true -> q x = false /\ q (f x) = false) ->
  find q (update_first p f l) = find q l.
Proof.
  intros Hpq. induction l as [|y l IH]; simpl; [reflexivity |].
  destruct (p y) eqn:Hy; simpl.
  - destruct (Hpq y Hy) as [-> ->]. reflexivity.
  - now rewrite IH.
Qed.

(** The jobs after a successful recording. *)
Lemma verify_eth_jobs env db userId body db1 payment :
  verify_eth env db userId body = (db1, Json 200 payment) ->
  jobs db1
  = if Js.truthy (jobId body)
    then update_first
           (fun j => (Job._id j =? text (jobId body))%string)
           (Job.mark_paid (text (transactionHash body))
              (text (blockchain body)))
           (jobs db)
    else jobs db.
Proof.
  unfold verify_eth.
  destruct (Js.truthy (transactionHash body)); simpl; [| discriminate].
  destruct (Js.truthy (blockchain body)); simpl; [| discriminate].
  destruct (Store.Payment_findOne db (text (transactionHash body))) eqn:Hfind;
    [discriminate |].
  unfold Store.Payment_save.
  match goal with |- context [negb (Payment.validate ?p)] =>
    destruct (negb (Payment.validate p)); [discriminate |] end.
  simpl. rewrite Hfind.
  destruct (Js.truthy (jobId body)); intros [= <- _]; reflexivity.
Qed.

(** X13: a successful POST /verify-eth that names an existing job marks
    that job as paid, with the hash and the chain of the request, and
    changes no other job; without a job identifier it changes no job. *)
Theorem verify_eth_marks_job env db userId body db1 payment :
  verify_eth env db userId body = (db1, Json 200 payment) ->
  (Js.truthy (jobId body) = false -> jobs db1 = jobs db)
  /\ (forall id job,
         jobId body = Some id -> id <> EmptyString ->
         Store.Job_findById db id = Some job ->
         Store.Job_findById db1 id
         = Some (Job.mark_paid (text (transactionHash body))
                   (text (blockchain body)) job)
         /\ Job.paymentVerified
              (Job.mark_paid (text (transactionHash body))
                 (text (blockchain body)) job) = true
         /\ forall other, other <> id ->
              Store.Job_findById db1 other = Store.Job_findById db other).
Proof.
  intros Hok. pose proof (verify_eth_jobs _ _ _ _ _ _ Hok) as Hjobs.
  split.
  - intros Hno. now rewrite Hno in Hjobs.
  - intros id job Hid Hne Hfind. rewrite Hid in Hjobs.
    destruct id as [|c id]; [congruence |]. simpl in Hjobs.
    unfold Store.Job_findById, findOne in *. rewrite Hjobs.
    split; [| split; [reflexivity |]].
    + apply find_update_first_same; [assumption |].
      apply find_some in Hfind. apply Hfind.
    + intros other Hother. apply find_update_first_other.
      intros j Hj. apply String.eqb_eq in Hj. simpl.
      split; apply String.eqb_neq; congruence.
Qed.

Lemma verify_eth_marks_job_witness :
  exists db1 payment,
    verify_eth Sample.env Sample.db Sample.alice Sample.payment_body
    = (db1, Json 200 payment)
    /\ exists job,
         Store.Job_findById db1 "65a1b2c3d4e5f60718293a4c" = Some job
         /\ Job.paymentVerified job = true.
Proof.
  eexists _, _. split; [reflexivity |].
  destruct (proj2 (verify_eth_marks_job Sample.env Sample.db Sample.alice
                     Sample.payment_body _ _ eq_refl)
              "65a1b2c3d4e5f60718293a4c" Sample.posting eq_refl)
    as (Hfound & Hpaid & _); [discriminate | reflexivity |].
  eexists. split; [exact Hfound | exact Hpaid].
Defined.

End LedgerFacts.

(** ** Posts: likes of others, deletion, pages *)

Module PostFacts.

Import PostRoutes PostAdmin.
Local Open Scope list_scope.






(** *** Deleting a post *)

Lemma find_id_absent (l : list Post.t) (postId : ObjectId) :
  ~ In postId (List.map Post._id l) ->
  find (fun q => (Post._id q =? postId)%string) l = None.
Proof.
  intros Hnot. induction l as [|x l IH]; simpl in *; [reflexivity |].
  destruct (String.eqb_spec (Post._id x) postId) as [Heq|Hne]; [tauto |].
  apply IH. tauto.
Qed.

Lemma find_owned_absent (l : list Post.t) (userId postId : ObjectId) :
  ~ In postId (List.map Post._id l) ->
  find (owned_by userId postId) l = None.
Proof.
  intros Hnot. induction l as [|x l IH]; simpl in *; [reflexivity |].
  unfold owned_by at 1.
  destruct (String.eqb_spec (Post._id x) postId) as [Heq|Hne]; [tauto |].
  simpl. apply IH. tauto.
Qed.

(** With unique identifiers, the owner's query finds the post with the
    identifier when its author is the user, and nothing otherwise. *)
Lemma find_owned (l : list Post.t) (userId postId : ObjectId) :
  NoDup (List.map Post._id l) ->
  find (owned_by userId postId) l
  = match find (fun q => (Post._id q =? postId)%string) l with
    | Some post =>
        if (Post.author post =? userId)%string then Some post else None
    | None => None
    end.
Proof.
  intros Hnodup. induction l as [|x l IH]; simpl in *; [reflexivity |].
  apply NoDup_cons_iff in Hnodup. destruct Hnodup as [Hnot Hnodup].
  unfold owned_by at 1.
  destruct (String.eqb_spec (Post._id x) postId) as [Heq|Hne]; simpl.
  - destruct (Post.author x =? userId)%string; [reflexivity |].
    apply find_owned_absent. now rewrite <- Heq.
  - now apply IH.
Qed.

Lemma remove_first_length {A : Type} (p : A -> bool) (l : list A) (x : A) :
  find p l = Some x ->
  S (List.length (remove_first p l)) = List.length l.
Proof.
  induction l as [|y l IH]; simpl; [discriminate |].
  destruct (p y); [reflexivity |]. intros H. simpl. now rewrite IH.
Qed.

Lemma remove_first_other (l : list Post.t) (userId postId other : ObjectId) :
  other <> postId ->
  find (fun q => (Post._id q =? other)%string)
    (remove_first (owned_by userId postId) l)
  = find (fun q => (Post._id q =? other)%string) l.
Proof.
  intros Hne. induction l as [|x l IH]; simpl; [reflexivity |].
  destruct (owned_by userId postId x) eqn:Hx; simpl.
  - unfold owned_by in Hx. apply andb_true_iff in Hx. destruct Hx as [Hx _].
    apply String.eqb_eq in Hx.
    destruct (String.eqb_spec (Post._id x) other); [congruence | reflexivity].
  - now rewrite IH.
Qed.

Lemma remove_first_gone (l : list Post.t) (userId postId : ObjectId) post :
  NoDup (List.map Post._id l) ->
  find (owned_by userId postId) l = Some post ->
  find (fun q => (Post._id q =? postId)%string)
    (remove_first (owned_by userId postId) l) = None.
Proof.
  intros Hnodup. induction l as [|x l IH]; simpl in *; [discriminate |].
  apply NoDup_cons_iff in Hnodup. destruct Hnodup as [Hnot Hnodup].
  destruct (owned_by userId postId x) eqn:Hx.
  - intros _. unfold owned_by in Hx. apply andb_true_iff in Hx.
    destruct Hx as [Hx _]. apply String.eqb_eq in Hx.
    apply find_id_absent. now rewrite <- Hx.
  - intros Hfind. simpl.
    destruct (String.eqb_spec (Post._id x) postId) as [Heq|Hne].
    + rewrite find_owned_absent in Hfind; [discriminate |].
      now rewrite <- Heq.
    + now apply IH.
Qed.

(** X15: DELETE /:postId answers 500 and changes nothing when the
    identifier of the path is not a string of 24 hexadecimal digits.
    Otherwise, with unique post identifiers, it removes the post of
    this identifier, in whatever case its digits are written, exactly
    when the requester is its author: then the post is no longer found,
    every other post is, and one document is gone; a request by anybody
    else, or for a post that is not stored, is answered 404 and changes
    nothing. *)
Theorem delete_post_spec db userId postId :
  NoDup (List.map Post._id (posts db)) ->
  (ObjectId_cast postId = None ->
   delete_post db userId postId = (db, Error 500 "Server error"))
  /\ (forall id post,
         ObjectId_cast postId = Some id ->
         Store.Post_findById db id = Some post ->
         Post.author post = userId ->
         let db' := fst (delete_post db userId postId) in
         snd (delete_post db userId postId)
         = Json 200 "Post deleted successfully"
         /\ Store.Post_findById db' id = None
         /\ (forall other, other <> id ->
               Store.Post_findById db' other = Store.Post_findById db other)
         /\ S (List.length (posts db')) = List.length (posts db))
  /\ (forall id,
         ObjectId_cast postId = Some id ->
         (Store.Post_findById db id = None
          \/ exists post, Store.Post_findById db id = Some post
                          /\ Post.author post <> userId) ->
         delete_post db userId postId
         = (db, Error 404 "Post not found or unauthorized")).
Proof.
  intros Hnodup. unfold delete_post. split; [| split].
  - intros ->. reflexivity.
  - intros id post -> Hpost Hauthor.
    pose proof (find_owned (posts db) userId id Hnodup) as Hfind.
    unfold Store.Post_findById, findOne in *.
    rewrite Hpost in Hfind.
    rewrite Hauthor, String.eqb_refl in Hfind. rewrite Hfind. simpl.
    repeat split.
    + now apply (remove_first_gone _ _ _ post).
    + intros other Hother. now apply remove_first_other.
    + now apply (remove_first_length _ _ post).
  - intros id -> Hcase.
    pose proof (find_owned (posts db) userId id Hnodup) as Hfind.
    unfold Store.Post_findById, findOne in *.
    destruct Hcase as [Hnone|(post & Hpost & Hauthor)].
    + rewrite Hnone in Hfind. now rewrite Hfind.
    + rewrite Hpost in Hfind. apply String.eqb_neq in Hauthor.
      rewrite Hauthor in Hfind. now rewrite Hfind.
Qed.

Lemma delete_post_spec_witness :
  Store.Post_findById
    (fst (delete_post Fixture.db Sample.carol "65A1B2C3D4E5F60718293A4D"))
    "65a1b2c3d4e5f60718293a4d" = None
  /\ delete_post Fixture.db Sample.alice "65a1b2c3d4e5f60718293a4d"
     = (Fixture.db, Error 404 "Post not found or unauthorized")
  /\ delete_post Fixture.db Sample.carol "my-post"
     = (Fixture.db, Error 500 "Server error").
Proof.
  assert (Hnodup : NoDup (List.map Post._id (posts Fixture.db)))
    by (repeat constructor; simpl; tauto).
  destruct (delete_post_spec Fixture.db Sample.carol
              "65A1B2C3D4E5F60718293A4D" Hnodup) as (_ & Hdel & _).
  destruct (delete_post_spec Fixture.db Sample.alice
              "65a1b2c3d4e5f60718293a4d" Hnodup) as (_ & _ & Hkeep).
  destruct (delete_post_spec Fixture.db Sample.carol "my-post" Hnodup)
    as (Hcast & _).
  split; [| split].
  - exact (proj1 (proj2 (Hdel "65a1b2c3d4e5f60718293a4d"
                           (Sample.post [Sample.bob])
                           eq_refl eq_refl eq_refl))).
  - apply (Hkeep "65a1b2c3d4e5f60718293a4d" eq_refl). right.
    exists (Sample.post [Sample.bob]). split; [reflexivity | discriminate].
  - exact (Hcast eq_refl).
Defined.

(** *** The pages of a list *)

Lemma firstn_add {A : Type} (a b : nat) (l : list A) :
  firstn (a + b) l = firstn a l ++ firstn b (skipn a l).
Proof.
  revert l; induction a as [|a IH]; intros l; simpl; [reflexivity |].
  destruct l as [|x l]; simpl.
  - now rewrite firstn_nil.
  - now rewrite IH.
Qed.

(** The window of page [k >= 1], in natural numbers. *)
Lemma page_window {A : Type} (store : Store.Query A) (l : list A)
    (k : nat) (limit : Z) :
  Store.Query_ok store -> (0 < limit)%Z ->
  Store.window store (Store.order store l)
    ((Z.of_nat (S k) - 1) * limit) limit
  = Js.Returned
      (firstn (Z.to_nat limit)
         (skipn (k * Z.to_nat limit) (Store.order store l))).
Proof.
  intros [_ Hwindow] Hlimit. rewrite Hwindow by nia.
  replace (Z.of_nat (S k) - 1)%Z with (Z.of_nat k) by lia.
  rewrite Z2Nat.inj_mul by lia. now rewrite Nat2Z.id.
Qed.

Lemma walk_S {A : Type} (get : Z -> response (list A * Pagination.t))
    (n : nat) :
  walk get (S n) = walk get n ++ items_of (get (Z.of_nat (S n))).
Proof.
  unfold walk. rewrite seq_S, flat_map_app. simpl. now rewrite app_nil_r.
Qed.

Lemma walk_windows {A : Type} (get : Z -> response (list A * Pagination.t))
    (l : list A) (size : nat) :
  (forall k, items_of (get (Z.of_nat (S k)))
             = firstn size (skipn (k * size) l)) ->
  forall n, walk get n = firstn (n * size) l.
Proof.
  intros Hget. induction n as [|n IH]; [reflexivity |].
  rewrite walk_S, IH, Hget.
  replace (S n * size)%nat with (n * size + size)%nat by lia.
  now rewrite firstn_add.
Qed.

Lemma list_jobs_items store db query (k : nat) limit :
  Store.Query_ok store -> (0 < limit)%Z ->
  items_of (JobRoutes.list_jobs store db query (Z.of_nat (S k)) limit)
  = firstn (Z.to_nat limit)
      (skipn (k * Z.to_nat limit)
         (Store.order store (filter query (jobs db)))).
Proof.
  intros Hok Hlimit. unfold JobRoutes.list_jobs.
  now rewrite (page_window store _ k limit Hok Hlimit).
Qed.

Lemma feed_items store db (k : nat) limit :
  Store.Query_ok store -> (0 < limit)%Z ->
  items_of (feed store db (Z.of_nat (S k)) limit)
  = firstn (Z.to_nat limit)
      (skipn (k * Z.to_nat limit)
         (Store.order store (filter is_public (posts db)))).
Proof.
  intros Hok Hlimit. unfold feed.
  now rewrite (page_window store _ k limit Hok Hlimit).
Qed.

(** X16: a page of the job list holds only stored jobs that satisfy the
    query, a page of the feed only stored posts that are public, and
    neither holds more than [limit] items. *)
Theorem listings_show_matching jobStore postStore db query page limit :
  Store.Query_ok jobStore -> Store.Query_ok postStore ->
  (1 <= page)%Z -> (0 < limit)%Z ->
  let listed := items_of (JobRoutes.list_jobs jobStore db query page limit) in
  let shown := items_of (feed postStore db page limit) in
  Forall (fun j => In j (jobs db) /\ query j = true) listed
  /\ Forall (fun p => In p (posts db) /\ Post.visibility p = "public"%string)
       shown
  /\ (List.length listed <= Z.to_nat limit)%nat
  /\ (List.length shown <= Z.to_nat limit)%nat.
Proof.
  intros Hjobs Hposts Hpage Hlimit listed shown.
  assert (Hk : exists k, page = Z.of_nat (S k))
    by (exists (Z.to_nat (page - 1)); lia).
  destruct Hk as [k ->]. subst listed shown.
  rewrite (list_jobs_items jobStore db query k limit Hjobs Hlimit).
  rewrite (feed_items postStore db k limit Hposts Hlimit).
  destruct Hjobs as [Hpj _]. destruct Hposts as [Hpp _].
  repeat split; try apply firstn_le_length.
  - apply Forall_forall. intros j Hin. apply in_window in Hin.
    apply (Permutation_in _ (Permutation_sym (Hpj _))) in Hin.
    now apply filter_In in Hin.
  - apply Forall_forall. intros q Hin. apply in_window in Hin.
    apply (Permutation_in _ (Permutation_sym (Hpp _))) in Hin.
    apply filter_In in Hin. destruct Hin as [Hin Hpub].
    split; [assumption | now apply String.eqb_eq].
Qed.

Lemma listings_show_matching_witness :
  Forall (fun p => In p (posts Fixture.db)
                   /\ Post.visibility p = "public"%string)
    (items_of (feed (Store.reference Post.t) Fixture.db 1 20)).
Proof.
  refine (proj1 (proj2 (listings_show_matching
                          (Store.reference Job.t) (Store.reference Post.t)
                          Fixture.db (fun _ => true) 1 20
                          (PaginationFacts.reference_ok Job.t)
                          (PaginationFacts.reference_ok Post.t) _ _))); lia.
Defined.

(** X17: the pages 1 to [n] of the job list and of the feed, one after
    the other, are the first [n * limit] matching documents in the
    store's order: no document is skipped or shown twice, and once
    [n * limit] reaches the total every matching document has been
    shown. *)
Theorem pages_partition jobStore postStore db query limit (n : nat) :
  Store.Query_ok jobStore -> Store.Query_ok postStore -> (0 < limit)%Z ->
  let matchingJobs := filter query (jobs db) in
  let publicPosts := filter is_public (posts db) in
  let jobPages :=
    walk (fun page => JobRoutes.list_jobs jobStore db query page limit) n in
  let feedPages := walk (fun page => feed postStore db page limit) n in
  jobPages
  = firstn (n * Z.to_nat limit) (Store.order jobStore matchingJobs)
  /\ feedPages
     = firstn (n * Z.to_nat limit) (Store.order postStore publicPosts)
  /\ ((List.length matchingJobs <= n * Z.to_nat limit)%nat ->
      Permutation matchingJobs jobPages)
  /\ ((List.length publicPosts <= n * Z.to_nat limit)%nat ->
      Permutation publicPosts feedPages).
Proof.
  intros Hjobs Hposts Hlimit matchingJobs publicPosts jobPages feedPages.
  assert (Hj : jobPages
               = firstn (n * Z.to_nat limit)
                   (Store.order jobStore matchingJobs)).
  { apply walk_windows. intros k. now apply list_jobs_items. }
  assert (Hp : feedPages
               = firstn (n * Z.to_nat limit)
                   (Store.order postStore publicPosts)).
  { apply walk_windows. intros k. now apply feed_items. }
  destruct Hjobs as [Hpj _]. destruct Hposts as [Hpp _].
  repeat split; auto.
  - intros Hall. rewrite Hj, firstn_all2; [apply Hpj |].
    now rewrite <- (Permutation_length (Hpj _)).
  - intros Hall. rewrite Hp, firstn_all2; [apply Hpp |].
    now rewrite <- (Permutation_length (Hpp _)).
Qed.

Lemma pages_partition_witness :
  walk (fun page => feed (Store.reference Post.t) Fixture.db page 1) 3
  = posts Fixture.db.
Proof.
  refine (proj1 (proj2 (pages_partition
                          (Store.reference Job.t) (Store.reference Post.t)
                          Fixture.db (fun _ => true) 1 3
                          (PaginationFacts.reference_ok Job.t)
                          (PaginationFacts.reference_ok Post.t) _))); lia.
Defined.

End PostFacts.

(** ** Skill extraction, continued *)

Module SkillListFacts.

Import AiRoutes AiSuggestions.
Local Open Scope list_scope.

(** X18: POST /extract-skills never answers with more than 20 skills.
    It answers 400 without calling on the text when the text is missing,
    500 when the provider fails, and a JSON array of the provider is
    passed on, cut to its first 20 items. *)
Theorem extract_skills_outcomes JSON_parse text http :
  (forall status items,
      extract_skills JSON_parse text http = Json status items ->
      status = 200%Z /\ (List.length items <= 20)%nat
      /\ Js.truthy text = true /\ exists aiResponse, http = Js.Returned aiResponse)
  /\ (Js.truthy text = false ->
      extract_skills JSON_parse text http = Error 400 "Text is required")
  /\ (Js.truthy text = true ->
      (forall cause, http = Js.Thrown cause ->
         extract_skills JSON_parse text http
         = Error 500 "Failed to extract skills")
      /\ (forall aiResponse jsonMatch items,
            http = Js.Returned aiResponse ->
            Js.match_span "[" "]" aiResponse = Some jsonMatch ->
            JSON_parse jsonMatch = Some (JArray items) ->
            extract_skills JSON_parse text http = Json 200 (firstn 20 items))).
Proof.
  unfold extract_skills. destruct (Js.truthy text); cbn [negb].
  - split; [| split; [discriminate |]].
    + intros status items.
      destruct http as [aiResponse|cause]; cbn [callOpenRouterAPI];
        [| discriminate].
      match goal with |- context [match ?v with JArray _ => _ | _ => _ end] =>
        destruct v; try discriminate end.
      match goal with |- context [firstn 20 ?l] =>
        pose proof (firstn_le_length 20 l) as Hlen;
        generalize dependent (firstn 20 l) end.
      intros cut Hlen [= <- <-]. repeat split; eauto.
    + intros _. split.
      * intros cause ->. reflexivity.
      * intros aiResponse jsonMatch items -> Hspan Hparse.
        cbn [callOpenRouterAPI]. now rewrite Hspan, Hparse.
  - split; [discriminate |]. split; [reflexivity | discriminate].
Qed.

Lemma extract_skills_outcomes_witness :
  extract_skills (fun _ => None) None (Js.Returned "Python")
  = Error 400 "Text is required".
Proof.
  exact (proj1 (proj2 (extract_skills_outcomes (fun _ => None) None
                         (Js.Returned "Python"))) eq_refl).
Defined.

Lemma some_char_false (p : ascii -> bool) (s : string) :
  (forall c, p c = false) -> Js.some_char p s = false.
Proof.
  intros Hp. induction s as [|c s IH]; simpl; [reflexivity |].
  now rewrite Hp, IH.
Qed.

Lemma some_char_trimStart_sub (p : ascii -> bool) (s : string) :
  Js.some_char p s = false -> Js.some_char p (Js.trimStart s) = false.
Proof.
  induction s as [|c s IH]; simpl; [reflexivity |].
  intros H. apply orb_false_iff in H. destruct H as [Hc Hs].
  destruct (Js.is_whitespace c); [auto |]. simpl. now rewrite Hc, Hs.
Qed.

Lemma some_char_trimEnd_sub (p : ascii -> bool) (s : string) :
  Js.some_char p s = false -> Js.some_char p (Js.trimEnd s) = false.
Proof.
  induction s as [|c s IH]; simpl; [reflexivity |].
  intros H. apply orb_false_iff in H. destruct H as [Hc Hs].
  specialize (IH Hs). destruct (Js.trimEnd s) as [|d r].
  - destruct (Js.is_whitespace c); simpl; [reflexivity |].
    now rewrite Hc.
  - simpl in *. now rewrite Hc, IH.
Qed.

Lemma some_char_trim_sub (p : ascii -> bool) (s : string) :
  Js.some_char p s = false -> Js.some_char p (Js.trim s) = false.
Proof.
  intros H. unfold Js.trim.
  now apply some_char_trimEnd_sub, some_char_trimStart_sub.
Qed.

Lemma existsb_false_Forall {A : Type} (f : A -> bool) (l : list A) :
  existsb f l = false -> Forall (fun x => f x = false) l.
Proof.
  induction l as [|x l IH]; simpl; [constructor |].
  intros H. apply orb_false_iff in H. destruct H. constructor; auto.
Qed.

(** X19: no entry of the comma and newline split holds a double quote,
    a square bracket, a comma or a newline. *)
Theorem split_skills_plain (aiResponse : string) :
  Forall (fun skill => Js.some_char special skill = false)
    (split_skills aiResponse).
Proof.
  assert (Hpieces :
            Forall (fun piece => Js.some_char special piece = false)
              (Js.split_class comma_or_newline
                 (Js.remove_class quote_or_bracket aiResponse))).
  { apply existsb_false_Forall.
    rewrite some_char_split_class, some_char_remove_class.
    apply some_char_false. intros c. unfold special.
    destruct (quote_or_bracket c), (comma_or_newline c); reflexivity. }
  unfold split_skills. rewrite Forall_forall in *. intros skill Hin.
  apply filter_In in Hin. destruct Hin as [Hin _].
  apply in_map_iff in Hin. destruct Hin as (piece & <- & Hpiece).
  apply some_char_trim_sub. now apply Hpieces.
Qed.

(** *** Reading back a list the provider wrote with commas *)

Lemma some_char_app (p : ascii -> bool) (a b : string) :
  Js.some_char p (a ++ b)%string = Js.some_char p a || Js.some_char p b.
Proof.
  induction a as [|c a IH]; simpl; [reflexivity |].
  now rewrite IH, orb_assoc.
Qed.

Lemma some_char_weaken (p q : ascii -> bool) (s : string) :
  (forall c, p c = true -> q c = true) ->
  Js.some_char q s = false -> Js.some_char p s = false.
Proof.
  intros Hpq. induction s as [|c s IH]; simpl; [reflexivity |].
  intros H. apply orb_false_iff in H. destruct H as [Hc Hs].
  rewrite (IH Hs), orb_false_r.
  destruct (p c) eqn:Hp; [| reflexivity]. apply Hpq in Hp. congruence.
Qed.

Lemma remove_class_id (cls : ascii -> bool) (s : string) :
  Js.some_char cls s = false -> Js.remove_class cls s = s.
Proof.
  induction s as [|c s IH]; simpl; [reflexivity |].
  intros H. apply orb_false_iff in H. destruct H as [Hc Hs].
  now rewrite Hc, IH.
Qed.

Lemma split_class_plain (cls : ascii -> bool) (s : string) :
  Js.some_char cls s = false -> Js.split_class cls s = [s].
Proof.
  induction s as [|c s IH]; simpl; [reflexivity |].
  intros H. apply orb_false_iff in H. destruct H as [Hc Hs].
  now rewrite Hc, IH.
Qed.

Lemma split_class_app (cls : ascii -> bool) (x rest : string) (c : ascii) :
  Js.some_char cls x = false -> cls c = true ->
  Js.split_class cls (x ++ String c rest)%string
  = x :: Js.split_class cls rest.
Proof.
  intros Hx Hc. induction x as [|d x IH]; simpl.
  - now rewrite Hc.
  - simpl in Hx. apply orb_false_iff in Hx. destruct Hx as [Hd Hx].
    now rewrite Hd, IH.
Qed.

Lemma clean_no_separator (skill : string) :
  clean skill ->
  Js.some_char comma_or_newline skill = false
  /\ Js.some_char quote_or_bracket skill = false.
Proof.
  intros (_ & _ & Hspecial). split;
    apply (some_char_weaken _ special); auto; intros c Hc; unfold special;
    rewrite Hc; auto using orb_true_r.
Qed.

Lemma join_cons (x y : string) (l : list string) :
  Js.join ", " (x :: y :: l) = (x ++ ", " ++ Js.join ", " (y :: l))%string.
Proof. reflexivity. Qed.

Lemma join_plain (l : list string) :
  Forall clean l ->
  Js.some_char quote_or_bracket (Js.join ", " l) = false.
Proof.
  induction 1 as [|x l Hx Hl IH]; [reflexivity |].
  destruct l as [|y l].
  - apply (clean_no_separator x Hx).
  - rewrite join_cons, !some_char_app, IH.
    destruct (clean_no_separator x Hx) as [_ ->]. reflexivity.
Qed.

(** The pieces of a joined list: the first name, then each other name
    behind the space of the separator. *)
Lemma split_join (x : string) (l : list string) :
  Forall clean (x :: l) ->
  Js.split_class comma_or_newline (Js.join ", " (x :: l))
  = x :: List.map (String " ") l.
Proof.
  revert x; induction l as [|y l IH]; intros x Hall.
  - apply split_class_plain. inversion Hall; subst.
    now apply clean_no_separator.
  - inversion Hall as [|? ? Hx Hrest]; subst.
    rewrite join_cons.
    change (x ++ ", " ++ Js.join ", " (y :: l))%string
      with (x ++ String "," (String " " (Js.join ", " (y :: l))))%string.
    rewrite split_class_app;
      [| now apply clean_no_separator | reflexivity].
    f_equal. cbn [Js.split_class].
    change (comma_or_newline " ") with false. cbn iota.
    now rewrite (IH y Hrest).
Qed.

Lemma trim_space (s : string) : Js.trim (String " " s) = Js.trim s.
Proof. reflexivity. Qed.

(** X20: a list of skill names that are not empty, trimmed and free of
    quotes, brackets, commas and newlines, written with a comma and a
    space between the names, is read back exactly by the comma and
    newline split. *)
Theorem split_skills_join (skills : list string) :
  Forall clean skills ->
  split_skills (Js.join ", " skills) = skills.
Proof.
  intros Hall. destruct skills as [|x l]; [reflexivity |].
  unfold split_skills.
  rewrite (remove_class_id _ _ (join_plain _ Hall)), (split_join x l Hall).
  inversion Hall as [|? ? Hx Hrest]; subst.
  destruct Hx as (Hne & Htrim & _). cbn [List.map filter].
  rewrite Htrim. apply String.eqb_neq in Hne. rewrite Hne. cbn [negb].
  f_equal. clear -Hrest. induction Hrest as [|y l Hy Hl IH]; [reflexivity |].
  destruct Hy as (Hne & Htrim & _). cbn [List.map filter].
  rewrite trim_space, Htrim. apply String.eqb_neq in Hne. rewrite Hne.
  cbn [negb]. now rewrite IH.
Qed.

Lemma split_skills_join_witness :
  split_skills "Python, React, Node.js" = ["Python"; "React"; "Node.js"]%string.
Proof.
  apply (split_skills_join ["Python"; "React"; "Node.js"]%string).
  repeat constructor; discriminate.
Defined.

End SkillListFacts.

(** ** Suggestions *)

Module SuggestionFacts.

Import AiRoutes AiSuggestions.
Local Open Scope list_scope.

Lemma existsb_eqb_In (x : string) (l : list string) :
  existsb (String.eqb x) l = true <-> In x l.
Proof.
  rewrite existsb_exists. split.
  - intros (y & Hin & Heq). apply String.eqb_eq in Heq. now subst.
  - intros Hin. exists x. split; [assumption | apply String.eqb_refl].
Qed.

Lemma similar_spec userId user candidate :
  similar userId user candidate = true ->
  User._id candidate <> userId
  /\ ~ In (User._id candidate) (User.connections user)
  /\ exists skill, In skill (User.skills candidate)
                   /\ In skill (User.skills user).
Proof.
  unfold similar. intros H.
  apply andb_true_iff in H. destruct H as [H Hskill].
  apply andb_true_iff in H. destruct H as [Hid Hconn].
  apply negb_true_iff in Hid, Hconn. repeat split.
  - now apply String.eqb_neq.
  - intros Hin. apply existsb_eqb_In in Hin. congruence.
  - apply existsb_exists in Hskill. destruct Hskill as (skill & Hin & Hs).
    exists skill. split; [assumption | now apply existsb_eqb_In].
Qed.

(** X21: GET /suggestions, once the provider has answered, returns at
    most three tips and at most five users; none of these users is the
    requester or one of the requester's connections, and each shares a
    skill with the requester.  A bracketed answer that is not JSON
    yields the three default tips, an answer without brackets none. *)
Theorem suggestions_spec JSON_parse store db userId user aiResponse :
  bracket_means_array JSON_parse ->
  Store.Query_ok store ->
  Store.User_findById db userId = Some user ->
  exists tips suggested,
    suggestions JSON_parse store db userId (Js.Returned aiResponse)
    = Json 200 (tips, suggested)
    /\ (List.length tips <= 3)%nat
    /\ (List.length suggested <= 5)%nat
    /\ Forall (fun c =>
                 User._id c <> userId
                 /\ ~ In (User._id c) (User.connections user)
                 /\ (exists skill, In skill (User.skills c)
                                   /\ In skill (User.skills user))
                 /\ exists stored, In stored (users db)
                                   /\ c = selected stored) suggested
    /\ (forall jsonMatch,
           Js.match_span "[" "]" aiResponse = Some jsonMatch ->
           JSON_parse jsonMatch = None ->
           tips = List.map JString default_tips)
    /\ (Js.match_span "[" "]" aiResponse = None -> tips = []).
Proof.
  intros Hgrammar [_ Hwindow] Hfind. unfold suggestions.
  rewrite Hfind. cbn [callOpenRouterAPI].
  rewrite Hwindow by lia. cbn [Z.to_nat skipn Pos.to_nat Pos.iter_op].
  assert (Hsuggested :
            forall l : list User.t,
              (List.length (List.map selected
                              (firstn 5 (filter (similar userId user)
                                           (users db)))) <= 5)%nat
              /\ Forall (fun c =>
                           User._id c <> userId
                           /\ ~ In (User._id c) (User.connections user)
                           /\ (exists skill, In skill (User.skills c)
                                             /\ In skill (User.skills user))
                           /\ exists stored, In stored (users db)
                                             /\ c = selected stored)
                   (List.map selected
                      (firstn 5 (filter (similar userId user) (users db))))).
  { intros _. split.
    - rewrite length_map. apply firstn_le_length.
    - apply Forall_forall. intros c Hin. apply in_map_iff in Hin.
      destruct Hin as (stored & <- & Hin). apply in_firstn in Hin.
      apply filter_In in Hin. destruct Hin as [Hin Hsim].
      destruct (similar_spec _ _ _ Hsim) as (H1 & H2 & H3).
      repeat split; auto. now exists stored. }
  destruct (Hsuggested []) as [Hlen Hall].
  destruct (Js.match_span "[" "]" aiResponse) as [jsonMatch|] eqn:Hspan.
  - destruct (JSON_parse jsonMatch) as [parsed|] eqn:Hparse.
    + destruct (match_span_spec _ _ _ _ Hspan) as [_ (tail & ->)].
      destruct (Hgrammar _ _ Hparse) as [items ->].
      eexists _, _. split; [reflexivity |].
      repeat split; auto; try discriminate.
      * apply firstn_le_length.
      * intros other [= <-] Hnone. congruence.
    + eexists _, _. split; [reflexivity |].
      repeat split; auto; try discriminate; simpl; lia.
  - eexists _, _. split; [reflexivity |].
    repeat split; auto; try discriminate; simpl; lia.
Qed.

Lemma suggestions_spec_witness :
  exists tips suggested,
    suggestions (fun _ => None) (Store.reference User.t) Fixture.db
      Sample.alice (Js.Returned "[learn, connect")
    = Json 200 (tips, suggested)
    /\ tips = [].
Proof.
  destruct (suggestions_spec (fun _ => None) (Store.reference User.t)
              Fixture.db Sample.alice (Fixture.user Sample.alice [])
              "[learn, connect")
    as (tips & suggested & Hr & _ & _ & _ & _ & Hnone).
  - intros s value H. discriminate.
  - apply PaginationFacts.reference_ok.
  - reflexivity.
  - exists tips, suggested. split; [exact Hr | now apply Hnone].
Defined.

End SuggestionFacts.

(** ** Connections *)

Module ConnectionFacts.

Import UserRoutes.
Local Open Scope list_scope.

Lemma lookup_id db id u : Store.User_findById db id = Some u -> User._id u = id.
Proof.
  unfold Store.User_findById, findOne. intros H.
  apply find_some in H. now apply String.eqb_eq.
Qed.

(** Updating the user [x] changes the lookup of [x] only. *)
Lemma find_update (l : list User.t) (x y : ObjectId) (f : User.t -> User.t) :
  (forall v, User._id v = x -> User._id (f v) = x) ->
  find (fun u => (User._id u =? y)%string)
    (update_first (fun u => (User._id u =? x)%string) f l)
  = if (y =? x)%string
    then option_map f (find (fun u => (User._id u =? y)%string) l)
    else find (fun u => (User._id u =? y)%string) l.
Proof.
  intros Hf. induction l as [|a l IH]; simpl.
  - now destruct (y =? x)%string.
  - destruct (String.eqb_spec (User._id a) x) as [Hax|Hax]; simpl.
    + rewrite (proj2 (String.eqb_eq _ _) (Hf a Hax)) || idtac.
      destruct (String.eqb_spec y x) as [->|Hyx].
      * rewrite (proj2 (String.eqb_eq _ _) (Hf a Hax)).
        rewrite (proj2 (String.eqb_eq _ _) Hax). reflexivity.
      * rewrite (proj2 (String.eqb_neq _ _)) by (rewrite (Hf a Hax); auto).
        rewrite (proj2 (String.eqb_neq _ _)) by congruence. reflexivity.
    + destruct (String.eqb_spec (User._id a) y) as [Hay|Hay].
      * rewrite (proj2 (String.eqb_neq y x)) by congruence. reflexivity.
      * exact IH.
Qed.

Lemma lookup_update db x y f :
  (forall v, User._id v = x -> User._id (f v) = x) ->
  Store.User_findById (User_findByIdAndUpdate db x f) y
  = if (y =? x)%string then option_map f (Store.User_findById db y) else Store.User_findById db y.
Proof. intros Hf. now apply find_update. Qed.

Lemma lookup_save db u y :
  Store.User_findById (User_save db u) y
  = if (y =? User._id u)%string
    then option_map (fun _ => u) (Store.User_findById db y) else Store.User_findById db y.
Proof. apply find_update. auto. Qed.

Lemma lookup_notified db recipient sender type post job message y :
  Store.User_findById (fst (NotificationRoutes.createNotification db recipient sender
                 type post job message)) y
  = Store.User_findById db y.
Proof.
  unfold NotificationRoutes.createNotification.
  now destruct (recipient =? sender)%string.
Qed.

Lemma lookup_notified_cast db recipient sender type post job message y :
  Store.User_findById
    (fst (NotificationRoutes.createNotification_cast db recipient sender
            type post job message)) y
  = Store.User_findById db y.
Proof.
  unfold NotificationRoutes.createNotification_cast.
  destruct (recipient =? sender)%string; [reflexivity |].
  now destruct (ObjectId_cast recipient), (ObjectId_cast sender),
    (NotificationRoutes.cast_reference post),
    (NotificationRoutes.cast_reference job).
Qed.

Lemma connected_to_spec u id : connected_to u id = true <-> In id (User.connections u).
Proof.
  unfold connected_to. rewrite existsb_exists. split.
  - intros (c & Hin & Heq). apply String.eqb_eq in Heq. now subst.
  - intros Hin. exists id. split; [assumption | apply String.eqb_refl].
Qed.

Lemma connected_to_false u id :
  ~ In id (User.connections u) -> connected_to u id = false.
Proof.
  intros Hnot. destruct (connected_to u id) eqn:H; [| reflexivity].
  now apply connected_to_spec in H.
Qed.

Lemma addToSet_id id u : User._id (addToSet id u) = User._id u.
Proof. unfold addToSet. now destruct (connected_to u id). Qed.

Lemma addToSet_In id u c :
  In c (User.connections (addToSet id u))
  <-> c = id \/ In c (User.connections u).
Proof.
  unfold addToSet. destruct (connected_to u id) eqn:H.
  - apply connected_to_spec in H. split; [auto | intros [->|Hin]; auto].
  - simpl. rewrite in_app_iff. simpl. intuition.
Qed.

Lemma pull_In id u c :
  In c (User.connections (pull id u))
  <-> c <> id /\ In c (User.connections u).
Proof.
  unfold pull. simpl. rewrite filter_In, negb_true_iff, String.eqb_neq.
  tauto.
Qed.

Lemma filter_absent (id : ObjectId) (l : list ObjectId) :
  ~ In id l -> filter (fun c => negb (c =? id)%string) l = l.
Proof.
  induction l as [|c l IH]; simpl; [reflexivity |]. intros Hnot.
  destruct (String.eqb_spec c id) as [->|Hne]; [tauto |].
  simpl. rewrite IH; tauto.
Qed.

Lemma with_connections_same u : with_connections u (User.connections u) = u.
Proof. now destruct u. Qed.

Lemma pull_added id u :
  ~ In id (User.connections u) ->
  pull id (with_connections u (User.connections u ++ [id])) = u.
Proof.
  intros Hnot. destruct u as [id' bio skills location experience education
                              connections].
  unfold pull, with_connections. cbn [User.connections User._id User.bio
    User.skills User.location User.experience User.education] in *.
  rewrite filter_app, filter_absent by auto.
  cbn [filter]. rewrite String.eqb_refl. cbn [negb]. now rewrite app_nil_r.
Qed.

Lemma pull_addToSet id u :
  ~ In id (User.connections u) -> pull id (addToSet id u) = u.
Proof.
  intros Hnot. unfold addToSet. rewrite connected_to_false by assumption.
  now apply pull_added.
Qed.

Lemma add_connection_accepted db userId targetUserId target user :
  ObjectId_cast userId = Some userId ->
  Store.User_findById db userId = Some user ->
  targetUserId <> userId ->
  ~ In targetUserId (User.connections user) ->
  ObjectId_cast targetUserId = Some target ->
  add_connection db userId targetUserId
  = (accepted db userId target user,
     Json 200 "Connection added successfully").
Proof.
  intros Hauth Hfind Hne Hnot Hcast. unfold add_connection.
  rewrite (proj2 (String.eqb_neq _ _) Hne), Hfind.
  rewrite connected_to_false by assumption. rewrite Hcast.
  unfold NotificationRoutes.createNotification_cast.
  rewrite (proj2 (String.eqb_neq _ _) Hne).
  rewrite (proj2 (String.eqb_neq userId targetUserId)) by congruence.
  rewrite Hcast, Hauth.
  cbn [fst NotificationRoutes.cast_reference].
  unfold accepted, Store.Notification_save, with_notifications.
  cbn. rewrite <- app_assoc. reflexivity.
Qed.

Lemma lookup_accepted db userId target user y :
  Store.User_findById db userId = Some user ->
  target <> userId ->
  Store.User_findById (accepted db userId target user) y
  = if (y =? target)%string
    then option_map (addToSet userId) (Store.User_findById db y)
    else if (y =? userId)%string
         then Some (with_connections user
                      (User.connections user ++ [target]))
         else Store.User_findById db y.
Proof.
  intros Hfind Hne.
  change (Store.User_findById (accepted db userId target user) y)
    with (Store.User_findById
            (User_findByIdAndUpdate
               (User_save db
                  (with_connections user
                     (User.connections user ++ [target])))
               target (addToSet userId)) y).
  rewrite lookup_update
    by (intros v Hv; now rewrite addToSet_id).
  rewrite lookup_save. cbn [with_connections User._id].
  rewrite (lookup_id _ _ _ Hfind).
  destruct (String.eqb_spec y target) as [->|Hyt].
  - now rewrite (proj2 (String.eqb_neq _ _) Hne).
  - destruct (String.eqb_spec y userId) as [->|Hyu]; [| reflexivity].
    now rewrite Hfind.
Qed.

Lemma lookup_pulled db userId target y :
  Store.User_findById
    (User_findByIdAndUpdate
       (User_findByIdAndUpdate db userId (pull target)) target (pull userId))
    y
  = option_map
      (fun v =>
         (if (y =? target)%string then pull userId else fun w => w)
           ((if (y =? userId)%string then pull target
             else fun w => w) v))
      (Store.User_findById db y).
Proof.
  rewrite !lookup_update by (intros v Hv; exact Hv).
  destruct (y =? target)%string, (y =? userId)%string;
    destruct (Store.User_findById db y); reflexivity.
Qed.

(** X22: POST /connections/:userId for a stored requester and a target
    string that is not the requester's, is not among the requester's
    connections and is cast to the identifier of another user answers
    200, appends this identifier to the requester's connections, adds
    the requester to the connections of the target when the target is
    stored, leaves every other user as it was and creates one unread
    notification for each side.  An identifier without a stored user is
    accepted as well, and then only the requester is changed. *)
Theorem add_connection_spec db userId targetUserId target user :
  ObjectId_cast userId = Some userId ->
  Store.User_findById db userId = Some user ->
  targetUserId <> userId ->
  ~ In targetUserId (User.connections user) ->
  ObjectId_cast targetUserId = Some target ->
  target <> userId ->
  let db' := fst (add_connection db userId targetUserId) in
  snd (add_connection db userId targetUserId)
  = Json 200 "Connection added successfully"
  /\ Store.User_findById db' userId
     = Some (with_connections user (User.connections user ++ [target]))
  /\ (forall stored,
         Store.User_findById db target = Some stored ->
         exists stored',
           Store.User_findById db' target = Some stored'
           /\ forall c, In c (User.connections stored')
                        <-> c = userId \/ In c (User.connections stored))
  /\ (Store.User_findById db target = None ->
      Store.User_findById db' target = None)
  /\ (forall other,
         other <> userId -> other <> target ->
         Store.User_findById db' other = Store.User_findById db other)
  /\ notifications db'
     = notifications db
       ++ [Notification.new target userId
             Notification.connection_accepted None None None;
           Notification.new userId target
             Notification.connection_accepted None None None].
Proof.
  intros Hauth Hfind Hne Hnot Hcast Hother db'. subst db'.
  rewrite (add_connection_accepted _ _ _ _ _ Hauth Hfind Hne Hnot Hcast).
  cbn [fst snd].
  split; [reflexivity |].
  split.
  { rewrite (lookup_accepted _ _ _ _ _ Hfind Hother), String.eqb_refl.
    rewrite (proj2 (String.eqb_neq userId target)) by congruence.
    reflexivity. }
  split.
  { intros stored Hstored.
    rewrite (lookup_accepted _ _ _ _ _ Hfind Hother), String.eqb_refl,
      Hstored.
    eexists. split; [reflexivity |]. intros c. apply addToSet_In. }
  split.
  { intros Hnone.
    rewrite (lookup_accepted _ _ _ _ _ Hfind Hother), String.eqb_refl, Hnone.
    reflexivity. }
  split; [| reflexivity].
  intros other Hu Ht.
  rewrite (lookup_accepted _ _ _ _ _ Hfind Hother).
  now rewrite (proj2 (String.eqb_neq _ _) Ht),
    (proj2 (String.eqb_neq _ _) Hu).
Qed.

Lemma add_connection_spec_witness :
  Store.User_findById
    (fst (add_connection Fixture.db Sample.alice "507F191E810C19729DE860EA"))
    Sample.alice
  = Some (Fixture.user Sample.alice [Sample.bob]).
Proof.
  refine (proj1 (proj2 (add_connection_spec Fixture.db Sample.alice
                          "507F191E810C19729DE860EA" Sample.bob
                          (Fixture.user Sample.alice [])
                          eq_refl eq_refl _ _ eq_refl _))).
  - discriminate.
  - simpl. tauto.
  - discriminate.
Defined.

(** X23: the self check of POST /connections/:userId compares strings.
    The requester's identifier in the same spelling is refused with
    400 and nothing is written; in another spelling (its letters in the
    other case) it is accepted with 200: the requester is stored as
    their own connection and receives two notifications of which they
    are the sender, so that the connections are no longer free of self
    connections. *)
Theorem add_connection_self db userId user :
  ObjectId_cast userId = Some userId ->
  Store.User_findById db userId = Some user ->
  add_connection db userId userId
  = (db, Error 400 "Cannot connect with yourself")
  /\ forall targetUserId,
       targetUserId <> userId ->
       ObjectId_cast targetUserId = Some userId ->
       ~ In targetUserId (User.connections user) ->
       let db' := fst (add_connection db userId targetUserId) in
       snd (add_connection db userId targetUserId)
       = Json 200 "Connection added successfully"
       /\ Store.User_findById db' userId
          = Some (with_connections user (User.connections user ++ [userId]))
       /\ notifications db'
          = notifications db
            ++ [Notification.new userId userId
                  Notification.connection_accepted None None None;
                Notification.new userId userId
                  Notification.connection_accepted None None None]
       /\ ~ no_self_connection db'.
Proof.
  intros Hauth Hfind. split.
  - unfold add_connection. now rewrite String.eqb_refl.
  - intros targetUserId Hne Hcast Hnot db'. subst db'.
    rewrite (add_connection_accepted _ _ _ _ _ Hauth Hfind Hne Hnot Hcast).
    cbn [fst snd].
    assert (Hself : Store.User_findById (accepted db userId userId user)
                      userId
                    = Some (with_connections user
                              (User.connections user ++ [userId]))).
    { change (Store.User_findById (accepted db userId userId user) userId)
        with (Store.User_findById
                (User_findByIdAndUpdate
                   (User_save db
                      (with_connections user
                         (User.connections user ++ [userId])))
                   userId (addToSet userId)) userId).
      rewrite lookup_update by (intros v Hv; now rewrite addToSet_id).
      rewrite lookup_save. cbn [with_connections User._id].
      rewrite (lookup_id _ _ _ Hfind), String.eqb_refl, Hfind.
      cbn [option_map]. unfold addToSet.
      rewrite (proj2 (connected_to_spec _ _)); [reflexivity |].
      simpl. apply in_app_iff. simpl. auto. }
    repeat split; auto.
    intros Hno. apply (Hno userId _ Hself). simpl.
    apply in_app_iff. simpl. auto.
Qed.

Lemma add_connection_self_witness :
  Store.User_findById
    (fst (add_connection Fixture.db Sample.alice "507F1F77BCF86CD799439011"))
    Sample.alice
  = Some (Fixture.user Sample.alice [Sample.alice]).
Proof.
  destruct (add_connection_self Fixture.db Sample.alice
              (Fixture.user Sample.alice []) eq_refl eq_refl) as [_ H].
  refine (proj1 (proj2 (H "507F1F77BCF86CD799439011" _ eq_refl _))).
  - discriminate.
  - simpl. tauto.
Defined.

Lemma lookup_add_cases db userId targetUserId :
  ObjectId_cast targetUserId <> Some userId ->
  (forall y,
      Store.User_findById (fst (add_connection db userId targetUserId)) y
      = Store.User_findById db y)
  \/ exists user target,
       Store.User_findById db userId = Some user
       /\ target <> userId
       /\ forall y,
            Store.User_findById (fst (add_connection db userId targetUserId))
              y
            = Store.User_findById (accepted db userId target user) y.
Proof.
  intros Hother. unfold add_connection.
  destruct (targetUserId =? userId)%string; [now left |].
  destruct (Store.User_findById db userId) as [user|] eqn:Hfind;
    [| now left].
  destruct (connected_to user targetUserId); [now left |].
  destruct (ObjectId_cast targetUserId) as [target|] eqn:Hcast;
    [| now left].
  right. exists user, target. repeat split; auto; [congruence |].
  intros y. cbn [fst]. now rewrite !lookup_notified_cast.
Qed.

(** After an accepted request every stored user keeps the connections
    it had. *)
Lemma accepted_grows db userId target user y v' :
  Store.User_findById db userId = Some user ->
  target <> userId ->
  Store.User_findById (accepted db userId target user) y = Some v' ->
  exists v,
    Store.User_findById db y = Some v
    /\ (forall c, In c (User.connections v) -> In c (User.connections v'))
    /\ (forall c, In c (User.connections v') ->
                  In c (User.connections v)
                  \/ (y = userId /\ c = target)
                  \/ (y = target /\ c = userId)).
Proof.
  intros Hfind Hne. rewrite (lookup_accepted _ _ _ _ _ Hfind Hne).
  destruct (String.eqb_spec y target) as [->|Hyt].
  - destruct (Store.User_findById db target) as [stored|]; [| discriminate].
    intros [= <-]. exists stored. split; [reflexivity |].
    split; intros c Hc.
    + apply addToSet_In. auto.
    + apply addToSet_In in Hc. destruct Hc as [->|Hc]; auto.
  - destruct (String.eqb_spec y userId) as [->|Hyu].
    + intros [= <-]. exists user. split; [assumption |].
      split; intros c Hc; simpl in *.
      * apply in_app_iff. auto.
      * apply in_app_iff in Hc. destruct Hc as [Hc|[<-|[]]]; auto.
    + intros Hv. exists v'. auto.
Qed.

(** X24: removing a connection keeps the connection graph mutual (a
    connection between two stored users is held by both) and free of
    self connections, and so does adding one, unless the target string
    is cast to the requester's own identifier. *)
Theorem connections_stay_mutual db userId targetUserId :
  mutual db -> no_self_connection db ->
  let added := fst (add_connection db userId targetUserId) in
  let removed := fst (remove_connection db userId targetUserId) in
  (ObjectId_cast targetUserId <> Some userId ->
   mutual added /\ no_self_connection added)
  /\ mutual removed /\ no_self_connection removed.
Proof.
  intros Hmutual Hself added removed. subst added removed. split.
  { intros Hother.
    destruct (lookup_add_cases db userId targetUserId Hother)
      as [Hsame|(user & target & Hfind & Hne & Hlook)].
    - split.
      + intros a b ua ub. rewrite !Hsame. apply Hmutual.
      + intros a ua. rewrite Hsame. apply Hself.
    - split.
      + intros a b ua ub Ha Hb Hin. rewrite Hlook in Ha, Hb.
        destruct (accepted_grows _ _ _ _ _ _ Hfind Hne Ha)
          as (va & Hva & _ & Hnew).
        destruct (accepted_grows _ _ _ _ _ _ Hfind Hne Hb)
          as (vb & Hvb & Hkeep & _).
        destruct (Hnew _ Hin) as [Hold|[[-> ->]|[-> ->]]].
        * apply Hkeep. exact (Hmutual a b va vb Hva Hvb Hold).
        * rewrite (lookup_accepted _ _ _ _ _ Hfind Hne), String.eqb_refl
            in Hb.
          destruct (Store.User_findById db target) as [stored|];
            [| discriminate].
          injection Hb as <-. apply addToSet_In. auto.
        * rewrite (lookup_accepted _ _ _ _ _ Hfind Hne) in Hb.
          rewrite (proj2 (String.eqb_neq userId target)) in Hb
            by congruence.
          rewrite String.eqb_refl in Hb.
          injection Hb as <-. simpl. apply in_app_iff. simpl. auto.
      + intros a ua Ha Hin. rewrite Hlook in Ha.
        destruct (accepted_grows _ _ _ _ _ _ Hfind Hne Ha)
          as (va & Hva & _ & Hnew).
        destruct (Hnew _ Hin) as [Hold|[[-> Heq]|[-> Heq]]];
          [exact (Hself a va Hva Hold) | congruence | congruence]. }
  unfold remove_connection.
  destruct (ObjectId_cast targetUserId) as [target|]; cbn [fst];
    [| now split].
  split.
  - intros a b ua ub Ha Hb Hin.
    rewrite lookup_pulled in Ha, Hb.
    destruct (Store.User_findById db a) as [va|] eqn:Hva; [| discriminate].
    destruct (Store.User_findById db b) as [vb|] eqn:Hvb; [| discriminate].
    injection Ha as <-. injection Hb as <-.
    assert (Hold : In b (User.connections va)).
    { destruct (a =? target)%string, (a =? userId)%string;
        repeat (apply pull_In in Hin; destruct Hin as [_ Hin]); assumption. }
    pose proof (Hmutual a b va vb Hva Hvb Hold) as Hback.
    destruct (String.eqb_spec b target) as [Hbt|Hbt];
      destruct (String.eqb_spec b userId) as [Hbu|Hbu];
      repeat (apply pull_In; split); auto;
      intros ->; subst;
      rewrite ?String.eqb_refl in Hin;
      repeat match type of Hin with
             | context [(?x =? ?y)%string] =>
                 destruct (String.eqb_spec x y)
             end;
      repeat (apply pull_In in Hin; destruct Hin as [? Hin]);
      congruence.
  - intros a ua Ha Hin.
    rewrite lookup_pulled in Ha.
    destruct (Store.User_findById db a) as [va|] eqn:Hva; [| discriminate].
    injection Ha as <-.
    apply (Hself a va Hva).
    destruct (a =? target)%string, (a =? userId)%string;
      repeat (apply pull_In in Hin; destruct Hin as [_ Hin]); assumption.
Qed.

Lemma fixture_graph : mutual Fixture.db /\ no_self_connection Fixture.db.
Proof.
  split.
  - intros a b ua ub Ha _ Hin. apply find_some in Ha. destruct Ha as [Ha _].
    simpl in Ha. destruct Ha as [<-|[<-|[<-|[]]]]; simpl in Hin; contradiction.
  - intros a ua Ha Hin. apply find_some in Ha. destruct Ha as [Ha _].
    simpl in Ha. destruct Ha as [<-|[<-|[<-|[]]]]; simpl in Hin; contradiction.
Qed.

Lemma connections_stay_mutual_witness :
  mutual (fst (add_connection Fixture.db Sample.alice Sample.bob))
  /\ no_self_connection
       (fst (add_connection Fixture.db Sample.alice Sample.bob)).
Proof.
  destruct (connections_stay_mutual Fixture.db Sample.alice Sample.bob
              (proj1 fixture_graph) (proj2 fixture_graph))
    as (Hadd & _).
  apply Hadd. discriminate.
Defined.

(** Updates of two different users can be done in either order. *)
Lemma update_first_comm (l : list User.t) (x y : ObjectId)
    (f g : User.t -> User.t) :
  x <> y ->
  (forall v, User._id v = x -> User._id (f v) = x) ->
  (forall v, User._id v = y -> User._id (g v) = y) ->
  update_first (fun u => (User._id u =? x)%string) f
    (update_first (fun u => (User._id u =? y)%string) g l)
  = update_first (fun u => (User._id u =? y)%string) g
      (update_first (fun u => (User._id u =? x)%string) f l).
Proof.
  intros Hxy Hf Hg. induction l as [|a l IH]; simpl; [reflexivity |].
  destruct (String.eqb_spec (User._id a) y) as [Hay|Hay];
    destruct (String.eqb_spec (User._id a) x) as [Hax|Hax]; simpl.
  - congruence.
  - rewrite (proj2 (String.eqb_neq (User._id (g a)) x))
      by (rewrite (Hg a Hay); congruence).
    now rewrite (proj2 (String.eqb_eq (User._id a) y) Hay).
  - rewrite (proj2 (String.eqb_eq (User._id a) x) Hax).
    rewrite (proj2 (String.eqb_neq (User._id (f a)) y))
      by (rewrite (Hf a Hax); congruence).
    reflexivity.
  - rewrite (proj2 (String.eqb_neq _ _) Hay), (proj2 (String.eqb_neq _ _) Hax).
    now rewrite IH.
Qed.

(** An update followed by one that undoes it on the same user. *)
Lemma update_first_undo (l : list User.t) (x : ObjectId)
    (f g : User.t -> User.t) :
  (forall v, User._id v = x -> User._id (f v) = x) ->
  (forall v, find (fun u => (User._id u =? x)%string) l = Some v ->
             g (f v) = v) ->
  update_first (fun u => (User._id u =? x)%string) g
    (update_first (fun u => (User._id u =? x)%string) f l)
  = l.
Proof.
  intros Hf Hundo. induction l as [|a l IH]; simpl in *; [reflexivity |].
  destruct (String.eqb_spec (User._id a) x) as [Hax|Hax]; simpl.
  - rewrite (proj2 (String.eqb_eq _ _) (Hf a Hax)). now rewrite Hundo.
  - rewrite (proj2 (String.eqb_neq _ _) Hax). now rewrite IH.
Qed.

(** X25: removing a connection that was just added restores every
    stored user: when the request is accepted for a target string that
    is cast to the identifier of another user, this identifier was not
    among the requester's connections and the target did not hold the
    requester, the users after the removal are the users before the
    request.  The two notifications stay. *)
Theorem add_then_remove db userId targetUserId target user :
  ObjectId_cast userId = Some userId ->
  Store.User_findById db userId = Some user ->
  targetUserId <> userId ->
  ~ In targetUserId (User.connections user) ->
  ObjectId_cast targetUserId = Some target ->
  target <> userId ->
  ~ In target (User.connections user) ->
  (forall stored,
      Store.User_findById db target = Some stored ->
      ~ In userId (User.connections stored)) ->
  let added := fst (add_connection db userId targetUserId) in
  let removed := fst (remove_connection added userId targetUserId) in
  snd (remove_connection added userId targetUserId)
  = Json 200 "Connection removed successfully"
  /\ users removed = users db
  /\ List.length (notifications removed)
     = (List.length (notifications db) + 2)%nat.
Proof.
  intros Hauth Hfind Hne Hnot Hcast Hother Hfresh Htarget added removed.
  subst added removed.
  rewrite (add_connection_accepted _ _ _ _ _ Hauth Hfind Hne Hnot Hcast).
  cbn [fst]. unfold remove_connection. rewrite Hcast. cbn [fst snd].
  split; [reflexivity |]. split.
  - unfold accepted, User_findByIdAndUpdate, User_save.
    cbn [fst users with_users with_notifications with_connections User._id].
    rewrite (lookup_id _ _ _ Hfind).
    rewrite (update_first_comm _ userId target)
      by (auto; intros v Hv; now rewrite addToSet_id).
    rewrite (update_first_undo _ userId).
    + apply update_first_undo.
      * intros v Hv. now rewrite addToSet_id.
      * intros v Hv. apply pull_addToSet. now apply Htarget.
    + intros v Hv. exact (lookup_id _ _ _ Hfind).
    + intros v Hv. unfold Store.User_findById, findOne in Hfind.
      rewrite Hfind in Hv. injection Hv as <-. now apply pull_added.
  - unfold accepted. cbn. rewrite length_app. reflexivity.
Qed.

Lemma add_then_remove_witness :
  users (fst (remove_connection
                (fst (add_connection Fixture.db Sample.alice Sample.bob))
                Sample.alice Sample.bob))
  = users Fixture.db.
Proof.
  refine (proj1 (proj2 (add_then_remove Fixture.db Sample.alice Sample.bob
                          Sample.bob (Fixture.user Sample.alice [])
                          eq_refl eq_refl _ _ eq_refl _ _ _))).
  - discriminate.
  - simpl. tauto.
  - discriminate.
  - simpl. tauto.
  - intros stored [= <-]. simpl. tauto.
Defined.

End ConnectionFacts.

(** ** Profile completeness *)

Module ProfileFacts.

Import UserRoutes.

(** X26: the profile completeness is the percentage for the number of
    present fields, 12.5 for each, with the halves rounded up: 0, 13,
    25, 38, 50, 63, 75, 88 or 100; it is 100 exactly when all eight
    fields are present. *)
Theorem profile_completeness_table name email linkedinUrl user :
  let fields := profile_fields name email linkedinUrl user in
  let present := List.length (filter (fun b : bool => b) fields) in
  calculateProfileCompleteness name email linkedinUrl user
  = Js.of_nat (nth present percentages 0%nat)
  /\ (nth present percentages 0%nat = 100%nat
      <-> forallb (fun b : bool => b) fields = true).
Proof.
  unfold calculateProfileCompleteness, profile_fields.
  generalize (filled name), (filled email), (filled (User.bio user)),
    (filled linkedinUrl), (filled (User.location user)),
    (nonempty (User.skills user)), (nonempty (User.experience user)),
    (nonempty (User.education user)).
  intros b1 b2 b3 b4 b5 b6 b7 b8.
  destruct b1, b2, b3, b4, b5, b6, b7, b8;
    (split; [vm_compute; reflexivity
            | cbn; split; intros H; (reflexivity || discriminate H)]).
Qed.

End ProfileFacts.

(** ** The owner's operations on a job *)

Module JobAdminFacts.

Import JobAdmin.
Local Open Scope list_scope.

Lemma job_id_absent (l : list Job.t) (jobId : ObjectId) :
  ~ In jobId (List.map Job._id l) ->
  find (fun j => (Job._id j =? jobId)%string) l = None.
Proof.
  intros Hnot. induction l as [|x l IH]; simpl in *; [reflexivity |].
  destruct (String.eqb_spec (Job._id x) jobId) as [Heq|Hne]; [tauto |].
  apply IH. tauto.
Qed.

Lemma job_owned_absent (l : list Job.t) (userId jobId : ObjectId) :
  ~ In jobId (List.map Job._id l) ->
  find (owned_by userId jobId) l = None.
Proof.
  intros Hnot. induction l as [|x l IH]; simpl in *; [reflexivity |].
  unfold owned_by at 1.
  destruct (String.eqb_spec (Job._id x) jobId) as [Heq|Hne]; [tauto |].
  simpl. apply IH. tauto.
Qed.

(** With unique identifiers, the owner's query finds the job with the
    identifier when the user posted it, and nothing otherwise. *)
Lemma job_find_owned (l : list Job.t) (userId jobId : ObjectId) :
  NoDup (List.map Job._id l) ->
  find (owned_by userId jobId) l
  = match find (fun j => (Job._id j =? jobId)%string) l with
    | Some job =>
        if (Job.postedBy job =? userId)%string then Some job else None
    | None => None
    end.
Proof.
  intros Hnodup. induction l as [|x l IH]; simpl in *; [reflexivity |].
  apply NoDup_cons_iff in Hnodup. destruct Hnodup as [Hnot Hnodup].
  unfold owned_by at 1.
  destruct (String.eqb_spec (Job._id x) jobId) as [Heq|Hne]; simpl.
  - destruct (Job.postedBy x =? userId)%string; [reflexivity |].
    apply job_owned_absent. now rewrite <- Heq.
  - now apply IH.
Qed.

Lemma job_find_id (l : list Job.t) (jobId : ObjectId) (job : Job.t) :
  find (fun j => (Job._id j =? jobId)%string) l = Some job ->
  Job._id job = jobId.
Proof. intros H. apply find_some in H. now apply String.eqb_eq. Qed.

(** With unique identifiers, the replaced job is the only one of its
    identifier afterwards. *)
Lemma replaced_unique (l : list Job.t) (jobId : ObjectId) (new j : Job.t) :
  NoDup (List.map Job._id l) ->
  In j (update_first (fun q => (Job._id q =? jobId)%string) (fun _ => new) l) ->
  Job._id j = jobId -> j = new.
Proof.
  intros Hnodup. induction l as [|x l IH]; simpl; [tauto |].
  apply NoDup_cons_iff in Hnodup. destruct Hnodup as [Hnot Hnodup].
  destruct (String.eqb_spec (Job._id x) jobId) as [Heq|Hne]; simpl.
  - intros [<-|Hin] Hid; [reflexivity |]. exfalso. apply Hnot.
    rewrite Heq, <- Hid. now apply in_map.
  - intros [<-|Hin] Hid; [congruence | auto].
Qed.

Lemma job_removed_other (l : list Job.t) (userId jobId other : ObjectId) :
  other <> jobId ->
  find (fun j => (Job._id j =? other)%string)
    (PostAdmin.remove_first (owned_by userId jobId) l)
  = find (fun j => (Job._id j =? other)%string) l.
Proof.
  intros Hne. induction l as [|x l IH]; simpl; [reflexivity |].
  destruct (owned_by userId jobId x) eqn:Hx; simpl.
  - unfold owned_by in Hx. apply andb_true_iff in Hx. destruct Hx as [Hx _].
    apply String.eqb_eq in Hx.
    destruct (String.eqb_spec (Job._id x) other); [congruence | reflexivity].
  - now rewrite IH.
Qed.

Lemma job_removed_gone (l : list Job.t) (userId jobId : ObjectId) job :
  NoDup (List.map Job._id l) ->
  find (owned_by userId jobId) l = Some job ->
  find (fun j => (Job._id j =? jobId)%string)
    (PostAdmin.remove_first (owned_by userId jobId) l) = None.
Proof.
  intros Hnodup. induction l as [|x l IH]; simpl in *; [discriminate |].
  apply NoDup_cons_iff in Hnodup. destruct Hnodup as [Hnot Hnodup].
  destruct (owned_by userId jobId x) eqn:Hx.
  - intros _. unfold owned_by in Hx. apply andb_true_iff in Hx.
    destruct Hx as [Hx _]. apply String.eqb_eq in Hx.
    apply job_id_absent. now rewrite <- Hx.
  - intros Hfind. simpl.
    destruct (String.eqb_spec (Job._id x) jobId) as [Heq|Hne].
    + rewrite job_owned_absent in Hfind; [discriminate |].
      now rewrite <- Heq.
    + now apply IH.
Qed.

(** A page of the list holds stored jobs that satisfy the query. *)
Lemma listed_jobs store db query page limit j :
  Store.Query_ok store -> (1 <= page)%Z -> (0 < limit)%Z ->
  In j (PostAdmin.items_of (JobRoutes.list_jobs store db query page limit)) ->
  In j (jobs db) /\ query j = true.
Proof.
  intros Hok Hpage Hlimit Hin.
  assert (Hk : exists k, page = Z.of_nat (S k))
    by (exists (Z.to_nat (page - 1)); lia).
  destruct Hk as [k ->].
  rewrite (PostFacts.list_jobs_items store db query k limit Hok Hlimit) in Hin.
  apply in_window in Hin. destruct Hok as [Hperm _].
  apply (Permutation_in _ (Permutation_sym (Hperm _))) in Hin.
  now apply filter_In in Hin.
Qed.

(** X27: with unique job identifiers, PUT /:jobId/close by the user who
    posted the job answers 200 with the job closed, stores it closed,
    leaves every other job as it was, and no page of the public list
    shows the job any more, whatever the filters; a request by anybody
    else is answered 404 and changes nothing. *)
Theorem close_spec db userId jobId job :
  NoDup (List.map Job._id (jobs db)) ->
  Store.Job_findById db jobId = Some job ->
  Job.postedBy job = userId ->
  let closed := with_status job "closed" in
  let db' := fst (close db userId jobId) in
  snd (close db userId jobId) = Json 200 closed
  /\ Store.Job_findById db' jobId = Some closed
  /\ (forall other, other <> jobId ->
        Store.Job_findById db' other = Store.Job_findById db other)
  /\ (forall store filters page limit,
        Store.Query_ok store -> (1 <= page)%Z -> (0 < limit)%Z ->
        Forall (fun j => Job._id j <> jobId)
          (PostAdmin.items_of
             (JobRoutes.list_jobs store db' (listed filters) page limit)))
  /\ (forall stranger, stranger <> userId ->
        close db stranger jobId
        = (db, Error 404 "Job not found or unauthorized")).
Proof.
  intros Hnodup Hjob Hposted closed db'.
  pose proof (job_find_id _ _ _ Hjob) as Hid.
  assert (Hclose : close db userId jobId
                   = (Job_save db closed, Json 200 closed)).
  { unfold close, findOne. rewrite (job_find_owned _ _ _ Hnodup).
    unfold Store.Job_findById, findOne in Hjob. rewrite Hjob.
    now rewrite Hposted, String.eqb_refl. }
  subst db'. rewrite Hclose. cbn [fst snd].
  assert (Hjobs : jobs (Job_save db closed)
                  = update_first (fun q => (Job._id q =? jobId)%string)
                      (fun _ => closed) (jobs db)).
  { unfold Job_save. cbn. now rewrite Hid. }
  split; [reflexivity |]. split.
  { unfold Store.Job_findById, findOne in *. rewrite Hjobs.
    apply (LedgerFacts.find_update_first_same _ _ _ job Hjob).
    cbn. rewrite Hid. apply String.eqb_refl. }
  split.
  { intros other Hother. unfold Store.Job_findById, findOne. rewrite Hjobs.
    apply LedgerFacts.find_update_first_other. intros x Hx.
    apply String.eqb_eq in Hx. cbn. rewrite Hx, Hid.
    split; apply String.eqb_neq; congruence. }
  split.
  { intros store filters page limit Hok Hpage Hlimit.
    apply Forall_forall. intros j Hin Hj.
    destruct (listed_jobs _ _ _ _ _ _ Hok Hpage Hlimit Hin) as [Hstored Hq].
    rewrite Hjobs in Hstored.
    assert (j = closed) as ->
        by (apply (replaced_unique _ _ _ _ Hnodup Hstored Hj)).
    unfold listed in Hq. cbn in Hq. discriminate. }
  intros stranger Hstranger. unfold close, findOne.
  rewrite (job_find_owned _ _ _ Hnodup).
  unfold Store.Job_findById, findOne in Hjob. rewrite Hjob, Hposted.
  now rewrite (proj2 (String.eqb_neq userId stranger)) by congruence.
Qed.

Lemma close_spec_witness :
  Store.Job_findById
    (fst (close Sample.db (Job.postedBy Sample.posting)
            (Job._id Sample.posting)))
    (Job._id Sample.posting)
  = Some (with_status Sample.posting "closed").
Proof.
  refine (proj1 (proj2 (close_spec Sample.db (Job.postedBy Sample.posting)
                          (Job._id Sample.posting) Sample.posting
                          _ eq_refl eq_refl))).
  repeat constructor; simpl; tauto.
Defined.

(** X28: with unique job identifiers, DELETE /:jobId by the user who
    posted the job removes it: the job is no longer found, one document
    is gone, every other job is found as before, no page of the public
    list shows it, and a match request for it is answered 404.  A
    request by anybody else is answered 404 and changes nothing. *)
Theorem delete_job_spec db userId jobId job :
  NoDup (List.map Job._id (jobs db)) ->
  Store.Job_findById db jobId = Some job ->
  Job.postedBy job = userId ->
  jobId <> EmptyString ->
  let db' := fst (delete_job db userId jobId) in
  snd (delete_job db userId jobId) = Json 200 "Job deleted successfully"
  /\ Store.Job_findById db' jobId = None
  /\ S (List.length (jobs db')) = List.length (jobs db)
  /\ (forall other, other <> jobId ->
        Store.Job_findById db' other = Store.Job_findById db other)
  /\ (forall store filters page limit,
        Store.Query_ok store -> (1 <= page)%Z -> (0 < limit)%Z ->
        Forall (fun j => Job._id j <> jobId)
          (PostAdmin.items_of
             (JobRoutes.list_jobs store db' (listed filters) page limit)))
  /\ (forall JSON_parse clock requester http,
        AiRoutes.job_match JSON_parse clock db' requester (Some jobId) http
        = Error 404 "Job not found")
  /\ (forall stranger, stranger <> userId ->
        delete_job db stranger jobId
        = (db, Error 404 "Job not found or unauthorized")).
Proof.
  intros Hnodup Hjob Hposted Hnonempty db'.
  assert (Howned : find (owned_by userId jobId) (jobs db) = Some job).
  { rewrite (job_find_owned _ _ _ Hnodup).
    unfold Store.Job_findById, findOne in Hjob. rewrite Hjob.
    now rewrite Hposted, String.eqb_refl. }
  assert (Hdelete : delete_job db userId jobId
                    = (with_jobs db
                         (PostAdmin.remove_first (owned_by userId jobId)
                            (jobs db)),
                       Json 200 "Job deleted successfully")).
  { unfold delete_job, findOne. now rewrite Howned. }
  subst db'. rewrite Hdelete. cbn [fst snd].
  assert (Hgone : Store.Job_findById
                    (with_jobs db
                       (PostAdmin.remove_first (owned_by userId jobId)
                          (jobs db))) jobId = None)
    by (apply (job_removed_gone _ _ _ job Hnodup Howned)).
  split; [reflexivity |]. split; [exact Hgone |]. split.
  { apply (PostFacts.remove_first_length _ _ job Howned). }
  split.
  { intros other Hother. now apply job_removed_other. }
  split.
  { intros store filters page limit Hok Hpage Hlimit.
    apply Forall_forall. intros j Hin Hj.
    destruct (listed_jobs _ _ _ _ _ _ Hok Hpage Hlimit Hin) as [Hstored _].
    unfold Store.Job_findById, findOne in Hgone.
    apply (find_none _ _ Hgone) in Hstored.
    apply String.eqb_neq in Hstored. contradiction. }
  split.
  { intros JSON_parse clock requester http. unfold AiRoutes.job_match.
    destruct jobId as [|c rest]; [contradiction |]. now rewrite Hgone. }
  intros stranger Hstranger. unfold delete_job, findOne.
  rewrite (job_find_owned _ _ _ Hnodup).
  unfold Store.Job_findById, findOne in Hjob. rewrite Hjob, Hposted.
  now rewrite (proj2 (String.eqb_neq userId stranger)) by congruence.
Qed.

Lemma delete_job_spec_witness :
  Store.Job_findById
    (fst (delete_job Sample.db (Job.postedBy Sample.posting)
            (Job._id Sample.posting)))
    (Job._id Sample.posting)
  = None.
Proof.
  refine (proj1 (proj2 (delete_job_spec Sample.db
                          (Job.postedBy Sample.posting)
                          (Job._id Sample.posting) Sample.posting
                          _ eq_refl eq_refl _))).
  - repeat constructor; simpl; tauto.
  - discriminate.
Defined.

Lemma notified_frame db connectionId userId jobId :
  let db' :=
    fst (NotificationRoutes.createNotification db connectionId userId
           Notification.job_posted None (Some jobId) None) in
  users db' = users db /\ jobs db' = jobs db /\ posts db' = posts db
  /\ messages db' = messages db /\ payments db' = payments db
  /\ notifications db'
     = notifications db
       ++ List.map (job_posted userId jobId)
            (filter (fun c => negb (c =? userId)%string) [connectionId]).
Proof.
  unfold NotificationRoutes.createNotification. cbn [filter].
  destruct (connectionId =? userId)%string; cbn.
  - now rewrite app_nil_r.
  - repeat split.
Qed.

Lemma fan_out (connections : list ObjectId) db userId jobId :
  let db' :=
    fold_left
      (fun db connectionId =>
         fst (NotificationRoutes.createNotification db connectionId
                userId Notification.job_posted None (Some jobId) None))
      connections db in
  users db' = users db /\ jobs db' = jobs db /\ posts db' = posts db
  /\ messages db' = messages db /\ payments db' = payments db
  /\ notifications db'
     = notifications db
       ++ List.map (job_posted userId jobId)
            (filter (fun c => negb (c =? userId)%string) connections).
Proof.
  revert db. induction connections as [|c rest IH]; intros db; cbn zeta.
  - cbn. now rewrite app_nil_r.
  - cbn [fold_left].
    destruct (IH (fst (NotificationRoutes.createNotification db c userId
                         Notification.job_posted None (Some jobId) None)))
      as (Hu & Hj & Hp & Hm & Hpay & Hn).
    destruct (notified_frame db c userId jobId)
      as (Hu1 & Hj1 & Hp1 & Hm1 & Hpay1 & Hn1).
    rewrite Hu, Hj, Hp, Hm, Hpay, Hn, Hu1, Hj1, Hp1, Hm1, Hpay1, Hn1.
    repeat split. rewrite <- app_assoc, <- map_app.
    change (c :: rest) with ([c] ++ rest). now rewrite filter_app.
Qed.

(** X29: posting a job sends one unread job notification to each
    connection of the poster other than the poster, in addition to the
    notifications already stored, and writes nothing else; a poster who
    is connected to nobody notifies nobody. *)
Theorem notify_connections_spec db userId jobId poster :
  Store.User_findById db userId = Some poster ->
  let db' := notify_connections db userId jobId in
  let receivers :=
    filter (fun c => negb (c =? userId)%string) (User.connections poster) in
  (exists sent,
      notifications db' = notifications db ++ sent
      /\ Permutation sent (List.map (job_posted userId jobId) receivers)
      /\ Forall (fun n => Notification.read n = false
                          /\ Notification.sender n = userId
                          /\ Notification.job n = Some jobId) sent)
  /\ users db' = users db /\ jobs db' = jobs db /\ posts db' = posts db
  /\ messages db' = messages db /\ payments db' = payments db
  /\ (User.connections poster = [] -> db' = db).
Proof.
  intros Hfind db' receivers. subst db' receivers.
  unfold notify_connections. rewrite Hfind.
  destruct (fan_out (User.connections poster) db userId jobId)
    as (Hu & Hj & Hp & Hm & Hpay & Hn).
  repeat split; auto.
  - eexists. split; [exact Hn |]. split; [apply Permutation_refl |].
    apply Forall_forall. intros n Hin. apply in_map_iff in Hin.
    destruct Hin as (c & <- & _). repeat split.
  - intros ->. reflexivity.
Qed.

Lemma notify_connections_spec_witness :
  notifications
    (notify_connections
       (fst (UserRoutes.add_connection Fixture.db Sample.alice Sample.bob))
       Sample.alice (Job._id Sample.posting))
  = notifications
      (fst (UserRoutes.add_connection Fixture.db Sample.alice Sample.bob))
    ++ [job_posted Sample.alice (Job._id Sample.posting) Sample.bob].
Proof.
  destruct (notify_connections_spec
              (fst (UserRoutes.add_connection Fixture.db Sample.alice
                      Sample.bob))
              Sample.alice (Job._id Sample.posting)
              (Fixture.user Sample.alice [Sample.bob]) eq_refl)
    as [(sent & Hsent & Hperm & _) _].
  rewrite Hsent. f_equal.
  apply Permutation_sym, Permutation_length_1_inv in Hperm. exact Hperm.
Defined.

End JobAdminFacts.

(** ** Creating a post *)

Module PostCreateFacts.

Import PostCreate PostAdmin.
Local Open Scope list_scope.

Lemma validate_spec post type :
  validate post type = true ->
  Post.content post <> EmptyString
  /\ (String.length (Post.content post) <= 3000)%nat
  /\ In (Post.visibility post) visibilities.
Proof.
  unfold validate. intros H.
  apply andb_true_iff in H. destruct H as [H Hvis].
  apply andb_true_iff in H. destruct H as [H _].
  apply andb_true_iff in H. destruct H as [Hne Hlen].
  repeat split.
  - apply negb_true_iff in Hne. now apply String.eqb_neq.
  - now apply Nat.leb_le.
  - unfold Payment.one_of in Hvis. apply existsb_exists in Hvis.
    destruct Hvis as (v & Hin & Heq). apply String.eqb_eq in Heq.
    now subst.
Qed.

Lemma or_default_empty (d : string) : Js.or_default EmptyString d = d.
Proof. reflexivity. Qed.

(** X30: POST / on posts either stores nothing and answers an error,
    400 exactly when the content is missing or empty, or answers 201
    and appends one post: written by the requester, without likes,
    with a content of 1 to 3000 code units and a listed visibility,
    public when the request names none.  Over enough pages to hold
    every public post, the feed then shows the new post exactly when it
    is public. *)
Theorem create_post_spec store db fresh userId body :
  Store.Query_ok store ->
  let db' := fst (create_post db fresh userId body) in
  (db' = db
   /\ exists status error,
        snd (create_post db fresh userId body) = Error status error
        /\ (status = 400%Z <-> Js.truthy (content body) = false))
  \/ (exists post,
        snd (create_post db fresh userId body) = Json 201 post
        /\ posts db' = posts db ++ [post]
        /\ Post._id post = fresh
        /\ Post.author post = userId
        /\ Post.likes post = []
        /\ Post.content post <> EmptyString
        /\ (String.length (Post.content post) <= 3000)%nat
        /\ In (Post.visibility post) visibilities
        /\ (Js.truthy (visibility body) = false ->
            Post.visibility post = "public"%string)
        /\ forall limit (n : nat),
             (0 < limit)%Z ->
             (List.length (filter PostRoutes.is_public (posts db'))
              <= n * Z.to_nat limit)%nat ->
             (In post (walk (fun page => PostRoutes.feed store db' page limit)
                         n)
              <-> Post.visibility post = "public"%string)).
Proof.
  intros Hok db'. subst db'. unfold create_post.
  destruct (Js.truthy (content body)) eqn:Hcontent; cbn [negb].
  2:{ left. split; [reflexivity |]. exists 400%Z, "Content is required"%string.
      split; [reflexivity | tauto]. }
  match goal with
  | |- context [validate ?p ?t] =>
      destruct (validate p t) eqn:Hvalid; [| clear Hvalid]
  end.
  2:{ left. split; [reflexivity |]. exists 500%Z, "Server error"%string.
      split; [reflexivity |]. split; [discriminate | discriminate]. }
  right. apply validate_spec in Hvalid.
  cbn [Post.content Post.visibility] in Hvalid.
  destruct Hvalid as (Hne & Hlen & Hvis).
  eexists. split; [reflexivity |]. cbn [fst posts with_posts Post._id
    Post.author Post.likes Post.content Post.visibility].
  repeat split; auto.
  - intros Hnone. destruct (visibility body) as [[|c v]|]; try discriminate;
      reflexivity.
  - intros Hin.
    rewrite (PostFacts.walk_windows _
               (Store.order store
                  (filter PostRoutes.is_public
                     (posts db ++ [ {| Post._id := fresh;
                                       Post.content := text (content body);
                                       Post.author := userId;
                                       Post.likes := [];
                                       Post.visibility :=
                                         Js.or_default
                                           (text (visibility body))
                                           "public" |} ])))
               (Z.to_nat limit)) in Hin
      by (intros k; now apply PostFacts.feed_items).
    apply in_firstn in Hin. destruct Hok as [Hperm _].
    apply (Permutation_in _ (Permutation_sym (Hperm _))) in Hin.
    apply filter_In in Hin. destruct Hin as [_ Hpublic].
    now apply String.eqb_eq in Hpublic.
  - intros Hpublic.
    rewrite (PostFacts.walk_windows _
               (Store.order store
                  (filter PostRoutes.is_public
                     (posts db ++ [ {| Post._id := fresh;
                                       Post.content := text (content body);
                                       Post.author := userId;
                                       Post.likes := [];
                                       Post.visibility :=
                                         Js.or_default
                                           (text (visibility body))
                                           "public" |} ])))
               (Z.to_nat limit))
      by (intros k; now apply PostFacts.feed_items).
    destruct Hok as [Hperm _].
    rewrite firstn_all2
      by (now rewrite <- (Permutation_length (Hperm _))).
    apply (Permutation_in _ (Hperm _)). apply filter_In. split.
    + apply in_or_app. right. now left.
    + now apply String.eqb_eq.
Qed.

Lemma create_post_spec_witness :
  exists post,
    snd (create_post Fixture.db Fixture.fresh_post Sample.alice
           Fixture.post_body) = Json 201 post
    /\ Post.visibility post = "public"%string.
Proof.
  destruct (create_post_spec (Store.reference Post.t) Fixture.db
              Fixture.fresh_post Sample.alice Fixture.post_body
              (PaginationFacts.reference_ok Post.t))
    as [(_ & status & error & Herror & _)
       | (post & Hpost & _ & _ & _ & _ & _ & _ & _ & Hpublic & _)].
  - vm_compute in Herror. discriminate Herror.
  - exists post. split; [exact Hpost | now apply Hpublic].
Defined.

End PostCreateFacts.
